(** * resize_pic_py: a shallow embedding of [get_dpi_pic.py]

    The development follows the layout of the Python module:
    size catalogs and the mm -> px helpers, the extension sets, the path
    resolver, the auto-crop helpers, the external rasterizers, the decoder
    cascade [open_image_any] and the pipeline [resize_to_a_size].

    Modelling conventions.
    - Python [int] is [Z]; Python [float] is a rational of [Q] together
      with the binary64 rounding [fl] applied after every float operation.
    - Python [str] is [string]; case mapping is the ASCII one.
    - A [dict] is a [gmap]; a set of paths is a [gset].
    - An exception is a value of [exn]; code that may raise returns a
      [result], and code that touches the disk threads a [world]. *)

From Stdlib Require Import ZArith QArith Qround Qabs Qpower Lqa Lia String Ascii List Bool.
From Stdlib Require Import Floats.
From stdpp Require Import gmap strings list pretty.

Open Scope string_scope.
Open Scope Z_scope.

(** * Strings *)

Module Str.

Definition lower_ascii (c : ascii) : ascii :=
  let n := N_of_ascii c in
  if ((65 <=? n) && (n <=? 90))%N then ascii_of_N (n + 32) else c.

Definition upper_ascii (c : ascii) : ascii :=
  let n := N_of_ascii c in
  if ((97 <=? n) && (n <=? 122))%N then ascii_of_N (n - 32) else c.

(** [s.lower()] and [s.upper()] *)
Fixpoint lower (s : string) : string :=
  match s with
  | EmptyString => EmptyString
  | String c r => String (lower_ascii c) (lower r)
  end.

Fixpoint upper (s : string) : string :=
  match s with
  | EmptyString => EmptyString
  | String c r => String (upper_ascii c) (upper r)
  end.

(** [s.endswith(suffix)] *)
Definition endswith (s suffix : string) : bool :=
  let n := String.length s in
  let k := String.length suffix in
  (k <=? n)%nat && String.eqb (substring (n - k) k s) suffix.

(** [s.rfind(c)] for a one-character needle, [-1] when absent *)
Fixpoint rfind_from (c : ascii) (s : string) (i : Z) (last : Z) : Z :=
  match s with
  | EmptyString => last
  | String d r => rfind_from c r (i + 1) (if Ascii.eqb c d then i else last)
  end.

Definition rfind (c : ascii) (s : string) : Z := rfind_from c s 0 (-1).

(** [s[i:j]] for [0 <= i <= j] *)
Definition slice (s : string) (i j : Z) : string :=
  substring (Z.to_nat i) (Z.to_nat (j - i)) s.

(** [s[i:]] *)
Definition slice_from (s : string) (i : Z) : string :=
  substring (Z.to_nat i) (String.length s - Z.to_nat i) s.

End Str.

(** * Exceptions and results *)

(** The exceptions the module raises, named after the failure they report;
    the Python class is given in the comment. *)
Inductive exn : Type :=
  | UnknownSizeKey (size_key : string) (available : list string) (* ValueError *)
  | FileNotFound (path : string)                       (* FileNotFoundError *)
  | GhostscriptNotFound                                (* RuntimeError *)
  | GhostscriptFailed (path : string) (cmd : list string) (stderr : string)
                                                       (* RuntimeError *)
  | InkscapeNotFound                                   (* RuntimeError *)
  | InkscapeFailed (path : string) (cmd : list string) (stderr : string)
                                                       (* RuntimeError *)
  | RawDecodeFailed (path : string)                    (* ValueError *)
  | SvgRasterFailed (path : string)                    (* ValueError *)
  | UnsupportedFormat (path : string)                  (* ValueError *)
  | UnidentifiedImage (path : string)    (* raised by Image.open *)
  | CalledProcessError (stderr : string) (* raised by subprocess.run *)
  | ZeroDivisionError                    (* int / 0 *)
  | PillowSizeError                      (* ValueError raised by Pillow *)
  | SaveFailed (path : string).          (* OSError raised by Image.save *)

Inductive result (A : Type) : Type :=
  | Ok (a : A)
  | Raise (e : exn).
Arguments Ok {A} a.
Arguments Raise {A} e.

(** * Floats *)

(** Python floats are IEEE binary64 numbers.  A finite float is the
    rational it denotes; every operation computes the exact rational result
    and rounds it to the nearest binary64 value, ties to even ([fl]).
    Overflow and subnormal numbers are outside the model: the quantities of
    this program range over millimetres, dots per inch and pixel counts. *)
Module Float.

Open Scope Q_scope.

(** [floor (log2 x)] for [0 < x] *)
Definition Qlog2 (x : Q) : Z :=
  let e := (Z.log2 (Qnum x) - Z.log2 (Zpos (Qden x)))%Z in
  if Qle_bool (2 ^ e) x then e else (e - 1)%Z.

(** Round to the nearest integer, ties to the even one: Python's
    [round(x)] on a float, and the rounding of a binary64 significand. *)
Definition round_half_even (x : Q) : Z :=
  let f := Qfloor x in
  match Qcompare (x - inject_Z f) (1 # 2) with
  | Lt => f
  | Gt => (f + 1)%Z
  | Eq => if Z.even f then f else (f + 1)%Z
  end.

(** unit in the last place of the 53-bit significand of [x], [0 < x] *)
Definition ulp (x : Q) : Q := 2 ^ (Qlog2 x - 52).

Definition fl_pos (x : Q) : Q :=
  Qred (inject_Z (round_half_even (x / ulp x)) * ulp x).

(** rounding to binary64 *)
Definition fl (x : Q) : Q :=
  match Qnum x with
  | Z0 => 0
  | Zpos _ => fl_pos x
  | Zneg _ => - fl_pos (- x)
  end.

(** [float(n)] for an [int] *)
Definition of_int (n : Z) : Q := fl (inject_Z n).

Definition mul (a b : Q) : Q := fl (a * b).
Definition div (a b : Q) : Q := fl (a / b).

(** [a / b] on two [int]s: the correctly rounded quotient *)
Definition int_truediv (a b : Z) : Q := fl (inject_Z a / inject_Z b).

(** [min(a, b)]: [b] when [b < a], else [a] *)
Definition min (a b : Q) : Q :=
  match Qcompare b a with Lt => b | _ => a end.

(** the unit roundoff of binary64, [2 ^ -53] *)
Definition u : Q := 1 # 9007199254740992.

(** the literal [25.4] *)
Definition lit_25_4 : Q := fl (254 # 10).

(** the rational denoted by a finite binary64 number of the machine *)
Definition of_binary64 (f : float) : option Q :=
  match Prim2SF f with
  | S754_zero _ => Some 0
  | S754_finite s m e =>
      Some (Qred ((if s then -1 else 1) * inject_Z (Zpos m) * 2 ^ e))
  | _ => None
  end.

End Float.

(** A bound on the sides of the target canvas under which the roundings of
    the ["fit"] mode cannot move a pixel count; the sides of a Pillow image,
    C [int]s, are far below it. *)
Definition dim_bound : Z := 2 ^ 50.

(** * Size dictionaries in mm *)

(** A dictionary object: its items and its identity.  [is] compares
    identities, [==] would compare items. *)
Record size_dict : Type := {
  dict_id : positive;
  items : gmap string (Z * Z)
}.

Definition is_same (a b : size_dict) : bool := Pos.eqb (dict_id a) (dict_id b).

Definition A_SIZES_MM : size_dict := {|
  dict_id := 1;
  items := list_to_map
    [("A1", (594, 841)); ("A2", (420, 594)); ("A3", (297, 420)); ("A4", (210, 297))]
|}.

Definition TWO_PER_THREE_SIZES_MM : size_dict := {|
  dict_id := 2;
  items := list_to_map
    [("24X36", (610, 910)); ("20X30", (510, 760)); ("16X24", (410, 610));
     ("12X18", (300, 460)); ("8X12", (200, 300))]
|}.

Definition FOUR_PER_FIVE_SIZES_MM : size_dict := {|
  dict_id := 3;
  items := list_to_map
    [("24X30", (600, 760)); ("20X25", (510, 630)); ("16X20", (400, 500));
     ("12X15", (300, 380)); ("8X10", (200, 250))]
|}.

Definition THREE_PER_FOUR_SIZES_MM : size_dict := {|
  dict_id := 4;
  items := list_to_map
    [("18X24", (460, 610)); ("15X20", (380, 510)); ("12X16", (300, 400));
     ("9X12", (230, 300))]
|}.

Definition ELEVEN_X_FOURTEEN_SIZES_MM : size_dict := {|
  dict_id := 5;
  items := list_to_map [("11X14", (280, 360))]
|}.

(** * mm -> px helpers *)

Definition mm_to_px (mm dpi : Z) : Z :=
  let inches := Float.div (Float.of_int mm) Float.lit_25_4 in
  Float.round_half_even (Float.mul inches (Float.of_int dpi)).

Definition orientation_synonyms : list string := ["horizontal"; "landscape"; "h"].

Definition paper_size_px (size_key : string) (dpi : Z) (landscape : string)
    (sizes_mm : size_dict) : result (Z * Z) :=
  let key := Str.upper size_key in
  match items sizes_mm !! key with
  | None => Raise (UnknownSizeKey size_key (elements (dom (items sizes_mm))))
  | Some (w_mm, h_mm) =>
      let '(w_mm, h_mm) :=
        if bool_decide (Str.lower landscape ∈ orientation_synonyms)
        then (h_mm, w_mm) else (w_mm, h_mm) in
      Ok (mm_to_px w_mm dpi, mm_to_px h_mm dpi)
  end.

(** * Extensions *)

Definition RAW_EXTS : gset string :=
  {[ ".cr2"; ".cr3"; ".nef"; ".arw"; ".dng"; ".rw2"; ".orf"; ".raf"; ".pef" ]}.
Definition VECTOR_EXTS : gset string := {[ ".svg" ]}.
Definition PS_PDF_EXTS : gset string := {[ ".eps"; ".ps"; ".ai"; ".pdf" ]}.

(** [os.path.splitext(p)[1]] with the POSIX separator: the extension starts
    at the last dot of the last path component, leading dots of that
    component excepted. *)
Definition splitext_ext (p : string) : string :=
  let sepIndex := Str.rfind "/" p in
  let dotIndex := Str.rfind "." p in
  if sepIndex <? dotIndex then
    if forallb (fun c => Ascii.eqb c ".")
         (list_ascii_of_string (Str.slice p (sepIndex + 1) dotIndex))
    then "" else Str.slice_from p dotIndex
  else "".

(** * Images *)

(** The colour modes of the model: single channel, single channel with
    alpha, RGB, RGB with alpha.  Palette images and the [tRNS] entry of
    [im.info] are outside the model. *)
Inductive mode : Type := L | LA | RGB | RGBA.

Definition mode_eqb (a b : mode) : bool :=
  match a, b with
  | L, L | LA, LA | RGB, RGB | RGBA, RGBA => true
  | _, _ => false
  end.

(** One pixel, stored as Pillow stores it: four bytes, of which an [L] image
    uses [pr], an [LA] image [pr] and [pa], an [RGB] image [pr], [pg], [pb],
    an [RGBA] image all four.  The unused bytes are never read. *)
Record pixel : Type := Px { pr : Z; pg : Z; pb : Z; pa : Z }.

(** An image object: mode, pixel rows (top to bottom, each left to right)
    and the attribute [_temp_raster_path] that the external rasterizers bolt
    onto the object they return. *)
Record image : Type := Image {
  mode_of : mode;
  rows : list (list pixel);
  temp_raster_path : option string
}.

Definition box : Type := (Z * Z * Z * Z).   (* left, upper, right, lower *)

Module Grid.
Section Grid.
Context {A : Type}.

Definition height (g : list (list A)) : Z := Z.of_nat (length g).

Definition width (g : list (list A)) : Z :=
  match g with
  | [] => 0
  | r :: _ => Z.of_nat (length r)
  end.

(** every row has the width of the first one *)
Definition rectangular (g : list (list A)) : bool :=
  forallb (fun r => Z.of_nat (length r) =? width g) g.

Definition pixel_at (g : list (list A)) (x y : Z) : option A :=
  if (0 <=? x) && (0 <=? y)
  then g !! Z.to_nat y ≫= fun r => r !! Z.to_nat x
  else None.

(** the [w] by [h] grid whose pixel at [(x, y)] is [f x y] *)
Definition tabulate (w h : Z) (f : Z -> Z -> A) : list (list A) :=
  (fun y => (fun x => f x y) <$> seqZ 0 w) <$> seqZ 0 h.

(** the coordinates of a [w] by [h] grid, row by row *)
Definition coords (w h : Z) : list (Z * Z) :=
  y ← seqZ 0 h; x ← seqZ 0 w; [(x, y)].

(** the coordinates that hold a pixel satisfying [nz] *)
Definition hits (nz : A -> bool) (g : list (list A)) : list (Z * Z) :=
  filter (fun c => from_option nz false (pixel_at g c.1 c.2) = true)
         (coords (width g) (height g)).

(** [getbbox]: the smallest box around the pixels satisfying [nz],
    right and lower bounds exclusive; [None] when there is none. *)
Definition getbbox (nz : A -> bool) (g : list (list A)) : option box :=
  match hits nz g with
  | [] => None
  | (x0, y0) :: rest =>
      Some (foldr Z.min x0 rest.*1, foldr Z.min y0 rest.*2,
            foldr Z.max x0 rest.*1 + 1, foldr Z.max y0 rest.*2 + 1)
  end.

(** [crop]: the region of the box; what lies outside the grid reads as
    [fill] *)
Definition crop (fill : A) (b : box) (g : list (list A)) : list (list A) :=
  let '(l, u, r, d) := b in
  tabulate (r - l) (d - u) (fun x y => default fill (pixel_at g (l + x) (u + y))).

(** [paste] without a mask: [src] is copied with its upper left corner
    at [(x0, y0)], clipped to the canvas *)
Definition paste (canvas src : list (list A)) (x0 y0 : Z) : list (list A) :=
  imap (fun j row =>
    imap (fun i p => default p (pixel_at src (Z.of_nat i - x0) (Z.of_nat j - y0))) row)
    canvas.

(** what makes [b] the bounding box of the coordinates [H] *)
Definition is_bbox (H : list (Z * Z)) (b : box) : Prop :=
  let '(l, u, r, d) := b in
  (forall x y, (x, y) ∈ H -> l <= x < r /\ u <= y < d)
  /\ (exists y, (l, y) ∈ H) /\ (exists y, (r - 1, y) ∈ H)
  /\ (exists x, (x, u) ∈ H) /\ (exists x, (x, d - 1) ∈ H).

(** [h] rows of [w] pixels each *)
Definition has_shape (w h : Z) (g : list (list A)) : Prop :=
  length g = Z.to_nat h /\ Forall (fun row => length row = Z.to_nat w) g.

End Grid.
End Grid.

Module Pillow.

Definition width (im : image) : Z := Grid.width (rows im).
Definition height (im : image) : Z := Grid.height (rows im).
Definition size (im : image) : Z * Z := (width im, height im).

Definition has_alpha_band (m : mode) : bool :=
  match m with LA | RGBA => true | _ => false end.

(** an image object fresh from an operation: no bolted-on attribute *)
Definition fresh (m : mode) (g : list (list pixel)) : image := Image m g None.

(** [im.convert("RGBA")] *)
Definition to_rgba (m : mode) (p : pixel) : pixel :=
  match m with
  | L => Px (pr p) (pr p) (pr p) 255
  | LA => Px (pr p) (pr p) (pr p) (pa p)
  | RGB => Px (pr p) (pg p) (pb p) 255
  | RGBA => p
  end.

Definition convert_RGBA (im : image) : image :=
  fresh RGBA (map (map (to_rgba (mode_of im))) (rows im)).

(** [im.convert("RGB")]: the colour bands, alpha dropped *)
Definition to_rgb (m : mode) (p : pixel) : pixel :=
  match m with
  | L | LA => Px (pr p) (pr p) (pr p) 255
  | RGB | RGBA => Px (pr p) (pg p) (pb p) 255
  end.

Definition convert_RGB (im : image) : image :=
  fresh RGB (map (map (to_rgb (mode_of im))) (rows im)).

(** [im.convert("L")] and [im.convert("LA")]: the luma of the colour bands *)
Definition luma (p : pixel) : Z :=
  Z.shiftr (pr p * 19595 + pg p * 38470 + pb p * 7471 + 32768) 16.

Definition to_la (m : mode) (p : pixel) : pixel :=
  match m with
  | L => Px (pr p) (pr p) (pr p) 255
  | LA => Px (pr p) (pr p) (pr p) (pa p)
  | RGB => Px (luma p) (luma p) (luma p) 255
  | RGBA => Px (luma p) (luma p) (luma p) (pa p)
  end.

Definition to_l (m : mode) (p : pixel) : pixel :=
  let q := to_la m p in Px (pr q) (pg q) (pb q) 255.

Definition convert (target : mode) (im : image) : image :=
  match target with
  | RGBA => convert_RGBA im
  | RGB => convert_RGB im
  | LA => fresh LA (map (map (to_la (mode_of im))) (rows im))
  | L => fresh L (map (map (to_l (mode_of im))) (rows im))
  end.

(** [im.split()[-1]]: the last band as an [L] image *)
Definition last_band (m : mode) (p : pixel) : Z :=
  match m with
  | L => pr p
  | RGB => pb p
  | LA | RGBA => pa p
  end.

Definition split_last (im : image) : image :=
  fresh L (map (map (fun p => let v := last_band (mode_of im) p in Px v v v 255))
               (rows im)).

(** the pixel test of [getbbox]: some band is non-zero; on a mode with
    alpha, the alpha band is.  The program asks for the box of [L] and
    [RGB] images only. *)
Definition nonzero (m : mode) (p : pixel) : bool :=
  match m with
  | L => negb (pr p =? 0)
  | RGB => negb ((pr p =? 0) && (pg p =? 0) && (pb p =? 0))
  | LA | RGBA => negb (pa p =? 0)
  end.

Definition getbbox (im : image) : option box :=
  Grid.getbbox (nonzero (mode_of im)) (rows im).

Definition zero_pixel : pixel := Px 0 0 0 0.

(** [im.crop(box)], for a box with [left <= right] and [upper <= lower] *)
Definition crop (b : box) (im : image) : image :=
  fresh (mode_of im) (Grid.crop zero_pixel b (rows im)).

(** [Image.new(mode, size, color)] *)
Definition new (m : mode) (sz : Z * Z) (color : pixel) : result image :=
  if (sz.1 <? 0) || (sz.2 <? 0) then Raise PillowSizeError
  else Ok (fresh m (Grid.tabulate sz.1 sz.2 (fun _ _ => color))).

(** [ImageChops.difference(a, b)]: band-wise absolute difference *)
Definition diff_pixel (p q : pixel) : pixel :=
  Px (Z.abs (pr p - pr q)) (Z.abs (pg p - pg q))
     (Z.abs (pb p - pb q)) (Z.abs (pa p - pa q)).

Definition difference (a b : image) : result image :=
  if mode_eqb (mode_of a) (mode_of b)
  then Ok (fresh (mode_of a) (zip_with (zip_with diff_pixel) (rows a) (rows b)))
  else Raise PillowSizeError.

(** the blend of [paste] under a mask byte: [out * (255 - m) + in * m],
    divided by 255 with rounding *)
Definition div255 (a : Z) : Z :=
  let t := a + 128 in Z.shiftr (Z.shiftr t 8 + t) 8.

Definition blend8 (m out inp : Z) : Z := div255 (out * (255 - m) + inp * m).

(** [bg.paste(im, mask=mask)] at the origin, for an [RGB] canvas, an [RGBA]
    image of the same size and an [L] mask: every byte is blended *)
Definition paste_masked (bg im mask : image) : image :=
  Image (mode_of bg)
    (zip_with (zip_with (fun o sm =>
        Px (blend8 (pr sm.2) (pr o) (pr sm.1))
           (blend8 (pr sm.2) (pg o) (pg sm.1))
           (blend8 (pr sm.2) (pb o) (pb sm.1))
           (blend8 (pr sm.2) (pa o) (pa sm.1))))
      (rows bg) (zip_with zip (rows im) (rows mask)))
    (temp_raster_path bg).

(** [canvas.paste(im, (x, y))]: an image of another mode is converted to
    the mode of the canvas first, except that an [RGB] canvas takes the
    bytes of an [LA] or [RGBA] image as they are *)
Definition paste_source (canvas_mode : mode) (im : image) : list (list pixel) :=
  if mode_eqb (mode_of im) canvas_mode then rows im
  else if mode_eqb canvas_mode RGB && has_alpha_band (mode_of im)
       then map (map (to_rgba (mode_of im))) (rows im)
       else rows (convert canvas_mode im).

Definition paste (canvas im : image) (x y : Z) : image :=
  Image (mode_of canvas)
        (Grid.paste (rows canvas) (paste_source (mode_of canvas) im) x y)
        (temp_raster_path canvas).

End Pillow.

(** The pixel values of a resampled image are not modelled: a [resampler]
    gives the pixel at [(x, y)] of the result for a source image and a
    target size.  Sizes and modes are. *)
Definition resampler : Type := image -> Z * Z -> Z -> Z -> pixel.

Module Resample.

(** [im.resize(size, Image.LANCZOS)] *)
Definition resize (lanczos : resampler) (im : image) (sz : Z * Z) : result image :=
  if (Pillow.width im =? sz.1) && (Pillow.height im =? sz.2)
  then Ok (Pillow.fresh (mode_of im) (rows im))
  else if (sz.1 <? 1) || (sz.2 <? 1) then Raise PillowSizeError
  else Ok (Pillow.fresh (mode_of im) (Grid.tabulate sz.1 sz.2 (lanczos im sz))).

(** [ImageOps.fit(im, size, method=Image.LANCZOS, centering=(0.5, 0.5))]:
    the aspect ratios [w / h] of image and target are computed first, then
    the centred region of the target's ratio is resized to the target *)
Definition fit (cover : resampler) (im : image) (sz : Z * Z) : result image :=
  if (Pillow.height im =? 0) || (sz.2 =? 0) then Raise ZeroDivisionError
  else if (sz.1 <? 1) || (sz.2 <? 1) then Raise PillowSizeError
  else Ok (Pillow.fresh (mode_of im) (Grid.tabulate sz.1 sz.2 (cover im sz))).

End Resample.

(** * Auto-crop helpers *)

(** a pixel of an RGBA image that is not fully transparent *)
Definition not_transparent (p : pixel) : bool := negb (pa p =? 0).

Definition white : pixel := Px 255 255 255 255.

Definition autocrop_white (im : image) (bg : pixel) : result image :=
  let im := if mode_eqb (mode_of im) RGB then im else Pillow.convert_RGB im in
  match Pillow.new RGB (Pillow.size im) bg with
  | Raise e => Raise e
  | Ok bg_img =>
      match Pillow.difference im bg_img with
      | Raise e => Raise e
      | Ok diff =>
          match Pillow.getbbox diff with
          | Some bbox => Ok (Pillow.crop bbox im)
          | None => Ok im
          end
      end
  end.

Definition autocrop_auto (im : image) : image :=
  let rgba := Pillow.convert_RGBA im in
  let alpha := Pillow.split_last rgba in
  match Pillow.getbbox alpha with
  | Some bbox => Pillow.crop bbox rgba
  | None =>
      match autocrop_white im white with
      | Ok cropped => cropped
      | Raise _ => im
      end
  end.

Definition flatten_alpha_to_bg (im : image) (bg_color : pixel) : result image :=
  if negb (mode_eqb (mode_of im) RGBA) then Ok im
  else
    match Pillow.new RGB (Pillow.size im) bg_color with
    | Raise e => Raise e
    | Ok bg => Ok (Pillow.paste_masked bg im (Pillow.split_last im))
    end.

(** * The outside world *)

(** What the program reads from its environment.  Each field stands for a
    library or operating-system call whose answer the program cannot
    compute; a failure of the call is the [None] or error answer. *)
Inductive proc_result : Type :=
  | Exit0
  | ExitNonZero (stderr : string).

Record system : Type := {
  isabs : string -> bool;                  (* os.path.isabs *)
  abspath : string -> string;              (* os.path.abspath *)
  script_path : string -> option string;   (* join(dirname(abspath(__file__)), p) *)
  which : string -> option string;         (* shutil.which *)
  environ : string -> option string;       (* os.environ.get *)
  temp_name : nat -> string;               (* names of NamedTemporaryFile *)
  run_process : list string -> proc_result;  (* subprocess.run(check=True) *)
  image_open : string -> option image;     (* Image.open *)
  raw_postprocess : string -> option image;  (* rawpy.imread, postprocess *)
  svg2png : string -> Z -> option image;   (* cairosvg.svg2png, Image.open *)
  exif_transpose : image -> option image;  (* ImageOps.exif_transpose *)
  lanczos : resampler;                     (* resize with Image.LANCZOS *)
  cover : resampler;                       (* ImageOps.fit *)
  can_save : image -> string -> bool       (* Image.save succeeds *)
}.

(** The files on disk, the number of temporary files made so far, and the
    images written by [Image.save] (latest first) with their dpi. *)
Record world : Type := World {
  disk : gset string;
  temp_count : nat;
  saved : list (string * image * Z)
}.

(** Computations that read and change the world and may raise. *)
Definition io (A : Type) : Type := world -> result A * world.

Module IO.

Definition ret {A} (a : A) : io A := fun w => (Ok a, w).
Definition raise {A} (e : exn) : io A := fun w => (Raise e, w).

Definition bind {A B} (c : io A) (k : A -> io B) : io B :=
  fun w => match c w with
           | (Ok a, w') => k a w'
           | (Raise e, w') => (Raise e, w')
           end.

Definition lift {A} (r : result A) : io A := fun w => (r, w).

(** [try: c  except Exception as e: h e] *)
Definition try_except {A} (c : io A) (h : exn -> io A) : io A :=
  fun w => match c w with
           | (Ok a, w') => (Ok a, w')
           | (Raise e, w') => h e w'
           end.

(** [try: c  finally: f]: [f] cannot raise here, every statement of the
    [finally] block of the program is wrapped in its own [try] *)
Definition try_finally {A} (c : io A) (f : io unit) : io A :=
  fun w => match c w with
           | (r, w') => (r, (f w').2)
           end.

Definition exists_ (p : string) : io bool :=
  fun w => (Ok (bool_decide (p ∈ disk w)), w).

(** [os.remove(p)] *)
Definition remove (p : string) : io unit :=
  fun w => if bool_decide (p ∈ disk w)
           then (Ok tt, World (disk w ∖ {[ p ]}) (temp_count w) (saved w))
           else (Raise (FileNotFound p), w).

(** [tempfile.NamedTemporaryFile(suffix=".png", delete=False)], closed:
    an empty file under a new name *)
Definition named_temporary_file (sys : system) : io string :=
  fun w => let name := temp_name sys (temp_count w) in
           (Ok name, World ({[ name ]} ∪ disk w) (S (temp_count w)) (saved w)).

(** [out.save(out_path, dpi=(dpi, dpi))] *)
Definition save (sys : system) (out : image) (out_path : string) (dpi : Z) : io unit :=
  fun w => if can_save sys out out_path
           then (Ok tt, World ({[ out_path ]} ∪ disk w) (temp_count w)
                              ((out_path, out, dpi) :: saved w))
           else (Raise (SaveFailed out_path), w).

End IO.

Notation "'let*' x ':=' c 'in' k" := (IO.bind c (fun x => k))
  (at level 10, x pattern, c at level 100, k at level 200).

(** truth value of a string or [None] *)
Definition truthy (o : option string) : bool :=
  match o with
  | Some s => negb (String.eqb s "")
  | None => false
  end.

(** * Path resolver *)

Definition resolve_path_on (sys : system) (files : gset string) (path : string) : string :=
  if isabs sys path && bool_decide (path ∈ files) then path
  else
    let cwd_candidate := abspath sys path in
    if bool_decide (cwd_candidate ∈ files) then cwd_candidate
    else
      match script_path sys path with
      | Some script_candidate =>
          if bool_decide (script_candidate ∈ files) then script_candidate
          else cwd_candidate
      | None => cwd_candidate
      end.

Definition resolve_path (sys : system) (path : string) : io string :=
  fun w => (Ok (resolve_path_on sys (disk w) path), w).

(** * Ghostscript helpers *)

Definition _find_gs_exe (sys : system) : option string :=
  List.find (fun name => truthy (which sys name)) ["gs"; "gswin64c"; "gswin32c"].

Definition gs_command (gs ext tmp_path path_abs : string) (dpi : Z) : list string :=
  [gs; "-dSAFER"; "-dBATCH"; "-dNOPAUSE"]
  ++ (if bool_decide (ext ∈ ({[ ".eps"; ".ps"; ".ai" ]} : gset string)) then ["-dEPSCrop"]
      else if String.eqb ext ".pdf" then ["-dUseCropBox"] else [])
  ++ ["-sDEVICE=pngalpha"; "-r" +:+ pretty dpi; "-sOutputFile=" +:+ tmp_path; path_abs].

(** the [try] block shared by both rasterizers: run the tool, open its
    output, remember the temporary file on the image *)
Definition run_and_open (sys : system) (cmd : list string) (tmp_path : string) : io image :=
  match run_process sys cmd with
  | ExitNonZero stderr => IO.raise (CalledProcessError stderr)
  | Exit0 =>
      match image_open sys tmp_path with
      | None => IO.raise (UnidentifiedImage tmp_path)
      | Some img => IO.ret (Image (mode_of img) (rows img) (Some tmp_path))
      end
  end.

Definition _rasterize_with_ghostscript (sys : system) (path : string) (dpi : Z) : io image :=
  match _find_gs_exe sys with
  | None => IO.raise GhostscriptNotFound
  | Some gs =>
      let* path_abs := resolve_path sys path in
      let* found := IO.exists_ path_abs in
      if negb found then IO.raise (FileNotFound path_abs)
      else
        let* tmp_path := IO.named_temporary_file sys in
        let ext := Str.lower (splitext_ext path_abs) in
        let cmd := gs_command gs ext tmp_path path_abs dpi in
        IO.try_except (run_and_open sys cmd tmp_path)
          (fun e =>
             match e with
             | CalledProcessError stderr =>
                 let* _ := IO.try_except (IO.remove tmp_path) (fun _ => IO.ret tt) in
                 IO.raise (GhostscriptFailed path_abs cmd (substring 0 2000 stderr))
             | _ => IO.raise e
             end)
  end.

(** * Inkscape SVG fallback *)

Definition inkscape_candidates : list string :=
  [ "C:\Program Files\Inkscape\bin\inkscape.exe";
    "C:\Program Files\Inkscape\inkscape.exe";
    "C:\Program Files (x86)\Inkscape\bin\inkscape.exe";
    "C:\Program Files (x86)\Inkscape\inkscape.exe" ].

Definition _find_inkscape_exe (sys : system) : io (option string) :=
  fun w =>
    let on_disk p := bool_decide (p ∈ disk w) in
    let found :=
      match environ sys "INKSCAPE_EXE" with
      | Some env =>
          if truthy (Some env) && on_disk env then Some env else None
      | None => None
      end in
    (Ok match found with
        | Some env => Some env
        | None =>
            if truthy (which sys "inkscape") then which sys "inkscape"
            else List.find on_disk inkscape_candidates
        end, w).

Definition inkscape_command (inkscape path_abs tmp_path : string) (dpi : Z) : list string :=
  [ inkscape; path_abs; "--export-type=png";
    "--export-dpi=" +:+ pretty dpi; "--export-filename=" +:+ tmp_path ].

Definition _rasterize_svg_with_inkscape (sys : system) (path : string) (dpi : Z) : io image :=
  let* exe := _find_inkscape_exe sys in
  match exe with
  | None => IO.raise InkscapeNotFound
  | Some inkscape =>
      let* path_abs := resolve_path sys path in
      let* found := IO.exists_ path_abs in
      if negb found then IO.raise (FileNotFound path_abs)
      else
        let* tmp_path := IO.named_temporary_file sys in
        let cmd := inkscape_command inkscape path_abs tmp_path dpi in
        IO.try_except (run_and_open sys cmd tmp_path)
          (fun e =>
             match e with
             | CalledProcessError stderr =>
                 let* _ := IO.try_except (IO.remove tmp_path) (fun _ => IO.ret tt) in
                 IO.raise (InkscapeFailed path_abs cmd (substring 0 2000 stderr))
             | _ => IO.raise e
             end)
  end.

(** * "Open almost any image" *)

(** [None] is the value the program returns for a skipped file. *)
Definition open_image_any (sys : system) (path : string) (raster_dpi : Z)
    (skip_gs_files skip_svg_files : bool) : io (option image) :=
  let* path_abs := resolve_path sys path in
  let* found := IO.exists_ path_abs in
  if negb found then IO.raise (FileNotFound path_abs)
  else
    let ext := Str.lower (splitext_ext path_abs) in
    (* 1) GS formats FIRST *)
    if bool_decide (ext ∈ PS_PDF_EXTS) then
      IO.try_except
        (let* im := _rasterize_with_ghostscript sys path_abs raster_dpi in IO.ret (Some im))
        (fun e => if skip_gs_files then IO.ret None else IO.raise e)
    else
      (* 2) Pillow raster *)
      match image_open sys path_abs with
      | Some im => IO.ret (Some im)
      | None =>
          (* 3) RAW fallback *)
          if bool_decide (ext ∈ RAW_EXTS) then
            match raw_postprocess sys path_abs with
            | Some im => IO.ret (Some im)
            | None => IO.raise (RawDecodeFailed path_abs)
            end
          (* 4) SVG fallback *)
          else if bool_decide (ext ∈ VECTOR_EXTS) then
            match svg2png sys path_abs raster_dpi with
            | Some im => IO.ret (Some im)
            | None =>
                IO.try_except
                  (let* im := _rasterize_svg_with_inkscape sys path_abs raster_dpi in
                   IO.ret (Some im))
                  (fun _ => if skip_svg_files then IO.ret None
                            else IO.raise (SvgRasterFailed path_abs))
            end
          else IO.raise (UnsupportedFormat path_abs)
      end.

(** * Resize to target paper size *)

Record success_record : Type := {
  rec_size_dict : string;
  rec_size_key : string;
  rec_dpi : Z;
  rec_mode : string;
  rec_landscape : string;
  rec_target_px : Z * Z;
  rec_output : string;
  rec_src_path : string
}.

(** the two shapes of the returned dictionary *)
Inductive record : Type :=
  | Success (info : success_record)
  | Error (error message src_path : string).

Definition size_dict_name (sizes_mm : size_dict) : string :=
  if is_same sizes_mm A_SIZES_MM then "A_SIZES_MM"
  else if is_same sizes_mm TWO_PER_THREE_SIZES_MM then "TWO_PER_THREE_SIZES_MM"
  else if is_same sizes_mm FOUR_PER_FIVE_SIZES_MM then "FOUR_PER_FIVE_SIZES_MM"
  else if is_same sizes_mm THREE_PER_FOUR_SIZES_MM then "THREE_PER_FOUR_SIZES_MM"
  else if is_same sizes_mm ELEVEN_X_FOURTEEN_SIZES_MM then "ELEVEN_X_FOURTEEN_SIZES_MM"
  else "CUSTOM".

Definition has_alpha (im : image) : bool :=
  match mode_of im with
  | RGBA | LA => true
  | _ => false            (* no "transparency" entry in [im.info] *)
  end.

(** the size of the scaled content in the ["fit"] branch *)
Definition fit_size (im_w im_h target_w target_h : Z) : result (Z * Z) :=
  if (im_w =? 0) || (im_h =? 0) then Raise ZeroDivisionError
  else
    let ratio := Float.min (Float.int_truediv target_w im_w)
                           (Float.int_truediv target_h im_h) in
    let new_w := Z.max 1 (Float.round_half_even (Float.mul (Float.of_int im_w) ratio)) in
    let new_h := Z.max 1 (Float.round_half_even (Float.mul (Float.of_int im_h) ratio)) in
    Ok (new_w, new_h).

Definition transparent_white : pixel := Px 255 255 255 0.

(** the ["fit"] branch: scaled copy, canvas, centred paste *)
Definition place_fit (sys : system) (im : image) (target_w target_h : Z)
    (bg_color : pixel) (out_path : string) : result image :=
  match fit_size (Pillow.width im) (Pillow.height im) target_w target_h with
  | Raise e => Raise e
  | Ok (new_w, new_h) =>
      match Resample.resize (lanczos sys) im (new_w, new_h) with
      | Raise e => Raise e
      | Ok im_copy =>
          match (if has_alpha im && Str.endswith (Str.lower out_path) ".png"
                 then Pillow.new RGBA (target_w, target_h) transparent_white
                 else Pillow.new RGB (target_w, target_h) bg_color) with
          | Raise e => Raise e
          | Ok out =>
              let x := (target_w - Pillow.width im_copy) `div` 2 in
              let y := (target_h - Pillow.height im_copy) `div` 2 in
              Ok (Pillow.paste out im_copy x y)
          end
      end
  end.

(** the three placement modes, then the conversion for formats without
    alpha *)
Definition compose (sys : system) (im : image) (mode : string) (target_w target_h : Z)
    (bg_color : pixel) (out_path : string) : result image :=
  match (if String.eqb mode "stretch"
         then Resample.resize (lanczos sys) im (target_w, target_h)
         else if String.eqb mode "fill"
         then Resample.fit (cover sys) im (target_w, target_h)
         else place_fit sys im target_w target_h bg_color out_path) with
  | Raise e => Raise e
  | Ok out =>
      if negb (Str.endswith (Str.lower out_path) ".png") && mode_eqb (mode_of out) RGBA
      then Ok (Pillow.convert_RGB out)
      else Ok out
  end.

(** the steps between decoding and composing *)
Definition preprocess (sys : system) (im : image) (autocrop flatten_alpha : bool)
    (bg_color : pixel) : result image :=
  (* EXIF orientation *)
  let im := match exif_transpose sys im with Some t => t | None => im end in
  (* Crop artboard whitespace *)
  let im := if autocrop then autocrop_auto im else im in
  (* Fix black/transparent artifacts *)
  if flatten_alpha then flatten_alpha_to_bg (Pillow.convert_RGBA im) bg_color
  else Ok im.

Definition error_record (sys : system) (src_path : string) : io record :=
  let* resolved := resolve_path sys src_path in
  let ext := Str.lower (splitext_ext resolved) in
  if bool_decide (ext ∈ PS_PDF_EXTS) then
    let* resolved := resolve_path sys src_path in
    IO.ret (Error "GS_REQUIRED"
      "EPS/AI/PDF needs Ghostscript. Install Ghostscript or convert to PNG/JPG first."
      resolved)
  else if bool_decide (ext ∈ VECTOR_EXTS) then
    let* resolved := resolve_path sys src_path in
    IO.ret (Error "SVG_TOOL_REQUIRED"
      "SVG needs Inkscape on Windows (recommended) or a working Cairo runtime."
      resolved)
  else
    let* resolved := resolve_path sys src_path in
    IO.ret (Error "UNREADABLE" "File could not be opened." resolved).

Definition resize_to_a_size (sys : system) (src_path out_path : string)
    (sizes_mm : size_dict) (size_key : string) (dpi : Z) (mode landscape : string)
    (bg_color : pixel) (skip_gs_files skip_svg_files autocrop flatten_alpha : bool)
    : io record :=
  let* target := IO.lift (paper_size_px size_key dpi landscape sizes_mm) in
  let '(target_w, target_h) := target in
  let* opened := open_image_any sys src_path dpi skip_gs_files skip_svg_files in
  match opened with
  | None => error_record sys src_path
  | Some im =>
      let temp_raster := temp_raster_path im in
      IO.try_finally
        (let* im := IO.lift (preprocess sys im autocrop flatten_alpha bg_color) in
         let* out := IO.lift (compose sys im mode target_w target_h bg_color out_path) in
         let* _ := IO.save sys out out_path dpi in
         let* resolved := resolve_path sys src_path in
         IO.ret (Success {|
           rec_size_dict := size_dict_name sizes_mm;
           rec_size_key := Str.upper size_key;
           rec_dpi := dpi;
           rec_mode := mode;
           rec_landscape := landscape;
           rec_target_px := (target_w, target_h);
           rec_output := out_path;
           rec_src_path := resolved |}))
        (if truthy temp_raster
         then IO.try_except (IO.remove (default "" temp_raster)) (fun _ => IO.ret tt)
         else IO.ret tt)
  end.

(** * Sample environments *)

(** A POSIX machine without Ghostscript, Inkscape, rawpy or cairosvg.  Two
    raster files decode: an opaque photo and a grey image with alpha. *)
Module Sample.

Definition black : pixel := Px 0 0 0 255.

Definition photo : image := Image RGB [[black; white]] None.

Definition grey_alpha : image :=
  Image LA [[Px 10 10 10 255; Px 200 200 200 0]] None.

(** a white page with one black pixel in the middle *)
Definition framed : image :=
  Image RGB
    [ [white; white; white];
      [white; black; white];
      [white; white; white] ] None.

(** an opaque pixel inside a fully transparent border *)
Definition sticker : image :=
  Image RGBA
    [ [transparent_white; transparent_white; transparent_white];
      [transparent_white; Px 200 30 30 255; transparent_white];
      [transparent_white; transparent_white; transparent_white] ] None.

(** a fully transparent image *)
Definition ghost : image :=
  Image RGBA [[Px 0 0 0 0; transparent_white]] None.

(** nearest-neighbour sampling stands in for the resampling filters *)
Definition nearest : resampler :=
  fun im sz x y =>
    default Pillow.zero_pixel
      (Grid.pixel_at (rows im) (x * Pillow.width im `div` sz.1)
                               (y * Pillow.height im `div` sz.2)).

Definition bare : system := {|
  isabs := fun p => String.prefix "/" p;
  abspath := fun p => if String.prefix "/" p then p else "/work/" +:+ p;
  script_path := fun p => Some ("/opt/resize_pic_py/" +:+ p);
  which := fun _ => None;
  environ := fun _ => None;
  temp_name := fun n => "/tmp/tmp" +:+ pretty n +:+ ".png";
  run_process := fun _ => ExitNonZero "";
  image_open := fun p =>
    if String.eqb p "/work/photo.jpg" then Some photo
    else if String.eqb p "/work/grey.png" then Some grey_alpha
    else None;
  raw_postprocess := fun _ => None;
  svg2png := fun _ _ => None;
  exif_transpose := fun im => Some (Pillow.fresh (mode_of im) (rows im));
  lanczos := nearest;
  cover := nearest;
  can_save := fun _ _ => true
|}.

(** the same machine with Ghostscript installed; it exits with status 0
    on every input and leaves its output file empty, as it does for a
    PostScript program that paints no page *)
Definition with_gs : system := {|
  isabs := isabs bare;
  abspath := abspath bare;
  script_path := script_path bare;
  which := fun name => if String.eqb name "gs" then Some "/usr/bin/gs" else None;
  environ := environ bare;
  temp_name := temp_name bare;
  run_process := fun _ => Exit0;
  image_open := image_open bare;
  raw_postprocess := raw_postprocess bare;
  svg2png := svg2png bare;
  exif_transpose := exif_transpose bare;
  lanczos := lanczos bare;
  cover := cover bare;
  can_save := can_save bare
|}.

Definition files : gset string :=
  {[ "/work/photo.jpg"; "/work/grey.png"; "/work/doc.pdf"; "/work/blank.ps";
     "/work/shot.cr2" ]}.

Definition start : world := World files 0 [].

(** a dictionary with the items of [A_SIZES_MM] that is another object *)
Definition copy_of_A : size_dict := {| dict_id := 6; items := items A_SIZES_MM |}.

End Sample.

(** * Sample runs *)

(** the run of the witness: the copy of the A series, on the sample photo *)
Definition custom_run : result record * world :=
  resize_to_a_size Sample.bare "photo.jpg" "/work/out.png" Sample.copy_of_A "a4" 3
      "fit" "vertical" white true true true true Sample.start.

Definition custom_info : success_record := {|
  rec_size_dict := "CUSTOM";
  rec_size_key := "A4";
  rec_dpi := 3;
  rec_mode := "fit";
  rec_landscape := "vertical";
  rec_target_px := (25, 35);
  rec_output := "/work/out.png";
  rec_src_path := "/work/photo.jpg"
|}.

(** the run on a PostScript file for which Ghostscript exits with status 0
    and writes no page, skip flag set *)
Definition blank_page_run : result record * world :=
  resize_to_a_size Sample.with_gs "blank.ps" "/work/out.png" A_SIZES_MM "A4" 300
      "fit" "vertical" white true true true true Sample.start.

(** the same run with the skip flag unset *)
Definition blank_page_run_noskip : result record * world :=
  resize_to_a_size Sample.with_gs "blank.ps" "/work/out.png" A_SIZES_MM "A4" 300
      "fit" "vertical" white false true true true Sample.start.

(** the run on a grey image with alpha, neither cropped nor flattened,
    stretched into a TIFF file *)
Definition grey_run : result record * world :=
  resize_to_a_size Sample.bare "grey.png" "/work/out.tif" A_SIZES_MM "A4" 1
      "stretch" "vertical" white true true false false Sample.start.

Definition grey_run_fill : result record * world :=
  resize_to_a_size Sample.bare "grey.png" "/work/out.tif" A_SIZES_MM "A4" 1
      "fill" "vertical" white true true false false Sample.start.

(** * Vocabulary of the statements *)

(** the five catalogs of the module *)
Definition catalogs : list size_dict :=
  [A_SIZES_MM; TWO_PER_THREE_SIZES_MM; FOUR_PER_FIVE_SIZES_MM;
   THREE_PER_FOUR_SIZES_MM; ELEVEN_X_FOURTEEN_SIZES_MM].

(** the candidates of [resolve_path], in the order they are tried *)
Definition resolve_candidates (sys : system) (path : string) : list string :=
  (if isabs sys path then [path] else [])
  ++ [abspath sys path]
  ++ match script_path sys path with Some s => [s] | None => [] end.


(** the extension that [open_image_any] classifies *)
Definition source_ext (sys : system) (w : world) (path : string) : string :=
  Str.lower (splitext_ext (resolve_path_on sys (disk w) path)).

(** the [except subprocess.CalledProcessError] clause of the rasterizers,
    [fail] being the error of the tool at hand *)
Definition on_process_error (tmp_path : string) (fail : string -> exn) (e : exn) : io image :=
  match e with
  | CalledProcessError stderr =>
      let* _ := IO.try_except (IO.remove tmp_path) (fun _ => IO.ret tt) in
      IO.raise (fail (substring 0 2000 stderr))
  | _ => IO.raise e
  end.

(** What a call may change besides its result: it writes no image, makes at
    most one temporary file, and leaves every other path as it was. *)
Definition touches_only_temp (sys : system) (w w1 : world) : Prop :=
  saved w1 = saved w
  /\ (temp_count w <= temp_count w1 <= S (temp_count w))%nat
  /\ forall p, p <> temp_name sys (temp_count w) -> p ∈ disk w1 <-> p ∈ disk w.

(** [Image.open], rawpy and cairosvg answer with plain image objects: the
    attribute [_temp_raster_path] is set by the rasterizers of this module
    only *)
Definition plain_decoders (sys : system) : Prop :=
  (forall p im, image_open sys p = Some im -> temp_raster_path im = None)
  /\ (forall p im, raw_postprocess sys p = Some im -> temp_raster_path im = None)
  /\ (forall p dpi im, svg2png sys p dpi = Some im -> temp_raster_path im = None).

(** the world after the [finally] block of [resize_to_a_size] *)
Definition after_cleanup (temp_raster : option string) (w : world) : world :=
  if truthy temp_raster
  then World (disk w ∖ {[ default "" temp_raster ]}) (temp_count w) (saved w)
  else w.


(** the colour bands of a pixel *)
Definition colour (p : pixel) : Z * Z * Z := (pr p, pg p, pb p).

(** every band of the pixel is a byte *)
Definition byte_pixel (p : pixel) : Prop :=
  0 <= pr p <= 255 /\ 0 <= pg p <= 255 /\ 0 <= pb p <= 255 /\ 0 <= pa p <= 255.

(** [c] lies between [a] and [b] *)
Definition between (a b c : Z) : Prop := Z.min a b <= c <= Z.max a b.

(** [b] is the smallest box around the coordinates that satisfy [hit]:
    it holds them all and each of its four edges holds one *)
Definition tight_box (hit : Z -> Z -> Prop) (b : box) : Prop :=
  let '(l, u, r, d) := b in
  (forall x y, hit x y -> l <= x < r /\ u <= y < d)
  /\ (exists y, hit l y) /\ (exists y, hit (r - 1) y)
  /\ (exists x, hit x u) /\ (exists x, hit x (d - 1)).

(** [out] holds the pixels of [src] inside the box [b], which lies within
    a frame of [w] by [h] pixels *)
Definition cut_out (b : box) (w h : Z) (src out : list (list pixel)) : Prop :=
  let '(l, u, r, d) := b in
  0 <= l < r /\ r <= w /\ 0 <= u < d /\ d <= h
  /\ Grid.has_shape (r - l) (d - u) out
  /\ forall x y, 0 <= x < r - l -> 0 <= y < d - u ->
       Grid.pixel_at out x y = Grid.pixel_at src (l + x) (u + y).

(** * More sample environments *)

(** A POSIX machine with Ghostscript and Inkscape on the PATH and no
    cairosvg.  Both tools reject the files named "broken" and render the
    others; the rendered page decodes as the sample sticker. *)
Module Studio.

Definition posix : system := {|
  isabs := fun p => String.prefix "/" p;
  abspath := fun p => if String.prefix "/" p then p else "/work/" +:+ p;
  script_path := fun p =>
    Some (if String.prefix "/" p then p else "/opt/resize_pic_py/" +:+ p);
  which := fun name =>
    if String.eqb name "gs" then Some "/usr/bin/gs"
    else if String.eqb name "inkscape" then Some "/usr/bin/inkscape"
    else None;
  environ := fun _ => None;
  temp_name := fun n => "/tmp/tmp" +:+ pretty n +:+ ".png";
  run_process := fun cmd =>
    if bool_decide ("/work/broken.eps" ∈ cmd) || bool_decide ("/work/broken.svg" ∈ cmd)
    then ExitNonZero "Error: /undefined in --run--"
    else Exit0;
  image_open := fun p =>
    if String.eqb p "/tmp/tmp0.png" then Some Sample.sticker
    else if String.eqb p "/work/photo.jpg" then Some Sample.photo
    else None;
  raw_postprocess := fun _ => None;
  svg2png := fun _ _ => None;
  exif_transpose := fun _ => None;
  lanczos := Sample.nearest;
  cover := Sample.nearest;
  can_save := fun _ _ => true
|}.

Definition files : gset string :=
  {[ "/work/photo.jpg"; "/work/logo.eps"; "/work/broken.eps"; "/work/art.svg";
     "/work/broken.svg"; "/work/notes.txt"; "/opt/resize_pic_py/bundled.png" ]}.

Definition start : world := World files 0 [].

(** a dictionary whose only key is written in lower case *)
Definition lower_keys : size_dict := {| dict_id := 7; items := {[ "a4" := (210, 297) ]} |}.

End Studio.

(** * Proof automation *)

(** membership in a list given by its elements *)
Ltac in_list :=
  repeat first [apply list_elem_of_here | apply list_elem_of_further].

(** one case per element of a list given by its elements *)
Ltac case_elem H :=
  repeat (apply elem_of_cons in H as [H|H]); [..|by apply elem_of_nil in H].

Ltac case_candidates H :=
  repeat (apply elem_of_cons in H as [->|H]); try done; try (by apply elem_of_nil in H).

(** a string that is none of the elements of a list of strings *)
Ltac not_in_list :=
  let H := fresh in
  intros H; vm_compute in H;
  repeat (apply elem_of_cons in H as [H|H]; [discriminate H|]);
  by apply elem_of_nil in H.

(** * Theorems *)

(** ** Size catalog *)

(** C2: key "A4" of the A series at 300 dpi, vertical, resolves to
    (2480, 3508): the rounded values of 210 / 25.4 * 300 and
    297 / 25.4 * 300, in binary64 arithmetic and in exact arithmetic
    alike. *)
Theorem paper_size_px_A4_300_vertical :
  paper_size_px "A4" 300 "vertical" A_SIZES_MM = Ok (2480, 3508)
  /\ mm_to_px 210 300 = 2480
  /\ mm_to_px 297 300 = 3508
  /\ Float.round_half_even (210 / (254 # 10) * 300)%Q = 2480
  /\ Float.round_half_even (297 / (254 # 10) * 300)%Q = 3508.
Proof. repeat split; vm_compute; reflexivity. Qed.

Lemma paper_size_px_lookup size_key dpi landscape sizes_mm w_mm h_mm :
  items sizes_mm !! Str.upper size_key = Some (w_mm, h_mm) ->
  paper_size_px size_key dpi landscape sizes_mm =
    if bool_decide (Str.lower landscape ∈ orientation_synonyms)
    then Ok (mm_to_px h_mm dpi, mm_to_px w_mm dpi)
    else Ok (mm_to_px w_mm dpi, mm_to_px h_mm dpi).
Proof.
  intros Hkey. unfold paper_size_px. rewrite Hkey.
  destruct (bool_decide _); reflexivity.
Qed.

(** C7, as amended: the pair is swapped exactly when the lowercased
    orientation string is one of "horizontal", "landscape", "h". *)
Theorem paper_size_px_orientation size_key dpi landscape sizes_mm w_mm h_mm :
  items sizes_mm !! Str.upper size_key = Some (w_mm, h_mm) ->
  (Str.lower landscape ∈ orientation_synonyms ->
     paper_size_px size_key dpi landscape sizes_mm
       = Ok (mm_to_px h_mm dpi, mm_to_px w_mm dpi))
  /\ (Str.lower landscape ∉ orientation_synonyms ->
     paper_size_px size_key dpi landscape sizes_mm
       = Ok (mm_to_px w_mm dpi, mm_to_px h_mm dpi)).
Proof.
  intros Hkey. rewrite (paper_size_px_lookup _ _ _ _ _ _ Hkey).
  split; intros H.
  - rewrite bool_decide_eq_true_2; auto.
  - rewrite bool_decide_eq_false_2; auto.
Qed.

Lemma paper_size_px_orientation_witness :
  items A_SIZES_MM !! Str.upper "a4" = Some (210, 297)
  /\ Str.lower "LANDSCAPE" ∈ orientation_synonyms
  /\ paper_size_px "a4" 300 "LANDSCAPE" A_SIZES_MM = Ok (3508, 2480).
Proof.
  split; [reflexivity|]. split; [vm_compute; set_solver|].
  change (paper_size_px "a4" 300 "LANDSCAPE" A_SIZES_MM
          = Ok (mm_to_px 297 300, mm_to_px 210 300)).
  apply (paper_size_px_orientation "a4" 300 "LANDSCAPE" A_SIZES_MM 210 297).
  - reflexivity.
  - vm_compute; set_solver.
Defined.

(** C7, as stated, fails: "H" is not a member of the synonym set, yet the
    pair of A4 at 300 dpi comes back swapped. *)
Lemma orientation_upper_case_swaps :
  ("H" ∉ orientation_synonyms)
  /\ paper_size_px "A4" 300 "vertical" A_SIZES_MM = Ok (2480, 3508)
  /\ paper_size_px "A4" 300 "H" A_SIZES_MM = Ok (3508, 2480).
Proof.
  split.
  - unfold orientation_synonyms. intros H.
    repeat (apply elem_of_cons in H as [H|H]; [discriminate H|]).
    by apply elem_of_nil in H.
  - split; vm_compute; reflexivity.
Qed.

Example paper_size_px_A4_landscape :
  paper_size_px "a4" 300 "Landscape" A_SIZES_MM = Ok (3508, 2480).
Proof. vm_compute. reflexivity. Qed.

Example splitext_samples :
  map splitext_ext ["/a/b.c/file.PDF"; "/a/.bashrc"; "x.tar.gz"; "/a.b/c"; "..x"]
  = [".PDF"; ""; ".gz"; ""; ""].
Proof. vm_compute. reflexivity. Qed.

(** ** Grids *)

Module GridFacts.
Section GridFacts.
Context {A : Type}.
Implicit Types (g : list (list A)) (nz : A -> bool).

Lemma pixel_at_Some g x y p :
  Grid.pixel_at g x y = Some p <->
  0 <= x /\ 0 <= y /\
  exists row, g !! Z.to_nat y = Some row /\ row !! Z.to_nat x = Some p.
Proof.
  unfold Grid.pixel_at.
  destruct (Z.leb_spec 0 x), (Z.leb_spec 0 y); cbn [andb];
    try (split; [discriminate | intros (? & ? & _); lia]).
  destruct (g !! Z.to_nat y) as [row|]; cbn.
  - split; [intros H1; repeat split; eauto | intros (_ & _ & r & [= <-] & H1); done].
  - split; [discriminate | intros (_ & _ & r & [=] & _)].
Qed.

Lemma pixel_at_tabulate w h (f : Z -> Z -> A) x y :
  0 <= x < w -> 0 <= y < h ->
  Grid.pixel_at (Grid.tabulate w h f) x y = Some (f x y).
Proof.
  intros Hx Hy. apply pixel_at_Some. repeat split; [lia..|].
  exists ((fun x => f x y) <$> seqZ 0 w). unfold Grid.tabulate. split.
  - rewrite list_lookup_fmap, lookup_seqZ_lt by lia. cbn.
    replace (Z.of_nat (Z.to_nat y)) with y by lia. done.
  - rewrite list_lookup_fmap, lookup_seqZ_lt by lia. cbn.
    replace (Z.of_nat (Z.to_nat x)) with x by lia. done.
Qed.

Lemma pixel_at_tabulate_inv w h (f : Z -> Z -> A) x y p :
  Grid.pixel_at (Grid.tabulate w h f) x y = Some p ->
  0 <= x < w /\ 0 <= y < h /\ p = f x y.
Proof.
  intros (Hx & Hy & row & Hrow & Hp)%pixel_at_Some. unfold Grid.tabulate in Hrow.
  rewrite list_lookup_fmap in Hrow.
  destruct (seqZ 0 h !! Z.to_nat y) as [y'|] eqn:Hy'; [|discriminate].
  apply lookup_seqZ in Hy' as [-> Hy']. injection Hrow as <-.
  rewrite list_lookup_fmap in Hp.
  destruct (seqZ 0 w !! Z.to_nat x) as [x'|] eqn:Hx'; [|discriminate].
  apply lookup_seqZ in Hx' as [-> Hx']. injection Hp as <-.
  repeat split; try lia. f_equal; lia.
Qed.

Lemma height_tabulate w h (f : Z -> Z -> A) :
  Grid.height (Grid.tabulate w h f) = Z.max 0 h.
Proof. unfold Grid.height, Grid.tabulate. rewrite length_fmap, length_seqZ. lia. Qed.

Lemma width_tabulate w h (f : Z -> Z -> A) :
  0 < h -> Grid.width (Grid.tabulate w h f) = Z.max 0 w.
Proof.
  intros Hh. unfold Grid.width, Grid.tabulate.
  rewrite (seqZ_cons 0 h) by lia. cbn. rewrite length_fmap, length_seqZ. lia.
Qed.


Lemma elem_of_coords w h x y :
  (x, y) ∈ Grid.coords w h <-> 0 <= x < w /\ 0 <= y < h.
Proof.
  unfold Grid.coords. rewrite list_elem_of_bind. split.
  - intros (y' & Hin & Hy'). apply list_elem_of_bind in Hin as (x' & Hin & Hx').
    apply list_elem_of_singleton in Hin as [= -> ->].
    apply elem_of_seqZ in Hx', Hy'. lia.
  - intros [Hx Hy]. exists y. split; [|apply elem_of_seqZ; lia].
    apply list_elem_of_bind. exists x. split; [apply list_elem_of_here|].
    apply elem_of_seqZ; lia.
Qed.

Lemma pixel_at_height g x y p :
  Grid.pixel_at g x y = Some p -> 0 <= x /\ 0 <= y < Grid.height g.
Proof.
  intros (Hx & Hy & row & Hrow & _)%pixel_at_Some.
  apply lookup_lt_Some in Hrow. unfold Grid.height. lia.
Qed.

Lemma elem_of_hits nz g x y :
  (x, y) ∈ Grid.hits nz g <->
  x < Grid.width g /\ exists p, Grid.pixel_at g x y = Some p /\ nz p = true.
Proof.
  unfold Grid.hits. rewrite list_elem_of_filter, elem_of_coords. cbn [fst snd].
  split.
  - intros [Hnz [Hx Hy]]. split; [lia|].
    destruct (Grid.pixel_at g x y) as [p|]; [eauto | discriminate].
  - intros [Hx (p & Hp & Hnz)]. rewrite Hp. split; [exact Hnz|].
    apply pixel_at_height in Hp. lia.
Qed.

Lemma foldr_min_elem x0 (l : list Z) : foldr Z.min x0 l ∈ x0 :: l.
Proof.
  induction l as [|x l IH]; cbn; [apply list_elem_of_here|].
  destruct (Z.min_spec x (foldr Z.min x0 l)) as [[_ ->]|[_ ->]].
  - apply list_elem_of_further, list_elem_of_here.
  - apply elem_of_cons in IH as [->|IH]; [apply list_elem_of_here|].
    by do 2 apply list_elem_of_further.
Qed.

Lemma foldr_min_le x0 (l : list Z) x : x ∈ x0 :: l -> foldr Z.min x0 l <= x.
Proof.
  induction l as [|x1 l IH]; cbn.
  - intros ->%list_elem_of_singleton. lia.
  - rewrite !elem_of_cons. intros [->|[->|Hin]].
    + specialize (IH (list_elem_of_here _ _)). lia.
    + lia.
    + specialize (IH (list_elem_of_further _ _ _ Hin)). lia.
Qed.

Lemma foldr_max_elem x0 (l : list Z) : foldr Z.max x0 l ∈ x0 :: l.
Proof.
  induction l as [|x l IH]; cbn; [apply list_elem_of_here|].
  destruct (Z.max_spec x (foldr Z.max x0 l)) as [[_ ->]|[_ ->]].
  - apply elem_of_cons in IH as [->|IH]; [apply list_elem_of_here|].
    by do 2 apply list_elem_of_further.
  - apply list_elem_of_further, list_elem_of_here.
Qed.

Lemma foldr_max_ge x0 (l : list Z) x : x ∈ x0 :: l -> x <= foldr Z.max x0 l.
Proof.
  induction l as [|x1 l IH]; cbn.
  - intros ->%list_elem_of_singleton. lia.
  - rewrite !elem_of_cons. intros [->|[->|Hin]].
    + specialize (IH (list_elem_of_here _ _)). lia.
    + lia.
    + specialize (IH (list_elem_of_further _ _ _ Hin)). lia.
Qed.

Lemma elem_of_fst (H : list (Z * Z)) x : x ∈ H.*1 <-> exists y, (x, y) ∈ H.
Proof.
  rewrite list_elem_of_fmap. split.
  - intros ([x' y] & -> & Hin). eauto.
  - intros [y Hin]. by exists (x, y).
Qed.

Lemma elem_of_snd (H : list (Z * Z)) y : y ∈ H.*2 <-> exists x, (x, y) ∈ H.
Proof.
  rewrite list_elem_of_fmap. split.
  - intros ([x y'] & -> & Hin). eauto.
  - intros [x Hin]. by exists (x, y).
Qed.

Lemma getbbox_is_bbox nz g b :
  Grid.getbbox nz g = Some b -> Grid.is_bbox (Grid.hits nz g) b.
Proof.
  unfold Grid.getbbox. destruct (Grid.hits nz g) as [|[x0 y0] rest]; [discriminate|].
  intros [= <-]. set (H := (x0, y0) :: rest).
  change (x0 :: rest.*1) with H.*1 in *.
  pose proof (foldr_min_elem x0 rest.*1) as Hl.
  pose proof (foldr_min_elem y0 rest.*2) as Hu.
  pose proof (foldr_max_elem x0 rest.*1) as Hr.
  pose proof (foldr_max_elem y0 rest.*2) as Hd.
  change (x0 :: rest.*1) with H.*1 in *. change (y0 :: rest.*2) with H.*2 in *.
  apply elem_of_fst in Hl, Hr. apply elem_of_snd in Hu, Hd.
  unfold Grid.is_bbox. replace (foldr Z.max x0 rest.*1 + 1 - 1) with (foldr Z.max x0 rest.*1) by lia.
  replace (foldr Z.max y0 rest.*2 + 1 - 1) with (foldr Z.max y0 rest.*2) by lia.
  repeat split; try assumption.
  - apply foldr_min_le. change (x ∈ H.*1). apply elem_of_fst; eauto.
  - apply Z.lt_succ_r, foldr_max_ge. change (x ∈ H.*1). apply elem_of_fst; eauto.
  - apply foldr_min_le. change (y ∈ H.*2). apply elem_of_snd; eauto.
  - apply Z.lt_succ_r, foldr_max_ge. change (y ∈ H.*2). apply elem_of_snd; eauto.
Qed.

Lemma is_bbox_unique H b b' : Grid.is_bbox H b -> Grid.is_bbox H b' -> b = b'.
Proof.
  destruct b as [[[l u] r] d], b' as [[[l' u'] r'] d'].
  intros (Hin & [y1 H1] & [y2 H2] & [x3 H3] & [x4 H4])
         (Hin' & [y1' H1'] & [y2' H2'] & [x3' H3'] & [x4' H4']).
  pose proof (Hin _ _ H1'). pose proof (Hin _ _ H2').
  pose proof (Hin _ _ H3'). pose proof (Hin _ _ H4').
  pose proof (Hin' _ _ H1). pose proof (Hin' _ _ H2).
  pose proof (Hin' _ _ H3). pose proof (Hin' _ _ H4).
  repeat f_equal; lia.
Qed.

Lemma getbbox_of_is_bbox nz g b :
  Grid.is_bbox (Grid.hits nz g) b -> Grid.getbbox nz g = Some b.
Proof.
  intros Hb. destruct (Grid.getbbox nz g) as [b'|] eqn:E.
  - f_equal. eapply is_bbox_unique; [|exact Hb]. by apply getbbox_is_bbox.
  - unfold Grid.getbbox in E. destruct (Grid.hits nz g) as [|[??] ?]; [|discriminate].
    destruct b as [[[l u] r] d]. destruct Hb as (_ & [y Hy] & _).
    by apply elem_of_nil in Hy.
Qed.

Lemma getbbox_None nz g :
  Grid.getbbox nz g = None <-> Grid.hits nz g = [].
Proof.
  unfold Grid.getbbox. destruct (Grid.hits nz g) as [|[??] ?]; split; done.
Qed.


Lemma has_shape_tabulate w h (f : Z -> Z -> A) :
  Grid.has_shape w h (Grid.tabulate w h f).
Proof.
  unfold Grid.has_shape, Grid.tabulate. split.
  - by rewrite length_fmap, length_seqZ.
  - apply Forall_fmap, Forall_forall. intros y _. cbn.
    by rewrite length_fmap, length_seqZ.
Qed.

Lemma has_shape_width w h g : Grid.has_shape w h g -> 0 < h -> 0 <= w -> Grid.width g = w.
Proof.
  intros [Hlen Hrows] Hh Hw. destruct g as [|row g]; cbn in *; [lia|].
  apply Forall_cons in Hrows as [-> _]. lia.
Qed.

Lemma has_shape_height w h g : Grid.has_shape w h g -> 0 <= h -> Grid.height g = h.
Proof. intros [Hlen _] Hh. unfold Grid.height. lia. Qed.

Lemma rectangular_has_shape g :
  Grid.rectangular g = true -> Grid.has_shape (Grid.width g) (Grid.height g) g.
Proof.
  unfold Grid.rectangular, Grid.has_shape, Grid.height. intros H. split; [lia|].
  apply Forall_forall. intros row Hrow.
  rewrite forallb_forall in H. apply list_elem_of_In, H in Hrow. lia.
Qed.

Lemma has_shape_pixel_at w h g x y :
  Grid.has_shape w h g -> 0 <= x < w -> 0 <= y < h -> is_Some (Grid.pixel_at g x y).
Proof.
  intros [Hlen Hrows] Hx Hy.
  destruct (lookup_lt_is_Some_2 g (Z.to_nat y)) as [row Hrow]; [lia|].
  pose proof (proj1 (Forall_lookup _ _) Hrows _ _ Hrow) as Hw. cbn in Hw.
  destruct (lookup_lt_is_Some_2 row (Z.to_nat x)) as [p Hp]; [lia|].
  exists p. apply pixel_at_Some. repeat split; [lia..|eauto].
Qed.

Lemma pixel_at_crop fill l u r d g x y :
  0 <= x < r - l -> 0 <= y < d - u ->
  Grid.pixel_at (Grid.crop fill (l, u, r, d) g) x y
    = Some (default fill (Grid.pixel_at g (l + x) (u + y))).
Proof. intros. unfold Grid.crop. by rewrite pixel_at_tabulate. Qed.

Lemma has_shape_crop fill l u r d g :
  Grid.has_shape (r - l) (d - u) (Grid.crop fill (l, u, r, d) g).
Proof. apply has_shape_tabulate. Qed.

(** cropping to the full frame changes nothing *)
Lemma crop_full fill w h g :
  Grid.has_shape w h g -> Grid.crop fill (0, 0, w, h) g = g.
Proof.
  intros [Hlen Hrows]. unfold Grid.crop, Grid.tabulate. rewrite !Z.sub_0_r.
  apply list_eq. intros j. rewrite list_lookup_fmap.
  destruct (g !! j) as [row|] eqn:Hrow.
  - pose proof (lookup_lt_Some _ _ _ Hrow) as Hj.
    rewrite lookup_seqZ_lt by lia. cbn. f_equal.
    pose proof (proj1 (Forall_lookup _ _) Hrows _ _ Hrow) as Hw. cbn in Hw.
    apply list_eq. intros i. rewrite list_lookup_fmap.
    destruct (row !! i) as [p|] eqn:Hp.
    + pose proof (lookup_lt_Some _ _ _ Hp) as Hi.
      rewrite lookup_seqZ_lt by lia. cbn.
      replace (Grid.pixel_at g _ _) with (Some p); [done|].
      symmetry. apply pixel_at_Some. repeat split; [lia..|].
      exists row. by rewrite !Z.add_0_l, !Nat2Z.id.
    + apply lookup_ge_None in Hp. rewrite lookup_seqZ_ge by lia. done.
  - apply lookup_ge_None in Hrow. rewrite lookup_seqZ_ge by lia. done.
Qed.

Lemma elem_of_hits_crop nz fill l u r d g x y :
  nz fill = false -> r <= Grid.width g ->
  (x, y) ∈ Grid.hits nz (Grid.crop fill (l, u, r, d) g) <->
  0 <= x < r - l /\ 0 <= y < d - u /\ (l + x, u + y) ∈ Grid.hits nz g.
Proof.
  intros Hfill Hr. rewrite !elem_of_hits. split.
  - intros [_ (p & Hp & Hnz)]. unfold Grid.crop in Hp.
    apply pixel_at_tabulate_inv in Hp as (Hx & Hy & ->).
    repeat split; [lia..|].
    destruct (Grid.pixel_at g (l + x) (u + y)) as [p|]; cbn in Hnz; [eauto|congruence].
  - intros (Hx & Hy & Hw & p & Hp & Hnz). split.
    + pose proof (has_shape_crop fill l u r d g) as Hs.
      rewrite (has_shape_width _ _ _ Hs); lia.
    + exists p. rewrite pixel_at_crop, Hp by lia. done.
Qed.

(** the box found on a cropped grid is its full frame *)
Lemma getbbox_crop nz fill g l u r d :
  nz fill = false ->
  Grid.getbbox nz g = Some (l, u, r, d) ->
  Grid.getbbox nz (Grid.crop fill (l, u, r, d) g) = Some (0, 0, r - l, d - u).
Proof.
  intros Hfill (Hin & [y1 H1] & [y2 H2] & [x3 H3] & [x4 H4])%getbbox_is_bbox.
  assert (r <= Grid.width g) as Hr.
  { apply elem_of_hits in H2 as [H2 _]. lia. }
  pose proof (Hin _ _ H1). pose proof (Hin _ _ H2).
  pose proof (Hin _ _ H3). pose proof (Hin _ _ H4).
  apply getbbox_of_is_bbox. unfold Grid.is_bbox. split; [|repeat split].
  - intros x y Hxy%(elem_of_hits_crop _ _ _ _ _ _ _ _ _ Hfill Hr). lia.
  - exists (y1 - u). apply (elem_of_hits_crop _ _ _ _ _ _ _ _ _ Hfill Hr).
    repeat split; [lia..|]. by replace (l + 0) with l by lia; replace (u + (y1 - u)) with y1 by lia.
  - exists (y2 - u). apply (elem_of_hits_crop _ _ _ _ _ _ _ _ _ Hfill Hr).
    repeat split; [lia..|]. by replace (l + (r - l - 1)) with (r - 1) by lia; replace (u + (y2 - u)) with y2 by lia.
  - exists (x3 - l). apply (elem_of_hits_crop _ _ _ _ _ _ _ _ _ Hfill Hr).
    repeat split; [lia..|]. by replace (l + (x3 - l)) with x3 by lia; replace (u + 0) with u by lia.
  - exists (x4 - l). apply (elem_of_hits_crop _ _ _ _ _ _ _ _ _ Hfill Hr).
    repeat split; [lia..|]. by replace (l + (x4 - l)) with x4 by lia; replace (u + (d - u - 1)) with (d - 1) by lia.
Qed.

Lemma getbbox_bounds nz g l u r d :
  Grid.getbbox nz g = Some (l, u, r, d) ->
  0 <= l < r /\ r <= Grid.width g /\ 0 <= u < d /\ d <= Grid.height g.
Proof.
  intros (Hin & [y1 H1] & [y2 H2] & [x3 H3] & [x4 H4])%getbbox_is_bbox.
  pose proof (Hin _ _ H1).
  apply elem_of_hits in H1 as [? (? & ?%pixel_at_height & _)].
  apply elem_of_hits in H2 as [? (? & ?%pixel_at_height & _)].
  apply elem_of_hits in H3 as [? (? & ?%pixel_at_height & _)].
  apply elem_of_hits in H4 as [? (? & ?%pixel_at_height & _)].
  lia.
Qed.

(** a grid without pixels has no box *)
Lemma getbbox_no_pixels nz g :
  Grid.width g <= 0 \/ Grid.height g <= 0 -> Grid.getbbox nz g = None.
Proof.
  intros H. destruct (Grid.getbbox nz g) as [[[[l u] r] d]|] eqn:E; [|done].
  apply getbbox_bounds in E. lia.
Qed.

(** when every pixel passes the test the box is the full frame *)
Lemma getbbox_all nz w h g :
  Grid.has_shape w h g -> 0 < w -> 0 < h ->
  (forall x y p, Grid.pixel_at g x y = Some p -> nz p = true) ->
  Grid.getbbox nz g = Some (0, 0, w, h).
Proof.
  intros Hs Hw Hh Hall. apply getbbox_of_is_bbox.
  assert (forall x y, 0 <= x < w -> 0 <= y < h -> (x, y) ∈ Grid.hits nz g) as Hhit.
  { intros x y Hx Hy. apply elem_of_hits.
    rewrite (has_shape_width _ _ _ Hs) by lia. split; [lia|].
    destruct (has_shape_pixel_at _ _ _ _ _ Hs Hx Hy) as [p Hp]. eauto. }
  unfold Grid.is_bbox. split; [|repeat split].
  - intros x y [Hx (p & Hp & _)]%elem_of_hits.
    rewrite (has_shape_width _ _ _ Hs) in Hx by lia.
    apply pixel_at_height in Hp. rewrite (has_shape_height _ _ _ Hs) in Hp by lia. lia.
  - exists 0. apply Hhit; lia.
  - exists 0. apply Hhit; lia.
  - exists 0. apply Hhit; lia.
  - exists 0. apply Hhit; lia.
Qed.

End GridFacts.

Lemma pixel_at_map {A B} (f : A -> B) (g : list (list A)) x y :
  Grid.pixel_at (map (map f) g) x y = f <$> Grid.pixel_at g x y.
Proof.
  unfold Grid.pixel_at. destruct ((0 <=? x) && (0 <=? y)); [|done].
  change (map (map f) g) with (map f <$> g). rewrite list_lookup_fmap.
  destruct (g !! Z.to_nat y) as [row|]; [|done]. cbn.
  change (map f row) with (f <$> row). by rewrite list_lookup_fmap.
Qed.

Lemma width_map {A B} (f : A -> B) (g : list (list A)) :
  Grid.width (map (map f) g) = Grid.width g.
Proof. destruct g; cbn; [done|]. by rewrite length_map. Qed.

Lemma height_map {A B} (f : A -> B) (g : list (list A)) :
  Grid.height (map (map f) g) = Grid.height g.
Proof. unfold Grid.height. by rewrite length_map. Qed.

Lemma has_shape_map {A B} (f : A -> B) w h (g : list (list A)) :
  Grid.has_shape w h g -> Grid.has_shape w h (map (map f) g).
Proof.
  intros [Hlen Hrows]. split; [by rewrite length_map|].
  change (map (map f) g) with (map f <$> g). apply Forall_fmap.
  eapply Forall_impl; [exact Hrows|]. intros row Hrow. cbn. by rewrite length_map.
Qed.

(** the box of a mapped grid is the box of the grid under the composed test *)
Lemma getbbox_map {A B} (f : A -> B) (nz : B -> bool) (g : list (list A)) :
  Grid.getbbox nz (map (map f) g) = Grid.getbbox (fun p => nz (f p)) g.
Proof.
  unfold Grid.getbbox, Grid.hits. rewrite width_map, height_map.
  erewrite list_filter_iff; [reflexivity|].
  intros c. rewrite pixel_at_map. by destruct (Grid.pixel_at g c.1 c.2).
Qed.

End GridFacts.

Import GridFacts.

(** ** Auto-crop *)

Lemma to_rgba_RGBA_rows (g : list (list pixel)) :
  map (map (Pillow.to_rgba RGBA)) g = g.
Proof.
  rewrite <- (map_id g) at 2. apply map_ext. intros row. apply map_id.
Qed.

Lemma convert_RGBA_idem im :
  Pillow.convert_RGBA (Pillow.convert_RGBA im) = Pillow.convert_RGBA im.
Proof. unfold Pillow.convert_RGBA at 1. cbn. by rewrite to_rgba_RGBA_rows. Qed.

(** the box of the alpha band of an RGBA image is the box of its pixels
    that are not fully transparent *)
Lemma getbbox_alpha_band g :
  Pillow.getbbox (Pillow.split_last (Pillow.fresh RGBA g))
    = Grid.getbbox (fun p => negb (pa p =? 0)) g.
Proof. unfold Pillow.getbbox, Pillow.split_last. cbn. by rewrite getbbox_map. Qed.

Lemma autocrop_auto_alpha im b :
  Grid.getbbox not_transparent (rows (Pillow.convert_RGBA im)) = Some b ->
  autocrop_auto im = Pillow.crop b (Pillow.convert_RGBA im).
Proof.
  intros Hb. unfold autocrop_auto.
  change (Pillow.convert_RGBA im) with (Pillow.fresh RGBA (rows (Pillow.convert_RGBA im))).
  rewrite getbbox_alpha_band. fold not_transparent. by rewrite Hb.
Qed.

Lemma autocrop_auto_no_alpha im :
  Grid.getbbox not_transparent (rows (Pillow.convert_RGBA im)) = None ->
  autocrop_auto im =
    match autocrop_white im white with Ok cropped => cropped | Raise _ => im end.
Proof.
  intros Hb. unfold autocrop_auto.
  change (Pillow.convert_RGBA im) with (Pillow.fresh RGBA (rows (Pillow.convert_RGBA im))).
  rewrite getbbox_alpha_band. fold not_transparent. by rewrite Hb.
Qed.

Lemma crop_full_image im w h :
  Grid.has_shape w h (rows im) -> temp_raster_path im = None ->
  Pillow.crop (0, 0, w, h) im = im.
Proof.
  destruct im as [m g t]. cbn [rows temp_raster_path]. intros Hs ->.
  unfold Pillow.crop, Pillow.fresh. cbn [rows mode_of]. by rewrite crop_full.
Qed.

(** an image that went through the alpha path is a fixed point *)
Lemma autocrop_auto_cropped im b :
  Grid.getbbox not_transparent (rows (Pillow.convert_RGBA im)) = Some b ->
  autocrop_auto (Pillow.crop b (Pillow.convert_RGBA im))
    = Pillow.crop b (Pillow.convert_RGBA im).
Proof.
  intros Hb. destruct b as [[[l u] r] d].
  set (g := rows (Pillow.convert_RGBA im)) in *.
  assert (Pillow.convert_RGBA (Pillow.crop (l, u, r, d) (Pillow.convert_RGBA im))
          = Pillow.crop (l, u, r, d) (Pillow.convert_RGBA im)) as Hconv.
  { unfold Pillow.convert_RGBA at 1. cbn. by rewrite to_rgba_RGBA_rows. }
  rewrite (autocrop_auto_alpha _ (0, 0, r - l, d - u)); rewrite Hconv.
  - apply crop_full_image; [apply has_shape_crop|done].
  - by apply getbbox_crop.
Qed.

Lemma width_zip_with_le {A B C} (f : A -> B -> C) (a : list (list A)) (b : list (list B)) :
  Grid.width (zip_with (zip_with f) a b) <= Grid.width a.
Proof.
  destruct a as [|r1 a], b as [|r2 b]; cbn; try lia.
  rewrite length_zip_with. lia.
Qed.

Lemma height_zip_with_le {A B C} (f : A -> B -> C) (a : list (list A)) (b : list (list B)) :
  Grid.height (zip_with (zip_with f) a b) <= Grid.height a.
Proof. unfold Grid.height. rewrite length_zip_with. lia. Qed.

Lemma has_shape_no_pixels {A} w h (g : list (list A)) :
  Grid.has_shape w h g -> 0 <= w -> 0 <= h -> ~ (0 < w /\ 0 < h) ->
  Grid.width g <= 0 \/ Grid.height g <= 0.
Proof.
  intros [Hlen Hrows] Hw Hh Hno. unfold Grid.height.
  destruct g as [|row g]; cbn in *; [lia|].
  apply Forall_cons in Hrows as [Hrow _]. lia.
Qed.

(** [autocrop_white] never raises; its result is an RGB image, of a
    rectangular shape when the input is *)
Lemma autocrop_white_RGB im bg :
  exists out, autocrop_white im bg = Ok out /\ mode_of out = RGB
    /\ (Grid.rectangular (rows im) = true ->
        exists w h, 0 <= w /\ 0 <= h /\ Grid.has_shape w h (rows out)).
Proof.
  unfold autocrop_white.
  set (im' := if mode_eqb (mode_of im) RGB then im else Pillow.convert_RGB im).
  assert (mode_of im' = RGB) as Hmode.
  { unfold im'. destruct (mode_of im) eqn:E; cbn; try done. }
  assert (Grid.rectangular (rows im) = true ->
          Grid.has_shape (Pillow.width im') (Pillow.height im') (rows im')) as Hshape.
  { intros Hrect%rectangular_has_shape. unfold im', Pillow.width, Pillow.height.
    destruct (mode_eqb _ _); [done|]. cbn.
    rewrite width_map, height_map. by apply has_shape_map. }
  unfold Pillow.new, Pillow.size. cbn [fst snd].
  assert (0 <= Pillow.width im') as Hw.
  { unfold Pillow.width, Grid.width. destruct (rows im'); lia. }
  assert (0 <= Pillow.height im') as Hh by (unfold Pillow.height, Grid.height; lia).
  destruct (Z.ltb_spec (Pillow.width im') 0); [lia|].
  destruct (Z.ltb_spec (Pillow.height im') 0); [lia|]. cbn [orb].
  unfold Pillow.difference. rewrite Hmode. cbn [mode_of Pillow.fresh mode_eqb].
  destruct (Pillow.getbbox _) as [[[[l u] r] d]|] eqn:Hb.
  - eexists. split; [reflexivity|]. split; [done|]. intros _.
    apply getbbox_bounds in Hb.
    exists (r - l), (d - u). repeat split; [lia..| |]; apply has_shape_crop.
  - eexists. split; [reflexivity|]. split; [done|]. intros Hrect.
    exists (Pillow.width im'), (Pillow.height im'). auto.
Qed.

(** an image without an alpha band that has pixels is returned whole, as an
    RGBA image: the alpha band made by the conversion is opaque everywhere,
    so its box is the full frame *)
Lemma autocrop_auto_opaque im w h :
  Pillow.has_alpha_band (mode_of im) = false ->
  Grid.has_shape w h (rows im) -> 0 < w -> 0 < h ->
  autocrop_auto im = Pillow.convert_RGBA im.
Proof.
  intros Hmode Hs Hw Hh.
  rewrite (autocrop_auto_alpha _ (0, 0, w, h)).
  - apply crop_full_image; [by apply has_shape_map|done].
  - cbn [rows Pillow.convert_RGBA Pillow.fresh]. apply getbbox_all; [by apply has_shape_map|lia..|].
    intros x y p. rewrite pixel_at_map.
    destruct (Grid.pixel_at (rows im) x y) as [q|]; [|done]. intros [= <-].
    destruct (mode_of im); done.
Qed.

(** an RGB image without pixels is returned as it is *)
Lemma autocrop_auto_no_pixels im :
  mode_of im = RGB ->
  Grid.width (rows im) <= 0 \/ Grid.height (rows im) <= 0 ->
  autocrop_auto im = im.
Proof.
  intros Hmode Hno. rewrite autocrop_auto_no_alpha.
  - unfold autocrop_white. rewrite Hmode. cbn [mode_eqb].
    unfold Pillow.new, Pillow.size. cbn [fst snd].
    assert (0 <= Pillow.width im) as Hw.
    { unfold Pillow.width, Grid.width. destruct (rows im); lia. }
    assert (0 <= Pillow.height im) as Hh by (unfold Pillow.height, Grid.height; lia).
    destruct (Z.ltb_spec (Pillow.width im) 0); [lia|].
    destruct (Z.ltb_spec (Pillow.height im) 0); [lia|]. cbn [orb].
    unfold Pillow.difference. rewrite Hmode. cbn [mode_of Pillow.fresh mode_eqb].
    unfold Pillow.getbbox. cbn [rows mode_of Pillow.fresh].
    rewrite getbbox_no_pixels; [done|].
    pose proof (width_zip_with_le Pillow.diff_pixel (rows im)
      (Grid.tabulate (Pillow.width im) (Pillow.height im) (fun _ _ => white))).
    pose proof (height_zip_with_le Pillow.diff_pixel (rows im)
      (Grid.tabulate (Pillow.width im) (Pillow.height im) (fun _ _ => white))).
    lia.
  - apply getbbox_no_pixels. cbn. by rewrite width_map, height_map.
Qed.

Lemma size_convert_RGBA im : Pillow.size (Pillow.convert_RGBA im) = Pillow.size im.
Proof.
  unfold Pillow.size, Pillow.width, Pillow.height. cbn.
  by rewrite width_map, height_map.
Qed.

(** the box that a second application finds on the result of the first is
    the whole frame *)
Lemma autocrop_auto_second_box im b :
  Grid.rectangular (rows im) = true ->
  Pillow.getbbox (Pillow.split_last (Pillow.convert_RGBA (autocrop_auto im))) = Some b ->
  b = (0, 0, Pillow.width (autocrop_auto im), Pillow.height (autocrop_auto im)).
Proof.
  intros Hrect.
  change (Pillow.convert_RGBA (autocrop_auto im))
    with (Pillow.fresh RGBA (rows (Pillow.convert_RGBA (autocrop_auto im)))).
  rewrite getbbox_alpha_band. fold not_transparent.
  destruct (Grid.getbbox not_transparent (rows (Pillow.convert_RGBA im)))
    as [[[[l u] r] d]|] eqn:Hb.
  - rewrite (autocrop_auto_alpha _ _ Hb).
    pose proof (getbbox_bounds _ _ _ _ _ _ Hb) as Hbounds.
    set (g := rows (Pillow.convert_RGBA im)) in *.
    assert (rows (Pillow.crop (l, u, r, d) (Pillow.convert_RGBA im))
            = Grid.crop Pillow.zero_pixel (l, u, r, d) g) as Hrows by done.
    unfold Pillow.width, Pillow.height. rewrite Hrows.
    unfold Pillow.convert_RGBA at 1. unfold Pillow.fresh at 1. cbn [rows].
    rewrite Hrows. cbn [mode_of Pillow.crop Pillow.fresh Pillow.convert_RGBA].
    rewrite to_rgba_RGBA_rows.
    rewrite (getbbox_crop not_transparent Pillow.zero_pixel _ l u r d eq_refl Hb).
    intros [= <-].
    pose proof (has_shape_crop Pillow.zero_pixel l u r d g) as Hs.
    rewrite (has_shape_width _ _ _ Hs), (has_shape_height _ _ _ Hs) by lia. done.
  - rewrite (autocrop_auto_no_alpha _ Hb).
    destruct (autocrop_white_RGB im white) as (out & -> & Hmode & Hshape).
    destruct (Hshape Hrect) as (w & h & Hw & Hh & Hs).
    cbn [rows Pillow.convert_RGBA Pillow.fresh].
    destruct (decide (0 < w /\ 0 < h)) as [[Hw' Hh']|Hno].
    + rewrite (getbbox_all not_transparent w h); [|by apply has_shape_map|lia..|].
      * intros [= <-]. unfold Pillow.width, Pillow.height.
        rewrite (has_shape_width _ _ _ Hs), (has_shape_height _ _ _ Hs) by lia. done.
      * intros x y p. rewrite pixel_at_map.
        destruct (Grid.pixel_at (rows out) x y) as [q|]; [|done]. intros [= <-].
        by rewrite Hmode.
    + rewrite getbbox_no_pixels; [done|]. rewrite width_map, height_map.
      by apply (has_shape_no_pixels w h).
Qed.

(** C9: auto-crop is idempotent on the content of the image.  A second
    application returns the pixels of the first, compared as RGBA, in a
    frame of the same size: the box it finds is the whole frame. *)
Theorem autocrop_auto_idempotent im :
  Grid.rectangular (rows im) = true ->
  Pillow.convert_RGBA (autocrop_auto (autocrop_auto im))
    = Pillow.convert_RGBA (autocrop_auto im)
  /\ Pillow.size (autocrop_auto (autocrop_auto im)) = Pillow.size (autocrop_auto im)
  /\ forall b,
       Pillow.getbbox (Pillow.split_last (Pillow.convert_RGBA (autocrop_auto im)))
         = Some b ->
       b = (0, 0, Pillow.width (autocrop_auto im), Pillow.height (autocrop_auto im)).
Proof.
  intros Hrect.
  assert (Pillow.convert_RGBA (autocrop_auto (autocrop_auto im))
          = Pillow.convert_RGBA (autocrop_auto im)) as Heq.
  { destruct (Grid.getbbox not_transparent (rows (Pillow.convert_RGBA im)))
      as [b|] eqn:Hb.
    - rewrite (autocrop_auto_alpha _ _ Hb). by rewrite (autocrop_auto_cropped _ _ Hb).
    - rewrite (autocrop_auto_no_alpha _ Hb).
      destruct (autocrop_white_RGB im white) as (out & -> & Hmode & Hshape).
      destruct (Hshape Hrect) as (w & h & Hw & Hh & Hs).
      destruct (decide (0 < w /\ 0 < h)) as [[Hw' Hh']|Hno].
      + rewrite (autocrop_auto_opaque out w h); [|by rewrite Hmode|done..].
        apply convert_RGBA_idem.
      + rewrite autocrop_auto_no_pixels; [done..|].
        by apply (has_shape_no_pixels w h). }
  split; [exact Heq|]. split.
  - rewrite <- (size_convert_RGBA (autocrop_auto (autocrop_auto im))), Heq.
    apply size_convert_RGBA.
  - intros b. by apply autocrop_auto_second_box.
Qed.

Lemma autocrop_auto_idempotent_witness :
  Grid.rectangular (rows Sample.sticker) = true
  /\ autocrop_auto Sample.sticker = Image RGBA [[Px 200 30 30 255]] None
  /\ Pillow.convert_RGBA (autocrop_auto (autocrop_auto Sample.sticker))
     = Pillow.convert_RGBA (autocrop_auto Sample.sticker)
  /\ Pillow.size (autocrop_auto (autocrop_auto Sample.sticker))
     = Pillow.size (autocrop_auto Sample.sticker).
Proof.
  split; [reflexivity|]. split; [vm_compute; reflexivity|].
  destruct (autocrop_auto_idempotent Sample.sticker) as (Hcontent & Hsize & _);
    [reflexivity|].
  split; [exact Hcontent | exact Hsize].
Defined.

(** on a fully transparent image the first application answers in mode RGB
    and the second in mode RGBA, with the same pixels *)
Example autocrop_auto_ghost :
  autocrop_auto Sample.ghost = Image RGB [[Px 0 0 0 255]] None
  /\ autocrop_auto (autocrop_auto Sample.ghost) = Image RGBA [[Px 0 0 0 255]] None.
Proof. split; vm_compute; reflexivity. Qed.

(** C1 fails on the code: an image without alpha is not cropped to the box
    of its pixels that differ from white.  The page [Sample.framed] has one
    black pixel inside a white border; [autocrop_white] would cut it out,
    but [autocrop_auto] finds the full frame as the box of the opaque alpha
    band made by the conversion and returns the whole page. *)
Theorem autocrop_keeps_white_border :
  Pillow.has_alpha_band (mode_of Sample.framed) = false
  /\ autocrop_white Sample.framed white = Ok (Image RGB [[Sample.black]] None)
  /\ autocrop_auto Sample.framed = Pillow.convert_RGBA Sample.framed
  /\ Pillow.size (autocrop_auto Sample.framed) = (3, 3)
  /\ preprocess Sample.bare Sample.framed true false white
     = Ok (Pillow.convert_RGBA Sample.framed).
Proof. repeat split; vm_compute; reflexivity. Qed.

(** with alpha, the crop is the box of the pixels that are not fully
    transparent *)
Lemma autocrop_auto_with_alpha im b :
  mode_of im = RGBA ->
  Grid.getbbox not_transparent (rows im) = Some b ->
  autocrop_auto im = Pillow.fresh RGBA (Grid.crop Pillow.zero_pixel b (rows im)).
Proof.
  intros Hmode Hb.
  assert (rows (Pillow.convert_RGBA im) = rows im) as Hrows.
  { cbn. rewrite Hmode. apply to_rgba_RGBA_rows. }
  rewrite (autocrop_auto_alpha im b) by (by rewrite Hrows).
  unfold Pillow.crop. by rewrite Hrows.
Qed.

(** ** Floats *)

(** [fl] against the binary64 arithmetic of the machine, on the operations
    of [mm_to_px] for A4 at 300 dpi and of the "fit" ratio *)
Example fl_agrees_with_binary64 :
  Float.of_binary64 (254 / 10)%float = Some Float.lit_25_4
  /\ Float.of_binary64 (210 / (254 / 10) * 300)%float
     = Some (Float.mul (Float.div (Float.of_int 210) Float.lit_25_4) (Float.of_int 300))
  /\ Float.of_binary64 (297 / (254 / 10) * 300)%float
     = Some (Float.mul (Float.div (Float.of_int 297) Float.lit_25_4) (Float.of_int 300))
  /\ Float.of_binary64 (1200 * (2480 / 1000))%float
     = Some (Float.mul (Float.of_int 1200) (Float.int_truediv 2480 1000))
  /\ Float.of_binary64 (1 / 3)%float = Some (Float.int_truediv 1 3).
Proof. repeat split; vm_compute; reflexivity. Qed.

Module FloatFacts.
Import Float.
Local Open Scope Q_scope.

(** the rounded integer is within one half of the number *)
Lemma round_half_even_bounds x :
  x - (1 # 2) <= inject_Z (round_half_even x) <= x + (1 # 2).
Proof.
  unfold round_half_even.
  pose proof (Qfloor_le x) as Hlo. pose proof (Qlt_floor x) as Hhi.
  rewrite inject_Z_plus in Hhi. change (inject_Z 1) with 1 in Hhi.
  destruct (Qcompare (x - inject_Z (Qfloor x)) (1 # 2)) eqn:E.
  - apply Qeq_alt in E. destruct (Z.even (Qfloor x)).
    + lra.
    + rewrite inject_Z_plus. change (inject_Z 1) with 1. lra.
  - apply Qlt_alt in E. lra.
  - apply Qgt_alt in E. rewrite inject_Z_plus. change (inject_Z 1) with 1. lra.
Qed.

Lemma round_half_even_le x (t : Z) :
  x < inject_Z t + (1 # 2) -> (round_half_even x <= t)%Z.
Proof.
  intros H. pose proof (round_half_even_bounds x) as [_ Hhi].
  assert (inject_Z (round_half_even x) < inject_Z (t + 1)) as Hlt.
  { rewrite inject_Z_plus. change (inject_Z 1) with 1. lra. }
  rewrite <- Zlt_Qlt in Hlt. lia.
Qed.

Lemma round_half_even_ge x (t : Z) :
  inject_Z t - (1 # 2) < x -> (t <= round_half_even x)%Z.
Proof.
  intros H. pose proof (round_half_even_bounds x) as [Hlo _].
  assert (inject_Z t < inject_Z (round_half_even x + 1)) as Hlt.
  { rewrite inject_Z_plus. change (inject_Z 1) with 1. lra. }
  rewrite <- Zlt_Qlt in Hlt. lia.
Qed.

Lemma two_pow_pos (e : Z) : 0 < 2 ^ e.
Proof. apply Qpower_0_lt. lra. Qed.

Lemma Qlog2_le x : 0 < x -> 2 ^ Qlog2 x <= x.
Proof.
  intros Hx. unfold Qlog2.
  set (n := Qnum x). set (d := Zpos (Qden x)).
  set (e := (Z.log2 n - Z.log2 d)%Z).
  destruct (Qle_bool (2 ^ e) x) eqn:E; [by apply Qle_bool_iff|].
  assert (0 < n)%Z as Hn.
  { destruct x as [xn xd]. unfold Qlt in Hx. cbn in *. lia. }
  assert (0 < d)%Z as Hd by (unfold d; lia).
  pose proof (Z.log2_spec n Hn) as [Hn1 _].
  pose proof (Z.log2_spec d Hd) as [_ Hd2].
  pose proof (Z.log2_nonneg n). pose proof (Z.log2_nonneg d).
  assert (x == inject_Z n / inject_Z d) as ->.
  { unfold n, d. destruct x as [xn xd]. cbn. apply Qmake_Qdiv. }
  replace (e - 1)%Z with (Z.log2 n - Z.succ (Z.log2 d))%Z by (unfold e; lia).
  rewrite Qpower_minus by lra.
  rewrite <- !(Zpower_Qpower 2) by lia.
  assert (0 < inject_Z d) as Hd' by (change 0 with (inject_Z 0); by rewrite <- Zlt_Qlt).
  assert (0 < inject_Z (2 ^ Z.succ (Z.log2 d))) as Hp.
  { change 0 with (inject_Z 0). rewrite <- Zlt_Qlt. lia. }
  apply Qle_shift_div_l; [exact Hd'|].
  unfold Qdiv. rewrite <- Qmult_assoc, (Qmult_comm (/ _)), Qmult_assoc.
  apply Qle_shift_div_r; [exact Hp|].
  rewrite <- !inject_Z_mult, <- Zle_Qle. nia.
Qed.

Lemma ulp_le x : 0 < x -> ulp x <= x * (1 # 4503599627370496).
Proof.
  intros Hx. unfold ulp.
  replace (Qlog2 x - 52)%Z with (Qlog2 x + -52)%Z by lia.
  rewrite Qpower_plus by lra.
  change (2 ^ (-52)) with (/ (2 ^ 52)).
  pose proof (Qlog2_le x Hx).
  assert (/ 2 ^ 52 == 1 # 4503599627370496) as -> by reflexivity.
  apply Qmult_le_compat_r; [done|]. done.
Qed.

Lemma fl_pos_bounds x :
  0 < x -> x * (1 - u) <= fl_pos x <= x * (1 + u).
Proof.
  intros Hx. unfold fl_pos. rewrite Qred_correct.
  pose proof (ulp_le x Hx) as Hu.
  assert (0 < ulp x) as Hpos by apply two_pow_pos.
  pose proof (round_half_even_bounds (x / ulp x)) as [Hlo Hhi].
  set (m := inject_Z (round_half_even (x / ulp x))) in *.
  assert (x / ulp x * ulp x == x) as Hdiv by (field; lra).
  assert ((x / ulp x - (1 # 2)) * ulp x <= m * ulp x) as H1
    by (apply Qmult_le_compat_r; lra).
  assert (m * ulp x <= (x / ulp x + (1 # 2)) * ulp x) as H2
    by (apply Qmult_le_compat_r; lra).
  unfold u. 
  assert ((x / ulp x - (1 # 2)) * ulp x == x - (1 # 2) * ulp x) as E1 by (field; lra).
  assert ((x / ulp x + (1 # 2)) * ulp x == x + (1 # 2) * ulp x) as E2 by (field; lra).
  rewrite E1 in H1. rewrite E2 in H2.
  split; lra.
Qed.

Lemma fl_bounds x : 0 < x -> x * (1 - u) <= fl x <= x * (1 + u).
Proof.
  intros Hx. unfold fl.
  destruct x as [[|n|n] d]; unfold Qlt in Hx; cbn in Hx; try lia.
  apply (fl_pos_bounds (Z.pos n # d)). unfold Qlt; cbn; lia.
Qed.


Lemma min_le_l a b : Float.min a b <= a.
Proof.
  unfold Float.min. destruct (Qcompare b a) eqn:E; try lra.
  apply Qlt_alt in E. lra.
Qed.

Lemma min_le_r a b : Float.min a b <= b.
Proof.
  unfold Float.min. destruct (Qcompare b a) eqn:E; try lra.
  - apply Qeq_alt in E. lra.
  - apply Qgt_alt in E. lra.
Qed.

Lemma min_cases a b : Float.min a b = a \/ Float.min a b = b.
Proof. unfold Float.min. destruct (Qcompare b a); auto. Qed.

Lemma inject_Z_pos (n : Z) : (0 < n)%Z -> 0 < inject_Z n.
Proof. intros H. change 0 with (inject_Z 0). by rewrite <- Zlt_Qlt. Qed.

(** the quotient of two positive [int]s, rounded *)
Lemma int_truediv_bounds (t i : Z) :
  (0 < t)%Z -> (0 < i)%Z ->
  inject_Z t / inject_Z i * (1 - u) <= int_truediv t i
    <= inject_Z t / inject_Z i * (1 + u).
Proof.
  intros Ht Hi. apply fl_bounds.
  apply Qlt_shift_div_l; [by apply inject_Z_pos|].
  rewrite Qmult_0_l. by apply inject_Z_pos.
Qed.

(** [i * r] stays within three roundings of the exact product *)
Lemma scaled_bounds (i : Z) (r : Q) :
  (0 < i)%Z -> 0 < r ->
  inject_Z i * r * ((1 - u) * (1 - u)) <= Float.mul (of_int i) r
    <= inject_Z i * r * ((1 + u) * (1 + u)).
Proof.
  intros Hi Hr. apply inject_Z_pos in Hi.
  pose proof (fl_bounds _ Hi) as [Hlo Hhi]. fold (of_int i) in Hlo, Hhi.
  assert (0 < of_int i) as Hpos by (unfold u in *; lra).
  assert (0 < of_int i * r) as Hprod.
  { rewrite <- (Qmult_0_l r). by apply Qmult_lt_compat_r. }
  pose proof (fl_bounds _ Hprod) as [Hlo' Hhi']. fold (Float.mul (of_int i) r) in Hlo', Hhi'.
  assert (inject_Z i * (1 - u) * r <= of_int i * r) as H1
    by (apply Qmult_le_compat_r; lra).
  assert (of_int i * r <= inject_Z i * (1 + u) * r) as H2
    by (apply Qmult_le_compat_r; lra).
  assert (inject_Z i * (1 - u) * r * (1 - u) <= of_int i * r * (1 - u)) as H3
    by (apply Qmult_le_compat_r; [lra | unfold u; lra]).
  assert (of_int i * r * (1 + u) <= inject_Z i * (1 + u) * r * (1 + u)) as H4
    by (apply Qmult_le_compat_r; [lra | unfold u; lra]).
  split.
  - eapply Qle_trans; [|exact Hlo']. eapply Qle_trans; [|exact H3].
    apply Qle_lteq. right. ring.
  - eapply Qle_trans; [exact Hhi'|]. eapply Qle_trans; [exact H4|].
    apply Qle_lteq. right. ring.
Qed.



(** a ratio at most the rounded [t / i] scales [i] to at most [t] *)
Lemma scaled_le (i t : Z) (r : Q) :
  (0 < i)%Z -> (0 < t < dim_bound)%Z -> 0 < r ->
  r <= inject_Z t / inject_Z i * (1 + u) ->
  (round_half_even (Float.mul (of_int i) r) <= t)%Z.
Proof.
  intros Hi [Ht Hb] Hr Hle. apply round_half_even_le.
  pose proof (scaled_bounds i r Hi Hr) as [_ Hhi].
  pose proof (inject_Z_pos _ Hi) as Hi'. pose proof (inject_Z_pos _ Ht) as Ht'.
  assert (inject_Z t < inject_Z dim_bound) as Hb' by (by rewrite <- Zlt_Qlt).
  change (inject_Z dim_bound) with 1125899906842624 in Hb'.
  assert (inject_Z i * r <= inject_Z i * (inject_Z t / inject_Z i * (1 + u))) as H1.
  { rewrite !(Qmult_comm (inject_Z i)). apply Qmult_le_compat_r; lra. }
  assert (inject_Z i * (inject_Z t / inject_Z i * (1 + u)) == inject_Z t * (1 + u)) as E
    by (field; lra).
  rewrite E in H1.
  assert (inject_Z i * r * ((1 + u) * (1 + u))
          <= inject_Z t * (1 + u) * ((1 + u) * (1 + u))) as H2
    by (apply Qmult_le_compat_r; [exact H1 | unfold u; lra]).
  unfold u in *. lra.
Qed.

(** a ratio at least the rounded [t / i] scales [i] to at least [t] *)
Lemma scaled_ge (i t : Z) (r : Q) :
  (0 < i)%Z -> (0 < t < dim_bound)%Z -> 0 < r ->
  inject_Z t / inject_Z i * (1 - u) <= r ->
  (t <= round_half_even (Float.mul (of_int i) r))%Z.
Proof.
  intros Hi [Ht Hb] Hr Hle. apply round_half_even_ge.
  pose proof (scaled_bounds i r Hi Hr) as [Hlo _].
  pose proof (inject_Z_pos _ Hi) as Hi'. pose proof (inject_Z_pos _ Ht) as Ht'.
  assert (inject_Z t < inject_Z dim_bound) as Hb' by (by rewrite <- Zlt_Qlt).
  change (inject_Z dim_bound) with 1125899906842624 in Hb'.
  assert (inject_Z i * (inject_Z t / inject_Z i * (1 - u)) <= inject_Z i * r) as H1.
  { rewrite !(Qmult_comm (inject_Z i)). apply Qmult_le_compat_r; lra. }
  assert (inject_Z i * (inject_Z t / inject_Z i * (1 - u)) == inject_Z t * (1 - u)) as E
    by (field; lra).
  rewrite E in H1.
  assert (inject_Z t * (1 - u) * ((1 - u) * (1 - u))
          <= inject_Z i * r * ((1 - u) * (1 - u))) as H2
    by (apply Qmult_le_compat_r; [exact H1 | unfold u; lra]).
  unfold u in *. lra.
Qed.

Lemma ratio_le_cross (a b c d : Z) :
  (0 < b)%Z -> (0 < d)%Z -> (a * d <= c * b)%Z ->
  inject_Z a / inject_Z b <= inject_Z c / inject_Z d.
Proof.
  intros Hb Hd H. apply inject_Z_pos in Hb as Hb'. apply inject_Z_pos in Hd as Hd'.
  apply Qle_shift_div_r; [exact Hb'|].
  assert (inject_Z c / inject_Z d * inject_Z b == inject_Z c * inject_Z b / inject_Z d) as ->
    by (field; lra).
  apply Qle_shift_div_l; [exact Hd'|].
  rewrite <- !inject_Z_mult, <- Zle_Qle. lia.
Qed.

End FloatFacts.

Import FloatFacts.

(** ** The "fit" mode *)

(** the size of the scaled content: both sides fit, and the side whose
    ratio [target / image] is the smaller one fills its target side *)
Lemma fit_size_bounds im_w im_h target_w target_h :
  0 < im_w -> 0 < im_h ->
  0 < target_w < dim_bound -> 0 < target_h < dim_bound ->
  exists new_w new_h,
    fit_size im_w im_h target_w target_h = Ok (new_w, new_h)
    /\ 1 <= new_w <= target_w /\ 1 <= new_h <= target_h
    /\ (target_w * im_h <= target_h * im_w -> new_w = target_w)
    /\ (target_h * im_w <= target_w * im_h -> new_h = target_h).
Proof.
  intros Hiw Hih Htw Hth. unfold fit_size.
  destruct (Z.eqb_spec im_w 0); [lia|]. destruct (Z.eqb_spec im_h 0); [lia|].
  cbn [orb]. eexists _, _. split; [reflexivity|].
  set (ratio := Float.min (Float.int_truediv target_w im_w)
                          (Float.int_truediv target_h im_h)).
  pose proof (int_truediv_bounds target_w im_w ltac:(lia) Hiw) as [Hwlo Hwhi].
  pose proof (int_truediv_bounds target_h im_h ltac:(lia) Hih) as [Hhlo Hhhi].
  pose proof (FloatFacts.min_le_l (Float.int_truediv target_w im_w)
                (Float.int_truediv target_h im_h)) as Hl.
  pose proof (FloatFacts.min_le_r (Float.int_truediv target_w im_w)
                (Float.int_truediv target_h im_h)) as Hr.
  fold ratio in Hl, Hr.
  assert (0 < inject_Z target_w / inject_Z im_w)%Q as HA.
  { apply Qlt_shift_div_l; [by apply inject_Z_pos|].
    rewrite Qmult_0_l. apply inject_Z_pos; lia. }
  assert (0 < inject_Z target_h / inject_Z im_h)%Q as HB.
  { apply Qlt_shift_div_l; [by apply inject_Z_pos|].
    rewrite Qmult_0_l. apply inject_Z_pos; lia. }
  assert (0 < ratio)%Q as Hpos.
  { destruct (min_cases (Float.int_truediv target_w im_w)
                        (Float.int_truediv target_h im_h)) as [E|E];
      fold ratio in E; rewrite E; unfold Float.u in *; lra. }
  assert (Float.round_half_even (Float.mul (Float.of_int im_w) ratio) <= target_w) as Hw
    by (apply scaled_le; [lia..|done|lra]).
  assert (Float.round_half_even (Float.mul (Float.of_int im_h) ratio) <= target_h) as Hh
    by (apply scaled_le; [lia..|done|lra]).
  repeat split; try lia.
  - intros Hbind. apply (ratio_le_cross _ _ _ _ Hiw Hih) in Hbind.
    assert (target_w <= Float.round_half_even (Float.mul (Float.of_int im_w) ratio)); [|lia].
    apply scaled_ge; [lia..|done|].
    destruct (min_cases (Float.int_truediv target_w im_w)
                        (Float.int_truediv target_h im_h)) as [E|E];
      fold ratio in E; rewrite E; [lra|].
    eapply Qle_trans; [|exact Hhlo].
    apply Qmult_le_compat_r; [exact Hbind | unfold Float.u; lra].
  - intros Hbind. apply (ratio_le_cross _ _ _ _ Hih Hiw) in Hbind.
    assert (target_h <= Float.round_half_even (Float.mul (Float.of_int im_h) ratio)); [|lia].
    apply scaled_ge; [lia..|done|].
    destruct (min_cases (Float.int_truediv target_w im_w)
                        (Float.int_truediv target_h im_h)) as [E|E];
      fold ratio in E; rewrite E; [|lra].
    eapply Qle_trans; [|exact Hwlo].
    apply Qmult_le_compat_r; [exact Hbind | unfold Float.u; lra].
Qed.



Lemma pixel_at_paste {A} (canvas src : list (list A)) x0 y0 cx cy :
  Grid.pixel_at (Grid.paste canvas src x0 y0) cx cy
    = (fun p => default p (Grid.pixel_at src (cx - x0) (cy - y0)))
        <$> Grid.pixel_at canvas cx cy.
Proof.
  unfold Grid.pixel_at at 1 3, Grid.paste.
  destruct (Z.leb_spec 0 cx), (Z.leb_spec 0 cy); cbn [andb]; try done.
  rewrite list_lookup_imap. destruct (canvas !! Z.to_nat cy) as [row|]; [|done].
  cbn. rewrite list_lookup_imap. rewrite !Z2Nat.id by lia. done.
Qed.

Lemma has_shape_paste {A} w h (canvas src : list (list A)) x0 y0 :
  Grid.has_shape w h canvas -> Grid.has_shape w h (Grid.paste canvas src x0 y0).
Proof.
  intros [Hlen Hrows]. unfold Grid.paste. split; [by rewrite length_imap|].
  apply Forall_lookup. intros j row Hrow.
  rewrite list_lookup_imap in Hrow.
  destruct (canvas !! j) as [crow|] eqn:Hc; [|discriminate]. injection Hrow as <-.
  rewrite length_imap. exact (proj1 (Forall_lookup _ _) Hrows _ _ Hc).
Qed.

Lemma resize_size (k : resampler) im w h :
  1 <= w -> 1 <= h ->
  exists out, Resample.resize k im (w, h) = Ok out /\ Pillow.size out = (w, h)
    /\ mode_of out = mode_of im.
Proof.
  intros Hw Hh. unfold Resample.resize. cbn [fst snd].
  destruct (Z.eqb_spec (Pillow.width im) w) as [Ew|]; cbn [andb].
  - destruct (Z.eqb_spec (Pillow.height im) h) as [Eh|].
    + eexists. split; [reflexivity|]. split; [|done].
      unfold Pillow.size, Pillow.width, Pillow.height in *. cbn. congruence.
    + destruct (Z.ltb_spec w 1), (Z.ltb_spec h 1); try lia. cbn [orb].
      eexists. split; [reflexivity|]. split; [|done].
      unfold Pillow.size, Pillow.width, Pillow.height. cbn.
      rewrite width_tabulate, height_tabulate by lia. f_equal; lia.
  - destruct (Z.ltb_spec w 1), (Z.ltb_spec h 1); try lia. cbn [orb].
    eexists. split; [reflexivity|]. split; [|done].
    unfold Pillow.size, Pillow.width, Pillow.height. cbn.
    rewrite width_tabulate, height_tabulate by lia. f_equal; lia.
Qed.

Lemma new_shape m w h color :
  0 <= w -> 0 <= h ->
  exists out, Pillow.new m (w, h) color = Ok out /\ mode_of out = m
    /\ Grid.has_shape w h (rows out).
Proof.
  intros Hw Hh. unfold Pillow.new. cbn [fst snd].
  destruct (Z.ltb_spec w 0), (Z.ltb_spec h 0); try lia. cbn [orb].
  eexists. split; [reflexivity|]. split; [done|]. apply has_shape_tabulate.
Qed.

(** the ["fit"] branch on an image with pixels and a canvas below
    [dim_bound]: sizes, offsets and pasted pixels *)
Lemma place_fit_geometry sys im target_w target_h bg_color out_path :
  0 < Pillow.width im -> 0 < Pillow.height im ->
  0 < target_w < dim_bound -> 0 < target_h < dim_bound ->
  exists new_w new_h im_copy canvas,
    fit_size (Pillow.width im) (Pillow.height im) target_w target_h = Ok (new_w, new_h)
    /\ Resample.resize (lanczos sys) im (new_w, new_h) = Ok im_copy
    /\ Pillow.size im_copy = (new_w, new_h)
    /\ place_fit sys im target_w target_h bg_color out_path = Ok canvas
    /\ Pillow.size canvas = (target_w, target_h)
    /\ Grid.has_shape target_w target_h (rows canvas)
    /\ 1 <= new_w <= target_w /\ 1 <= new_h <= target_h
    /\ (target_w * Pillow.height im <= target_h * Pillow.width im -> new_w = target_w)
    /\ (target_h * Pillow.width im <= target_w * Pillow.height im -> new_h = target_h)
    /\ let x := (target_w - new_w) `div` 2 in
       let y := (target_h - new_h) `div` 2 in
       0 <= x /\ x + new_w <= target_w /\ 0 <= y /\ y + new_h <= target_h
       /\ forall i j p,
            0 <= i < new_w -> 0 <= j < new_h ->
            Grid.pixel_at (Pillow.paste_source (mode_of canvas) im_copy) i j = Some p ->
            Grid.pixel_at (rows canvas) (x + i) (y + j) = Some p.
Proof.
  intros Hiw Hih Htw Hth.
  destruct (fit_size_bounds _ _ _ _ Hiw Hih Htw Hth)
    as (new_w & new_h & Hfit & Hnw & Hnh & Hbw & Hbh).
  destruct (resize_size (lanczos sys) im new_w new_h) as (im_copy & Hres & Hsize & _);
    [lia..|].
  set (m := if has_alpha im && Str.endswith (Str.lower out_path) ".png"
            then RGBA else RGB).
  set (color := if has_alpha im && Str.endswith (Str.lower out_path) ".png"
                then transparent_white else bg_color).
  destruct (new_shape m target_w target_h color) as (out & Hnew & Hmode & Hshape);
    [lia..|].
  assert ((if has_alpha im && Str.endswith (Str.lower out_path) ".png"
           then Pillow.new RGBA (target_w, target_h) transparent_white
           else Pillow.new RGB (target_w, target_h) bg_color) = Ok out) as Hcanvas.
  { unfold m, color in Hnew. by destruct (has_alpha im && _). }
  injection Hsize as Hcw Hch.
  set (x := (target_w - new_w) `div` 2). set (y := (target_h - new_h) `div` 2).
  assert (0 <= x /\ x + new_w <= target_w) as [Hx0 Hx1].
  { unfold x. pose proof (Z.div_mod (target_w - new_w) 2 ltac:(lia)).
    pose proof (Z.mod_pos_bound (target_w - new_w) 2 ltac:(lia)). lia. }
  assert (0 <= y /\ y + new_h <= target_h) as [Hy0 Hy1].
  { unfold y. pose proof (Z.div_mod (target_h - new_h) 2 ltac:(lia)).
    pose proof (Z.mod_pos_bound (target_h - new_h) 2 ltac:(lia)). lia. }
  exists new_w, new_h, im_copy, (Pillow.paste out im_copy x y).
  split; [exact Hfit|]. split; [exact Hres|].
  split; [unfold Pillow.size; congruence|].
  assert (Grid.has_shape target_w target_h (rows (Pillow.paste out im_copy x y))) as Hs
    by (by apply has_shape_paste).
  split.
  { unfold place_fit. rewrite Hfit, Hres, Hcanvas. rewrite Hcw, Hch. done. }
  split.
  { unfold Pillow.size, Pillow.width, Pillow.height.
    rewrite (has_shape_width _ _ _ Hs), (has_shape_height _ _ _ Hs) by lia. done. }
  split; [exact Hs|]. split; [exact Hnw|]. split; [exact Hnh|].
  split; [exact Hbw|]. split; [exact Hbh|].
  cbn zeta. fold x y.
  split; [exact Hx0|]. split; [exact Hx1|]. split; [exact Hy0|]. split; [exact Hy1|].
  intros i j p Hi Hj Hp. cbn [rows Pillow.paste mode_of] in *.
  rewrite pixel_at_paste.
  destruct (has_shape_pixel_at target_w target_h (rows out) (x + i) (y + j) Hshape)
    as [q Hq]; [lia..|].
  rewrite Hq. cbn. replace (x + i - x) with i by lia. replace (y + j - y) with j by lia.
  by rewrite Hp.
Qed.

Lemma size_convert_RGB im : Pillow.size (Pillow.convert_RGB im) = Pillow.size im.
Proof.
  unfold Pillow.size, Pillow.width, Pillow.height. cbn.
  by rewrite width_map, height_map.
Qed.

(** in the ["fit"] mode the image handed to [save] has the target size *)
Lemma compose_fit_size sys im mode target_w target_h bg_color out_path :
  String.eqb mode "stretch" = false -> String.eqb mode "fill" = false ->
  0 < Pillow.width im -> 0 < Pillow.height im ->
  0 < target_w < dim_bound -> 0 < target_h < dim_bound ->
  exists out,
    compose sys im mode target_w target_h bg_color out_path = Ok out
    /\ Pillow.size out = (target_w, target_h).
Proof.
  intros Hs Hf Hiw Hih Htw Hth.
  destruct (place_fit_geometry sys im target_w target_h bg_color out_path Hiw Hih Htw Hth)
    as (new_w & new_h & im_copy & canvas & _ & _ & _ & Hplace & Hsize & _).
  unfold compose. rewrite Hs, Hf, Hplace.
  destruct (negb _ && _).
  - eexists. split; [reflexivity|]. by rewrite size_convert_RGB.
  - eauto.
Qed.

(** C3, as amended: in the ["fit"] mode the canvas, and the image handed
    to [save], have exactly the target size; the content is scaled to
    [fit_size], at least one pixel a side; the side whose ratio
    [target / image] is the smaller one (the binding side, which need not
    be the longer side of the scaled content) fills its target side and
    the other side is no longer than its target; the copy is pasted at the
    floor of half the remaining margin, inside the canvas, and each of its
    pixels is on the canvas.  The sides of the canvas are below
    [dim_bound]. *)
Theorem fit_mode_geometry sys im mode target_w target_h bg_color out_path :
  String.eqb mode "stretch" = false -> String.eqb mode "fill" = false ->
  0 < Pillow.width im -> 0 < Pillow.height im ->
  0 < target_w < dim_bound -> 0 < target_h < dim_bound ->
  exists new_w new_h im_copy canvas out,
    fit_size (Pillow.width im) (Pillow.height im) target_w target_h = Ok (new_w, new_h)
    /\ Resample.resize (lanczos sys) im (new_w, new_h) = Ok im_copy
    /\ Pillow.size im_copy = (new_w, new_h)
    /\ place_fit sys im target_w target_h bg_color out_path = Ok canvas
    /\ Pillow.size canvas = (target_w, target_h)
    /\ compose sys im mode target_w target_h bg_color out_path = Ok out
    /\ Pillow.size out = (target_w, target_h)
    /\ 1 <= new_w <= target_w /\ 1 <= new_h <= target_h
    /\ (target_w * Pillow.height im <= target_h * Pillow.width im -> new_w = target_w)
    /\ (target_h * Pillow.width im <= target_w * Pillow.height im -> new_h = target_h)
    /\ let x := (target_w - new_w) `div` 2 in
       let y := (target_h - new_h) `div` 2 in
       0 <= x /\ x + new_w <= target_w /\ 0 <= y /\ y + new_h <= target_h
       /\ forall i j p,
            0 <= i < new_w -> 0 <= j < new_h ->
            Grid.pixel_at (Pillow.paste_source (mode_of canvas) im_copy) i j = Some p ->
            Grid.pixel_at (rows canvas) (x + i) (y + j) = Some p.
Proof.
  intros Hs Hf Hiw Hih Htw Hth.
  destruct (place_fit_geometry sys im target_w target_h bg_color out_path Hiw Hih Htw Hth)
    as (new_w & new_h & im_copy & canvas & Hfit & Hres & Hcopy & Hplace & Hsize & _
        & Hnw & Hnh & Hbw & Hbh & Hpaste).
  destruct (compose_fit_size sys im mode target_w target_h bg_color out_path
              Hs Hf Hiw Hih Htw Hth) as (out & Hout & Hosize).
  exists new_w, new_h, im_copy, canvas, out. tauto.
Qed.

Lemma fit_mode_geometry_witness :
  exists canvas,
    place_fit Sample.bare Sample.photo 25 35 white "/work/out.png" = Ok canvas
    /\ Pillow.size canvas = (25, 35)
    /\ fit_size 2 1 25 35 = Ok (25, 12)
    /\ Grid.pixel_at (rows canvas) 0 11 = Some Sample.black.
Proof.
  destruct (fit_mode_geometry Sample.bare Sample.photo "fit" 25 35 white "/work/out.png")
    as (new_w & new_h & im_copy & canvas & out & Hfit & Hres & _ & Hplace & Hsize & _);
    [reflexivity | reflexivity | reflexivity | reflexivity
    | split; reflexivity | split; reflexivity |].
  exists canvas. split; [exact Hplace|]. split; [exact Hsize|].
  split; [vm_compute; reflexivity|].
  assert (Ok canvas = place_fit Sample.bare Sample.photo 25 35 white "/work/out.png")
    as E by (by rewrite Hplace).
  vm_compute in E. injection E as ->. vm_compute. reflexivity.
Defined.

(** beyond the 53 bits of a binary64 significand the binding side misses
    its target *)
Example fit_size_beyond_binary64 :
  fit_size 1 1 (2 ^ 53 + 1) (2 ^ 53 + 1) = Ok (2 ^ 53, 2 ^ 53).
Proof. vm_compute. reflexivity. Qed.

(** C3, as stated, fails: a 1200 by 1000 image on the landscape A4 canvas
    of 300 dpi is scaled to 2976 by 2480.  The longer side of the scaled
    content is its width, which is shorter than the target width; the
    binding side is the height. *)
Lemma fit_longer_side_not_binding :
  paper_size_px "A4" 300 "horizontal" A_SIZES_MM = Ok (3508, 2480)
  /\ fit_size 1200 1000 3508 2480 = Ok (2976, 2480)
  /\ 2480 < 2976 /\ 2976 <> 3508.
Proof. repeat split; try (vm_compute; reflexivity). lia. Qed.

(** ** Running computations *)

Lemma bind_ok {A B} (c : io A) (k : A -> io B) w a w' :
  c w = (Ok a, w') -> IO.bind c k w = k a w'.
Proof. unfold IO.bind. intros ->. reflexivity. Qed.

Lemma bind_raise {A B} (c : io A) (k : A -> io B) w e w' :
  c w = (Raise e, w') -> IO.bind c k w = (Raise e, w').
Proof. unfold IO.bind. intros ->. reflexivity. Qed.

(** ** Decoder cascade *)

Lemma raw_ext_not_page_description ext :
  ext ∈ RAW_EXTS -> ext ∉ PS_PDF_EXTS.
Proof.
  unfold RAW_EXTS, PS_PDF_EXTS. rewrite !elem_of_union, !elem_of_singleton.
  intros H; repeat destruct H as [H|H]; subst ext; intros H;
    repeat destruct H as [H|H]; discriminate H.
Qed.

(** C5: a file with a RAW extension that neither Pillow nor rawpy decodes
    makes the cascade raise [RawDecodeFailed], whatever the two skip flags
    are. *)
Theorem raw_decode_failure_not_suppressible
    sys w path raster_dpi skip_gs_files skip_svg_files :
  let path_abs := resolve_path_on sys (disk w) path in
  path_abs ∈ disk w ->
  Str.lower (splitext_ext path_abs) ∈ RAW_EXTS ->
  image_open sys path_abs = None ->
  raw_postprocess sys path_abs = None ->
  open_image_any sys path raster_dpi skip_gs_files skip_svg_files w
    = (Raise (RawDecodeFailed path_abs), w).
Proof.
  intros path_abs Hdisk Hext Hopen Hraw.
  unfold open_image_any, IO.bind, resolve_path, IO.exists_. fold path_abs.
  rewrite (bool_decide_eq_true_2 _ Hdisk). cbn [negb].
  rewrite (bool_decide_eq_false_2 _ (raw_ext_not_page_description _ Hext)).
  rewrite Hopen, (bool_decide_eq_true_2 _ Hext), Hraw. reflexivity.
Qed.

Lemma raw_decode_failure_not_suppressible_witness :
  open_image_any Sample.bare "shot.cr2" 300 true true Sample.start
    = (Raise (RawDecodeFailed "/work/shot.cr2"), Sample.start)
  /\ open_image_any Sample.bare "shot.cr2" 300 false false Sample.start
    = (Raise (RawDecodeFailed "/work/shot.cr2"), Sample.start).
Proof.
  split.
  - apply (raw_decode_failure_not_suppressible
             Sample.bare Sample.start "shot.cr2" 300 true true).
    + vm_compute. set_solver.
    + vm_compute. set_solver.
    + reflexivity.
    + reflexivity.
  - apply (raw_decode_failure_not_suppressible
             Sample.bare Sample.start "shot.cr2" 300 false false).
    + vm_compute. set_solver.
    + vm_compute. set_solver.
    + reflexivity.
    + reflexivity.
Defined.

(** ** Pipeline *)

Lemma open_image_any_without_gs sys w path raster_dpi skip_gs_files skip_svg_files :
  let path_abs := resolve_path_on sys (disk w) path in
  path_abs ∈ disk w ->
  Str.lower (splitext_ext path_abs) ∈ PS_PDF_EXTS ->
  _find_gs_exe sys = None ->
  open_image_any sys path raster_dpi skip_gs_files skip_svg_files w
    = (if skip_gs_files then Ok None else Raise GhostscriptNotFound, w).
Proof.
  intros path_abs Hdisk Hext Hgs.
  unfold open_image_any, IO.bind, resolve_path, IO.exists_. fold path_abs.
  rewrite (bool_decide_eq_true_2 _ Hdisk). cbn [negb].
  rewrite (bool_decide_eq_true_2 _ Hext).
  unfold IO.try_except, _rasterize_with_ghostscript. rewrite Hgs.
  destruct skip_gs_files; reflexivity.
Qed.

(** C4: a page-description file on a machine without Ghostscript gives the
    error record "GS_REQUIRED", with a message and the resolved source
    path, when the skip flag is set, and raises when it is not.  The world
    is left as it was. *)
Theorem page_description_without_rasterizer
    sys w src_path out_path sizes_mm size_key dpi mode landscape bg_color
    skip_svg_files autocrop flatten_alpha target :
  let path_abs := resolve_path_on sys (disk w) src_path in
  paper_size_px size_key dpi landscape sizes_mm = Ok target ->
  path_abs ∈ disk w ->
  Str.lower (splitext_ext path_abs) ∈ PS_PDF_EXTS ->
  _find_gs_exe sys = None ->
  resize_to_a_size sys src_path out_path sizes_mm size_key dpi mode landscape
      bg_color true skip_svg_files autocrop flatten_alpha w
    = (Ok (Error "GS_REQUIRED"
         "EPS/AI/PDF needs Ghostscript. Install Ghostscript or convert to PNG/JPG first."
         path_abs), w)
  /\ resize_to_a_size sys src_path out_path sizes_mm size_key dpi mode landscape
      bg_color false skip_svg_files autocrop flatten_alpha w
    = (Raise GhostscriptNotFound, w).
Proof.
  intros path_abs Hsize Hdisk Hext Hgs.
  destruct target as [target_w target_h].
  unfold resize_to_a_size.
  split;
    rewrite (bind_ok _ _ w (target_w, target_h) w)
      by (unfold IO.lift; rewrite Hsize; reflexivity);
    cbn beta iota.
  - rewrite (bind_ok _ _ w None w)
      by exact (open_image_any_without_gs sys w src_path dpi true _ Hdisk Hext Hgs).
    unfold error_record, IO.bind, resolve_path. fold path_abs.
    rewrite (bool_decide_eq_true_2 _ Hext). reflexivity.
  - apply bind_raise.
    exact (open_image_any_without_gs sys w src_path dpi false _ Hdisk Hext Hgs).
Qed.

Lemma page_description_without_rasterizer_witness :
  resize_to_a_size Sample.bare "doc.pdf" "/work/out.png" A_SIZES_MM "A4" 300
      "fit" "vertical" white true true true true Sample.start
    = (Ok (Error "GS_REQUIRED"
         "EPS/AI/PDF needs Ghostscript. Install Ghostscript or convert to PNG/JPG first."
         "/work/doc.pdf"), Sample.start)
  /\ resize_to_a_size Sample.bare "doc.pdf" "/work/out.png" A_SIZES_MM "A4" 300
      "fit" "vertical" white false true true true Sample.start
    = (Raise GhostscriptNotFound, Sample.start).
Proof.
  apply (page_description_without_rasterizer Sample.bare Sample.start
           "doc.pdf" "/work/out.png" A_SIZES_MM "A4" 300 "fit" "vertical" white
           true true true (2480, 3508)).
  - vm_compute. reflexivity.
  - vm_compute. set_solver.
  - vm_compute. set_solver.
  - reflexivity.
Defined.

Lemma size_dict_name_custom sizes_mm :
  is_same sizes_mm A_SIZES_MM = false ->
  is_same sizes_mm TWO_PER_THREE_SIZES_MM = false ->
  is_same sizes_mm FOUR_PER_FIVE_SIZES_MM = false ->
  is_same sizes_mm THREE_PER_FOUR_SIZES_MM = false ->
  is_same sizes_mm ELEVEN_X_FOURTEEN_SIZES_MM = false ->
  size_dict_name sizes_mm = "CUSTOM".
Proof. unfold size_dict_name. intros -> -> -> -> ->. reflexivity. Qed.

(** every success record carries the name computed by [size_dict_name] *)
Lemma success_record_size_dict
    sys w w' src_path out_path sizes_mm size_key dpi mode landscape bg_color
    skip_gs_files skip_svg_files autocrop flatten_alpha info :
  resize_to_a_size sys src_path out_path sizes_mm size_key dpi mode landscape
      bg_color skip_gs_files skip_svg_files autocrop flatten_alpha w
    = (Ok (Success info), w') ->
  rec_size_dict info = size_dict_name sizes_mm.
Proof.
  unfold resize_to_a_size, IO.bind at 1, IO.lift at 1.
  destruct (paper_size_px _ _ _ _) as [[target_w target_h]|]; [|discriminate].
  unfold IO.bind at 1.
  destruct (open_image_any _ _ _ _ _ _) as [[[im|]|] w1]; [| |discriminate].
  - unfold IO.try_finally, IO.bind, IO.lift.
    destruct (preprocess _ _ _ _ _); [|discriminate].
    destruct (compose _ _ _ _ _ _ _); [|discriminate].
    destruct (IO.save _ _ _ _ _) as [[]]; [|discriminate].
    unfold resolve_path, IO.ret. intros [= <- _]. reflexivity.
  - unfold error_record, IO.bind, resolve_path, IO.ret.
    repeat destruct (bool_decide _); discriminate.
Qed.

(** C10: the name in the success record is decided by the identity of the
    dictionary object: for an object that is none of the five catalogs of
    the module, whatever its items, the field is "CUSTOM". *)
Theorem size_dict_field_by_identity
    sys w w' src_path out_path sizes_mm size_key dpi mode landscape bg_color
    skip_gs_files skip_svg_files autocrop flatten_alpha info :
  is_same sizes_mm A_SIZES_MM = false ->
  is_same sizes_mm TWO_PER_THREE_SIZES_MM = false ->
  is_same sizes_mm FOUR_PER_FIVE_SIZES_MM = false ->
  is_same sizes_mm THREE_PER_FOUR_SIZES_MM = false ->
  is_same sizes_mm ELEVEN_X_FOURTEEN_SIZES_MM = false ->
  resize_to_a_size sys src_path out_path sizes_mm size_key dpi mode landscape
      bg_color skip_gs_files skip_svg_files autocrop flatten_alpha w
    = (Ok (Success info), w') ->
  rec_size_dict info = "CUSTOM".
Proof.
  intros H1 H2 H3 H4 H5 Hrun.
  rewrite (success_record_size_dict _ _ _ _ _ _ _ _ _ _ _ _ _ _ _ _ Hrun).
  by apply size_dict_name_custom.
Qed.

Lemma custom_run_succeeds : custom_run.1 = Ok (Success custom_info).
Proof. vm_compute. reflexivity. Qed.

Lemma size_dict_field_by_identity_witness :
  items Sample.copy_of_A = items A_SIZES_MM
  /\ rec_size_dict custom_info = "CUSTOM".
Proof.
  split; [reflexivity|].
  apply (size_dict_field_by_identity Sample.bare Sample.start custom_run.2
           "photo.jpg" "/work/out.png" Sample.copy_of_A "a4" 3 "fit" "vertical" white
           true true true true custom_info); reflexivity.
Defined.

(** C6 fails on the code: when the rasterizer exits with status 0 and
    [Image.open] rejects its output, the temporary file made for the call
    stays on disk, whether the call returns the error record or raises. *)
Theorem temp_file_left_behind :
  ("/tmp/tmp0.png" ∉ disk Sample.start)
  /\ blank_page_run.1
     = Ok (Error "GS_REQUIRED"
         "EPS/AI/PDF needs Ghostscript. Install Ghostscript or convert to PNG/JPG first."
         "/work/blank.ps")
  /\ "/tmp/tmp0.png" ∈ disk blank_page_run.2
  /\ blank_page_run_noskip.1 = Raise (UnidentifiedImage "/tmp/tmp0.png")
  /\ "/tmp/tmp0.png" ∈ disk blank_page_run_noskip.2.
Proof.
  split; [vm_compute; set_solver|].
  split; [vm_compute; reflexivity|].
  split; [vm_compute; set_solver|].
  split; [vm_compute; reflexivity|].
  vm_compute; set_solver.
Qed.

(** C8 fails on the code: the conversion before saving tests for mode
    RGBA only, so an LA image that is neither cropped nor flattened is saved
    with its alpha band to a path that does not end in ".png", in the
    stretch and fill modes. *)
Theorem alpha_saved_to_non_png :
  Str.endswith (Str.lower "/work/out.tif") ".png" = false
  /\ (exists info, grey_run.1 = Ok (Success info))
  /\ map (fun s => (s.1.1, mode_of s.1.2, s.2)) (saved grey_run.2)
     = [("/work/out.tif", LA, 1)]
  /\ map (fun s => (s.1.1, mode_of s.1.2, s.2)) (saved grey_run_fill.2)
     = [("/work/out.tif", LA, 1)]
  /\ has_alpha (Image LA [] None) = true.
Proof.
  split; [reflexivity|].
  split; [eexists; vm_compute; reflexivity|].
  repeat split; vm_compute; reflexivity.
Qed.

(** ** What the pipeline does guarantee *)

(** a temporary file recorded on the decoded image is gone when the call
    ends, whatever the steps after decoding do *)
Lemma finally_removes_temp
    sys w w1 src_path out_path sizes_mm size_key dpi mode landscape bg_color
    skip_gs_files skip_svg_files autocrop flatten_alpha target im tmp :
  paper_size_px size_key dpi landscape sizes_mm = Ok target ->
  open_image_any sys src_path dpi skip_gs_files skip_svg_files w = (Ok (Some im), w1) ->
  temp_raster_path im = Some tmp -> tmp <> "" ->
  tmp ∉ disk (resize_to_a_size sys src_path out_path sizes_mm size_key dpi mode
                landscape bg_color skip_gs_files skip_svg_files autocrop
                flatten_alpha w).2.
Proof.
  intros Hsize Hopen Htmp Hne. destruct target as [target_w target_h].
  unfold resize_to_a_size.
  rewrite (bind_ok _ _ w (target_w, target_h) w)
    by (unfold IO.lift; rewrite Hsize; reflexivity).
  cbn beta iota. rewrite (bind_ok _ _ w (Some im) w1) by exact Hopen.
  unfold IO.try_finally.
  destruct (IO.bind _ _ w1) as [r w2]. rewrite Htmp. cbn [truthy default snd].
  destruct (String.eqb_spec tmp "") as [|_]; [done|]. cbn [negb].
  unfold IO.try_except, IO.remove.
  destruct (decide (tmp ∈ disk w2)) as [Hin|Hin].
  - rewrite (bool_decide_eq_true_2 _ Hin). cbn.
    intros [_ Hn]%elem_of_difference. apply Hn. by apply elem_of_singleton.
  - by rewrite (bool_decide_eq_false_2 _ Hin).
Qed.

(** where the alpha band can survive to a file that is not a PNG: only an
    LA image, in the stretch and fill modes *)
Lemma compose_alpha_only_LA sys im mode target_w target_h bg_color out_path out :
  compose sys im mode target_w target_h bg_color out_path = Ok out ->
  Str.endswith (Str.lower out_path) ".png" = false ->
  Pillow.has_alpha_band (mode_of out) = true ->
  mode_of im = LA /\ mode_of out = LA
  /\ (String.eqb mode "stretch" = true \/ String.eqb mode "fill" = true).
Proof.
  unfold compose. intros Hc Hpng Halpha. rewrite Hpng in Hc. cbn [negb andb] in Hc.
  destruct (String.eqb mode "stretch") eqn:Es.
  - unfold Resample.resize in Hc.
    destruct (_ && _) in Hc; [|destruct (_ || _) in Hc; [discriminate|]];
      cbn [mode_of Pillow.fresh] in Hc;
      destruct (mode_of im) eqn:Em; cbn in Hc; injection Hc as <-;
      cbn in Halpha; try discriminate; auto.
  - destruct (String.eqb mode "fill") eqn:Ef.
    + unfold Resample.fit in Hc.
      destruct (_ || _) in Hc; [discriminate|].
      destruct (_ || _) in Hc; [discriminate|].
      cbn [mode_of Pillow.fresh] in Hc.
      destruct (mode_of im) eqn:Em; cbn in Hc; injection Hc as <-;
        cbn in Halpha; try discriminate; auto.
    + unfold place_fit in Hc. rewrite Hpng, andb_false_r in Hc.
      destruct (fit_size _ _ _ _) as [[new_w new_h]|]; [|discriminate].
      destruct (Resample.resize _ _ _); [|discriminate].
      destruct (Pillow.new _ _ _) as [canvas|] eqn:En; [|discriminate].
      unfold Pillow.new in En. destruct (_ || _) in En; [discriminate|].
      injection En as <-. cbn in Hc. injection Hc as <-. discriminate.
Qed.

(** with [flatten_alpha] set the image that reaches the canvas is RGB *)
Lemma preprocess_flatten_RGB sys im autocrop bg_color out :
  preprocess sys im autocrop true bg_color = Ok out -> mode_of out = RGB.
Proof.
  unfold preprocess, flatten_alpha_to_bg. cbn [mode_of Pillow.convert_RGBA Pillow.fresh
    mode_eqb negb].
  destruct (Pillow.new _ _ _) as [bg|] eqn:En; [|discriminate].
  unfold Pillow.new in En. destruct (_ || _) in En; [discriminate|].
  injection En as <-. intros [= <-]. reflexivity.
Qed.

(** ** Millimetres to pixels *)

Lemma Qmult_comm_eq (a b : Q) : (a * b = b * a)%Q.
Proof.
  destruct a as [an ad], b as [bn bd]. unfold Qmult. cbn.
  f_equal; [apply Z.mul_comm | apply Pos.mul_comm].
Qed.

Lemma lit_25_4_value : Float.lit_25_4 = (3574732204225331 # 140737488355328)%Q.
Proof. vm_compute. reflexivity. Qed.

(** the float value that [mm_to_px] rounds, against the exact quotient *)
Lemma mm_to_px_value_bounds (mm dpi : Z) :
  0 < mm -> 0 < dpi ->
  let v := Float.mul (Float.div (Float.of_int mm) Float.lit_25_4) (Float.of_int dpi) in
  let P := inject_Z (mm * dpi) in
  (P * ((10 # 254) * (1 - 6 * Float.u)) <= v <= P * ((10 # 254) * (1 + 6 * Float.u)))%Q.
Proof.
  intros Hmm Hdpi v P.
  pose proof (inject_Z_pos _ Hmm) as HM. pose proof (inject_Z_pos _ Hdpi) as HD.
  pose proof (fl_bounds _ HM) as [Halo Hahi]. fold (Float.of_int mm) in Halo, Hahi.
  set (a := Float.of_int mm) in *.
  assert (0 < a)%Q as Ha by (unfold Float.u in *; lra).
  assert (0 < a / Float.lit_25_4)%Q as Hq.
  { rewrite lit_25_4_value. apply Qlt_shift_div_l; lra. }
  pose proof (fl_bounds _ Hq) as [Hilo Hihi].
  fold (Float.div a Float.lit_25_4) in Hilo, Hihi.
  set (inches := Float.div a Float.lit_25_4) in *.
  assert (a / Float.lit_25_4 == a * (140737488355328 # 3574732204225331))%Q as Ediv.
  { rewrite lit_25_4_value. unfold Qdiv. reflexivity. }
  rewrite Ediv in Hilo, Hihi.
  assert (0 < inches)%Q as Hin by (unfold Float.u in *; lra).
  unfold v. unfold Float.mul. rewrite (Qmult_comm_eq inches (Float.of_int dpi)).
  fold (Float.mul (Float.of_int dpi) inches).
  pose proof (scaled_bounds dpi inches Hdpi Hin) as [Hvlo Hvhi].
  set (w := Float.mul (Float.of_int dpi) inches) in *.
  set (D := inject_Z dpi) in *. set (M := inject_Z mm) in *.
  assert (P == M * D)%Q as EP by (unfold P, M, D; rewrite inject_Z_mult; reflexivity).
  assert (D * (M * ((1 - Float.u) * (1 - Float.u) * (140737488355328 # 3574732204225331)))
          <= D * inches)%Q as H1.
  { rewrite !(Qmult_comm D). apply Qmult_le_compat_r; [|lra]. unfold Float.u in *. lra. }
  assert (D * inches
          <= D * (M * ((1 + Float.u) * (1 + Float.u) * (140737488355328 # 3574732204225331))))%Q
    as H2.
  { rewrite !(Qmult_comm D). apply Qmult_le_compat_r; [|lra]. unfold Float.u in *. lra. }
  assert (D * (M * ((1 - Float.u) * (1 - Float.u) * (140737488355328 # 3574732204225331)))
          == P * ((1 - Float.u) * (1 - Float.u) * (140737488355328 # 3574732204225331)))%Q
    as E1 by (rewrite EP; ring).
  assert (D * (M * ((1 + Float.u) * (1 + Float.u) * (140737488355328 # 3574732204225331)))
          == P * ((1 + Float.u) * (1 + Float.u) * (140737488355328 # 3574732204225331)))%Q
    as E2 by (rewrite EP; ring).
  rewrite E1 in H1. rewrite E2 in H2.
  assert (0 < P)%Q as HP.
  { unfold P. apply inject_Z_pos. lia. }
  assert (D * inches * ((1 - Float.u) * (1 - Float.u))
          >= P * ((1 - Float.u) * (1 - Float.u) * (140737488355328 # 3574732204225331))
             * ((1 - Float.u) * (1 - Float.u)))%Q as H3.
  { apply Qmult_le_compat_r; [exact H1 | unfold Float.u; lra]. }
  assert (D * inches * ((1 + Float.u) * (1 + Float.u))
          <= P * ((1 + Float.u) * (1 + Float.u) * (140737488355328 # 3574732204225331))
             * ((1 + Float.u) * (1 + Float.u)))%Q as H4.
  { apply Qmult_le_compat_r; [exact H2 | unfold Float.u; lra]. }
  unfold Float.u in *. split; lra.
Qed.

(** the pixel count against the exact quotient, scaled by 254 *)
Lemma mm_to_px_window (mm dpi : Z) :
  0 < mm -> 0 < dpi -> mm * dpi < 2 ^ 40 ->
  10 * (mm * dpi) - 127 <= 254 * mm_to_px mm dpi <= 10 * (mm * dpi) + 127.
Proof.
  intros Hmm Hdpi Hb.
  pose proof (mm_to_px_value_bounds mm dpi Hmm Hdpi) as [Hlo Hhi]. cbn zeta in Hlo, Hhi.
  unfold mm_to_px.
  set (v := Float.mul (Float.div (Float.of_int mm) Float.lit_25_4) (Float.of_int dpi)) in *.
  pose proof (FloatFacts.round_half_even_bounds v) as [Hrlo Hrhi].
  set (px := Float.round_half_even v) in *.
  set (m := mm * dpi) in *.
  assert (0 < inject_Z m)%Q as HP by (apply inject_Z_pos; lia).
  assert (inject_Z m < inject_Z (2 ^ 40))%Q as HB by (by rewrite <- Zlt_Qlt).
  change (inject_Z (2 ^ 40)) with 1099511627776%Q in HB.
  assert (inject_Z (254 * px) < inject_Z (10 * m + 128))%Q as H1.
  { rewrite inject_Z_plus, !inject_Z_mult.
    change (inject_Z 254) with 254%Q. change (inject_Z 10) with 10%Q.
    change (inject_Z 128) with 128%Q. unfold Float.u in *. lra. }
  assert (inject_Z (10 * m) < inject_Z (254 * px + 128))%Q as H2.
  { rewrite inject_Z_plus, !inject_Z_mult.
    change (inject_Z 254) with 254%Q. change (inject_Z 10) with 10%Q.
    change (inject_Z 128) with 128%Q. unfold Float.u in *. lra. }
  rewrite <- Zlt_Qlt in H1, H2. lia.
Qed.


(** X1: for positive arguments with [mm * dpi] below [2 ^ 40], [mm_to_px]
    answers with the integer nearest to [mm * dpi / 25.4]: no other integer
    is as close.  The three roundings of the float computation never move
    the result. *)
Theorem mm_to_px_nearest (mm dpi : Z) :
  0 < mm -> 0 < dpi -> mm * dpi < 2 ^ 40 ->
  forall k, k <> mm_to_px mm dpi ->
    Z.abs (254 * mm_to_px mm dpi - 10 * (mm * dpi)) < Z.abs (254 * k - 10 * (mm * dpi)).
Proof.
  intros Hmm Hdpi Hb k Hk.
  pose proof (mm_to_px_window mm dpi Hmm Hdpi Hb). lia.
Qed.

Lemma mm_to_px_nearest_witness :
  mm_to_px 210 300 = 2480
  /\ Z.abs (254 * mm_to_px 210 300 - 10 * (210 * 300))
     < Z.abs (254 * 2481 - 10 * (210 * 300)).
Proof.
  split; [vm_compute; reflexivity|].
  apply (mm_to_px_nearest 210 300); [lia | lia | vm_compute; reflexivity |].
  vm_compute. discriminate.
Defined.

(** ** The catalogs *)

Lemma upper_ascii_idem c : Str.upper_ascii (Str.upper_ascii c) = Str.upper_ascii c.
Proof. destruct c as [[] [] [] [] [] [] [] []]; reflexivity. Qed.

Lemma upper_lower_ascii c : Str.upper_ascii (Str.lower_ascii c) = Str.upper_ascii c.
Proof. destruct c as [[] [] [] [] [] [] [] []]; reflexivity. Qed.

Lemma upper_idem s : Str.upper (Str.upper s) = Str.upper s.
Proof. induction s as [|c s IH]; cbn; [done|]. by rewrite upper_ascii_idem, IH. Qed.

Lemma upper_lower s : Str.upper (Str.lower s) = Str.upper s.
Proof. induction s as [|c s IH]; cbn; [done|]. by rewrite upper_lower_ascii, IH. Qed.

(** every entry of the catalogs: a key in upper case, a width of at least
    200 mm, a height of at most 910 mm that exceeds the width by 50 mm or
    more *)
Lemma catalog_entry sizes_mm key w_mm h_mm :
  sizes_mm ∈ catalogs -> items sizes_mm !! key = Some (w_mm, h_mm) ->
  Str.upper key = key /\ 200 <= w_mm /\ w_mm + 50 <= h_mm <= 910.
Proof.
  intros Hd Hk. unfold catalogs in Hd. case_elem Hd; subst sizes_mm;
    apply elem_of_list_to_map_2 in Hk; case_elem Hk;
    injection Hk as -> -> ->; (split; [reflexivity|lia]).
Qed.

(** X2: a key of one of the five catalogs, at a resolution from 1 dpi up to
    [2 ^ 30], resolves to a page that is at least one pixel wide and taller
    than wide in the vertical orientation, and to the same two numbers
    swapped in the horizontal one. *)
Theorem catalog_pages_are_portrait sizes_mm size_key dpi w h :
  sizes_mm ∈ catalogs -> 1 <= dpi <= 2 ^ 30 ->
  paper_size_px size_key dpi "vertical" sizes_mm = Ok (w, h) ->
  1 <= w < h /\ paper_size_px size_key dpi "horizontal" sizes_mm = Ok (h, w).
Proof.
  intros Hd Hdpi. unfold paper_size_px.
  destruct (items sizes_mm !! Str.upper size_key) as [[w_mm h_mm]|] eqn:Hk; [|discriminate].
  destruct (catalog_entry _ _ _ _ Hd Hk) as (_ & Hw & Hh).
  change (bool_decide (Str.lower "vertical" ∈ orientation_synonyms)) with false.
  change (bool_decide (Str.lower "horizontal" ∈ orientation_synonyms)) with true.
  cbn iota. intros [= <- <-]. split; [|reflexivity].
  assert (w_mm * dpi < 2 ^ 40 /\ h_mm * dpi < 2 ^ 40) as [Hbw Hbh].
  { change (2 ^ 40) with (1024 * 2 ^ 30). nia. }
  pose proof (mm_to_px_window w_mm dpi ltac:(lia) ltac:(lia) Hbw).
  pose proof (mm_to_px_window h_mm dpi ltac:(lia) ltac:(lia) Hbh).
  nia.
Qed.

Lemma catalog_pages_are_portrait_witness :
  1 <= 2480 < 3508
  /\ paper_size_px "a4" 300 "horizontal" A_SIZES_MM = Ok (3508, 2480).
Proof.
  apply (catalog_pages_are_portrait A_SIZES_MM "a4" 300 2480 3508).
  - unfold catalogs. in_list.
  - split; [lia | vm_compute; discriminate].
  - vm_compute. reflexivity.
Defined.

(** X3: size keys are matched without regard to letter case: two keys with
    the same lower-case form resolve to the same size, or both fail. *)
Theorem size_key_case_insensitive k1 k2 dpi landscape sizes_mm r :
  Str.lower k1 = Str.lower k2 ->
  paper_size_px k1 dpi landscape sizes_mm = Ok r
  <-> paper_size_px k2 dpi landscape sizes_mm = Ok r.
Proof.
  intros Hk. unfold paper_size_px.
  assert (Str.upper k1 = Str.upper k2) as ->
    by (by rewrite <- (upper_lower k1), Hk, upper_lower).
  by destruct (items sizes_mm !! Str.upper k2) as [[w_mm h_mm]|].
Qed.

Lemma size_key_case_insensitive_witness :
  paper_size_px "a4" 300 "vertical" A_SIZES_MM = Ok (2480, 3508)
  <-> paper_size_px "A4" 300 "vertical" A_SIZES_MM = Ok (2480, 3508).
Proof.
  apply (size_key_case_insensitive "a4" "A4" 300 "vertical" A_SIZES_MM (2480, 3508)).
  reflexivity.
Defined.

(** X4: the key is put in upper case before the lookup and the keys of the
    dictionary are not, so a dictionary whose keys all hold a lower-case
    letter answers no key at all: every lookup raises, naming the key as
    given and the keys of the dictionary. *)
Theorem lower_case_keys_unreachable size_key dpi landscape sizes_mm :
  (forall k, k ∈ dom (items sizes_mm) -> Str.upper k <> k) ->
  paper_size_px size_key dpi landscape sizes_mm
    = Raise (UnknownSizeKey size_key (elements (dom (items sizes_mm)))).
Proof.
  intros Hkeys. unfold paper_size_px.
  destruct (items sizes_mm !! Str.upper size_key) as [v|] eqn:Hk; [|done].
  destruct (Hkeys (Str.upper size_key)); [|apply upper_idem].
  apply elem_of_dom. by exists v.
Qed.

Lemma lower_case_keys_unreachable_witness :
  paper_size_px "a4" 300 "vertical" Studio.lower_keys
    = Raise (UnknownSizeKey "a4" (elements (dom (items Studio.lower_keys)))).
Proof.
  apply (lower_case_keys_unreachable "a4" 300 "vertical" Studio.lower_keys).
  intros k Hk. cbn in Hk. rewrite dom_singleton_L in Hk.
  apply elem_of_singleton in Hk as ->. discriminate.
Defined.

(** ** Rasterizers and the path resolver *)

Lemma touches_only_temp_refl sys w : touches_only_temp sys w w.
Proof. repeat split; auto; lia. Qed.

Lemma run_and_open_world sys cmd tmp w :
  (run_and_open sys cmd tmp w).2 = w.
Proof.
  unfold run_and_open. destruct (run_process sys cmd); [|done].
  by destruct (image_open sys tmp).
Qed.

(** the three ways a rasterizer ends once its temporary file exists *)
Lemma rasterize_tail sys cmd tmp fail w :
  tmp ∈ disk w ->
  IO.try_except (run_and_open sys cmd tmp) (on_process_error tmp fail) w =
  match run_process sys cmd with
  | ExitNonZero stderr =>
      (Raise (fail (substring 0 2000 stderr)),
       World (disk w ∖ {[ tmp ]}) (temp_count w) (saved w))
  | Exit0 =>
      match image_open sys tmp with
      | None => (Raise (UnidentifiedImage tmp), w)
      | Some img => (Ok (Image (mode_of img) (rows img) (Some tmp)), w)
      end
  end.
Proof.
  intros Hin. unfold IO.try_except, run_and_open.
  destruct (run_process sys cmd) as [|stderr].
  - by destruct (image_open sys tmp).
  - cbn. unfold IO.bind, IO.try_except, IO.remove.
    by rewrite (bool_decide_eq_true_2 _ Hin).
Qed.

Lemma _rasterize_with_ghostscript_eval sys path dpi w gs :
  _find_gs_exe sys = Some gs ->
  let path_abs := resolve_path_on sys (disk w) path in
  let tmp := temp_name sys (temp_count w) in
  let cmd := gs_command gs (Str.lower (splitext_ext path_abs)) tmp path_abs dpi in
  let w1 := World ({[ tmp ]} ∪ disk w) (S (temp_count w)) (saved w) in
  path_abs ∈ disk w ->
  _rasterize_with_ghostscript sys path dpi w =
  match run_process sys cmd with
  | ExitNonZero stderr =>
      (Raise (GhostscriptFailed path_abs cmd (substring 0 2000 stderr)),
       World (disk w1 ∖ {[ tmp ]}) (temp_count w1) (saved w1))
  | Exit0 =>
      match image_open sys tmp with
      | None => (Raise (UnidentifiedImage tmp), w1)
      | Some img => (Ok (Image (mode_of img) (rows img) (Some tmp)), w1)
      end
  end.
Proof.
  intros Hgs path_abs tmp cmd w1 Hin.
  unfold _rasterize_with_ghostscript. rewrite Hgs.
  unfold IO.bind at 1. unfold resolve_path. fold path_abs.
  unfold IO.bind at 1. unfold IO.exists_.
  rewrite (bool_decide_eq_true_2 _ Hin). cbn [negb].
  unfold IO.bind at 1. unfold IO.named_temporary_file. fold tmp. fold w1. fold cmd.
  apply (rasterize_tail sys cmd tmp (GhostscriptFailed path_abs cmd) w1).
  unfold w1. cbn. apply elem_of_union_l. by apply elem_of_singleton.
Qed.

Lemma _find_inkscape_exe_pure sys w :
  exists exe, _find_inkscape_exe sys w = (Ok exe, w).
Proof. unfold _find_inkscape_exe. eauto. Qed.

Lemma _rasterize_svg_with_inkscape_eval sys path dpi w inkscape :
  _find_inkscape_exe sys w = (Ok (Some inkscape), w) ->
  let path_abs := resolve_path_on sys (disk w) path in
  let tmp := temp_name sys (temp_count w) in
  let cmd := inkscape_command inkscape path_abs tmp dpi in
  let w1 := World ({[ tmp ]} ∪ disk w) (S (temp_count w)) (saved w) in
  path_abs ∈ disk w ->
  _rasterize_svg_with_inkscape sys path dpi w =
  match run_process sys cmd with
  | ExitNonZero stderr =>
      (Raise (InkscapeFailed path_abs cmd (substring 0 2000 stderr)),
       World (disk w1 ∖ {[ tmp ]}) (temp_count w1) (saved w1))
  | Exit0 =>
      match image_open sys tmp with
      | None => (Raise (UnidentifiedImage tmp), w1)
      | Some img => (Ok (Image (mode_of img) (rows img) (Some tmp)), w1)
      end
  end.
Proof.
  intros Hexe path_abs tmp cmd w1 Hin.
  unfold _rasterize_svg_with_inkscape.
  rewrite (bind_ok _ _ w (Some inkscape) w Hexe).
  unfold IO.bind at 1. unfold resolve_path. fold path_abs.
  unfold IO.bind at 1. unfold IO.exists_.
  rewrite (bool_decide_eq_true_2 _ Hin). cbn [negb].
  unfold IO.bind at 1. unfold IO.named_temporary_file. fold tmp. fold w1. fold cmd.
  apply (rasterize_tail sys cmd tmp (InkscapeFailed path_abs cmd) w1).
  unfold w1. cbn. apply elem_of_union_l. by apply elem_of_singleton.
Qed.

Lemma temp_made_and_removed (tmp : string) (files : gset string) :
  forall p, p <> tmp -> p ∈ ({[ tmp ]} ∪ files) ∖ {[ tmp ]} <-> p ∈ files.
Proof. intros p Hp. rewrite elem_of_difference, elem_of_union, !elem_of_singleton. tauto. Qed.

Lemma temp_made (tmp : string) (files : gset string) :
  forall p, p <> tmp -> p ∈ {[ tmp ]} ∪ files <-> p ∈ files.
Proof. intros p Hp. rewrite elem_of_union, elem_of_singleton. tauto. Qed.

Lemma _rasterize_with_ghostscript_frame sys path dpi w :
  touches_only_temp sys w (_rasterize_with_ghostscript sys path dpi w).2.
Proof.
  destruct (_find_gs_exe sys) as [gs|] eqn:Hgs.
  - destruct (decide (resolve_path_on sys (disk w) path ∈ disk w)) as [Hin|Hin].
    + rewrite (_rasterize_with_ghostscript_eval sys path dpi w gs Hgs Hin).
      destruct (run_process sys _); [destruct (image_open sys _)|]; cbn;
        (split; [done|]); (split; [simpl; lia|]);
        simpl; first [apply temp_made | apply temp_made_and_removed].
    + unfold _rasterize_with_ghostscript. rewrite Hgs.
      unfold IO.bind, resolve_path, IO.exists_.
      rewrite (bool_decide_eq_false_2 _ Hin). apply touches_only_temp_refl.
  - unfold _rasterize_with_ghostscript. rewrite Hgs. apply touches_only_temp_refl.
Qed.

Lemma _rasterize_svg_with_inkscape_frame sys path dpi w :
  touches_only_temp sys w (_rasterize_svg_with_inkscape sys path dpi w).2.
Proof.
  destruct (_find_inkscape_exe_pure sys w) as [[inkscape|] Hexe].
  - destruct (decide (resolve_path_on sys (disk w) path ∈ disk w)) as [Hin|Hin].
    + rewrite (_rasterize_svg_with_inkscape_eval sys path dpi w inkscape Hexe Hin).
      destruct (run_process sys _); [destruct (image_open sys _)|]; cbn;
        (split; [done|]); (split; [simpl; lia|]);
        simpl; first [apply temp_made | apply temp_made_and_removed].
    + unfold _rasterize_svg_with_inkscape.
      rewrite (bind_ok _ _ w (Some inkscape) w Hexe).
      unfold IO.bind, resolve_path, IO.exists_.
      rewrite (bool_decide_eq_false_2 _ Hin). apply touches_only_temp_refl.
  - unfold _rasterize_svg_with_inkscape.
    rewrite (bind_ok _ _ w None w Hexe). apply touches_only_temp_refl.
Qed.

(** the cascade, branch by branch *)
Lemma open_image_any_eval sys path raster_dpi skip_gs_files skip_svg_files w :
  let path_abs := resolve_path_on sys (disk w) path in
  let ext := source_ext sys w path in
  open_image_any sys path raster_dpi skip_gs_files skip_svg_files w =
  if bool_decide (path_abs ∈ disk w) then
    if bool_decide (ext ∈ PS_PDF_EXTS) then
      match _rasterize_with_ghostscript sys path_abs raster_dpi w with
      | (Ok im, w1) => (Ok (Some im), w1)
      | (Raise e, w1) => (if skip_gs_files then Ok None else Raise e, w1)
      end
    else
      match image_open sys path_abs with
      | Some im => (Ok (Some im), w)
      | None =>
          if bool_decide (ext ∈ RAW_EXTS) then
            match raw_postprocess sys path_abs with
            | Some im => (Ok (Some im), w)
            | None => (Raise (RawDecodeFailed path_abs), w)
            end
          else if bool_decide (ext ∈ VECTOR_EXTS) then
            match svg2png sys path_abs raster_dpi with
            | Some im => (Ok (Some im), w)
            | None =>
                match _rasterize_svg_with_inkscape sys path_abs raster_dpi w with
                | (Ok im, w1) => (Ok (Some im), w1)
                | (Raise _, w1) =>
                    (if skip_svg_files then Ok None
                     else Raise (SvgRasterFailed path_abs), w1)
                end
            end
          else (Raise (UnsupportedFormat path_abs), w)
      end
  else (Raise (FileNotFound path_abs), w).
Proof.
  intros path_abs ext. unfold source_ext in ext. fold path_abs in ext.
  unfold open_image_any.
  unfold IO.bind at 1. unfold resolve_path. fold path_abs.
  unfold IO.bind at 1. unfold IO.exists_.
  destruct (bool_decide (path_abs ∈ disk w)); cbn [negb]; [|done].
  fold ext.
  destruct (bool_decide (ext ∈ PS_PDF_EXTS)).
  - unfold IO.try_except, IO.bind.
    destruct (_rasterize_with_ghostscript sys path_abs raster_dpi w) as [[im|e] w1]; [done|].
    by destruct skip_gs_files.
  - destruct (image_open sys path_abs); [done|].
    destruct (bool_decide (ext ∈ RAW_EXTS)).
    { by destruct (raw_postprocess sys path_abs). }
    destruct (bool_decide (ext ∈ VECTOR_EXTS)); [|done].
    destruct (svg2png sys path_abs raster_dpi); [done|].
    unfold IO.try_except, IO.bind.
    destruct (_rasterize_svg_with_inkscape sys path_abs raster_dpi w) as [[im|e] w1]; [done|].
    by destruct skip_svg_files.
Qed.

Lemma open_image_any_frame sys path raster_dpi skip_gs_files skip_svg_files w :
  touches_only_temp sys w
    (open_image_any sys path raster_dpi skip_gs_files skip_svg_files w).2.
Proof.
  rewrite open_image_any_eval. cbn zeta.
  destruct (bool_decide _); [|apply touches_only_temp_refl].
  destruct (bool_decide _).
  - pose proof (_rasterize_with_ghostscript_frame sys
                  (resolve_path_on sys (disk w) path) raster_dpi w) as H.
    by destruct (_rasterize_with_ghostscript _ _ _ _) as [[im|e] w1].
  - destruct (image_open _ _); [apply touches_only_temp_refl|].
    destruct (bool_decide _).
    { destruct (raw_postprocess _ _); apply touches_only_temp_refl. }
    destruct (bool_decide _); [|apply touches_only_temp_refl].
    destruct (svg2png _ _ _); [apply touches_only_temp_refl|].
    pose proof (_rasterize_svg_with_inkscape_frame sys
                  (resolve_path_on sys (disk w) path) raster_dpi w) as H.
    by destruct (_rasterize_svg_with_inkscape _ _ _ _) as [[im|e] w1].
Qed.

Lemma resolve_path_first_existing sys files path :
  resolve_path_on sys files path
  = default (abspath sys path)
      (List.find (fun c => bool_decide (c ∈ files)) (resolve_candidates sys path)).
Proof.
  unfold resolve_path_on, resolve_candidates.
  destruct (isabs sys path); cbn [andb app List.find].
  - destruct (bool_decide (path ∈ files)); [done|].
    destruct (bool_decide (abspath sys path ∈ files)); [done|].
    destruct (script_path sys path) as [s|]; cbn; [|done].
    by destruct (bool_decide (s ∈ files)).
  - destruct (bool_decide (abspath sys path ∈ files)); [done|].
    destruct (script_path sys path) as [s|]; cbn; [|done].
    by destruct (bool_decide (s ∈ files)).
Qed.

Lemma resolve_path_candidate sys files path :
  resolve_path_on sys files path ∈ resolve_candidates sys path.
Proof.
  unfold resolve_path_on, resolve_candidates.
  destruct (isabs sys path); cbn [andb app].
  - destruct (bool_decide (path ∈ files)); [in_list|].
    destruct (bool_decide (abspath sys path ∈ files)); [in_list|].
    destruct (script_path sys path) as [s|]; [|in_list].
    destruct (bool_decide (s ∈ files)); in_list.
  - destruct (bool_decide (abspath sys path ∈ files)); [in_list|].
    destruct (script_path sys path) as [s|]; [|in_list].
    destruct (bool_decide (s ∈ files)); in_list.
Qed.

(** a missing result is the candidate under the working directory *)
Lemma resolve_path_missing sys files path :
  resolve_path_on sys files path ∉ files ->
  resolve_path_on sys files path = abspath sys path.
Proof.
  unfold resolve_path_on.
  destruct (isabs sys path && bool_decide (path ∈ files)) eqn:E1.
  { apply andb_true_iff in E1 as [_ E1]. apply bool_decide_eq_true in E1. done. }
  destruct (decide (abspath sys path ∈ files)) as [H2|H2];
    [by rewrite (bool_decide_eq_true_2 _ H2) | rewrite (bool_decide_eq_false_2 _ H2)].
  destruct (script_path sys path) as [s|]; [|done].
  destruct (decide (s ∈ files)) as [H3|H3];
    [by rewrite (bool_decide_eq_true_2 _ H3) | by rewrite (bool_decide_eq_false_2 _ H3)].
Qed.

(** X5: [resolve_path] answers with one of its candidates: the path
    itself when absolute, the path under the working directory, the path
    beside the script.  It answers with an existing file whenever one of
    them exists, and with the path under the working directory when none
    does. *)
Theorem resolve_path_finds_existing sys files path :
  resolve_path_on sys files path ∈ resolve_candidates sys path
  /\ (resolve_path_on sys files path ∈ files
      <-> exists c, c ∈ resolve_candidates sys path /\ c ∈ files)
  /\ (resolve_path_on sys files path ∉ files ->
      resolve_path_on sys files path = abspath sys path).
Proof.
  split; [apply resolve_path_candidate|]. split; [|apply resolve_path_missing].
  split; [intros H; eexists; split; [apply resolve_path_candidate | exact H]|].
  intros (c & Hc & Hin). rewrite resolve_path_first_existing.
  destruct (List.find _ _) as [r|] eqn:Hfind.
  - apply find_some in Hfind as [_ Hr]. by apply bool_decide_eq_true in Hr.
  - pose proof (find_none _ _ Hfind c (proj1 (list_elem_of_In _ _) Hc)) as Hno.
    cbn beta in Hno. by rewrite (bool_decide_eq_true_2 _ Hin) in Hno.
Qed.



(** the answer depends only on which candidates exist *)
Lemma resolve_path_agree sys files files' path :
  (forall c, c ∈ resolve_candidates sys path -> c ∈ files <-> c ∈ files') ->
  resolve_path_on sys files path = resolve_path_on sys files' path.
Proof.
  intros H. rewrite !resolve_path_first_existing. f_equal.
  induction (resolve_candidates sys path) as [|c l IH]; [done|]. cbn.
  rewrite (bool_decide_ext (c ∈ files) (c ∈ files')) by (apply H; in_list).
  destruct (bool_decide (c ∈ files')); [done|].
  apply IH. intros c' Hc'. apply H. by apply list_elem_of_further.
Qed.



(** ** Flattening *)

Lemma pixel_at_zip_with {A B C} (f : A -> B -> C) (a : list (list A)) (b : list (list B)) x y :
  Grid.pixel_at (zip_with (zip_with f) a b) x y
  = match Grid.pixel_at a x y, Grid.pixel_at b x y with
    | Some p, Some q => Some (f p q)
    | _, _ => None
    end.
Proof.
  unfold Grid.pixel_at. destruct (_ && _); [|done].
  rewrite lookup_zip_with.
  destruct (a !! Z.to_nat y) as [ra|]; cbn; [|done].
  destruct (b !! Z.to_nat y) as [rb|]; cbn; [|by destruct (ra !! Z.to_nat x)].
  rewrite lookup_zip_with.
  destruct (ra !! Z.to_nat x); cbn; [|done]. by destruct (rb !! Z.to_nat x).
Qed.

Lemma has_shape_zip_with {A B C} (f : A -> B -> C) w h (a : list (list A)) (b : list (list B)) :
  Grid.has_shape w h a -> Grid.has_shape w h b ->
  Grid.has_shape w h (zip_with (zip_with f) a b).
Proof.
  intros [Hla Hra] [Hlb Hrb]. split; [rewrite length_zip_with; lia|].
  apply Forall_lookup. intros j row Hrow.
  apply lookup_zip_with_Some in Hrow as (ra & rb & -> & Ha & Hb).
  pose proof (proj1 (Forall_lookup _ _) Hra _ _ Ha).
  pose proof (proj1 (Forall_lookup _ _) Hrb _ _ Hb).
  cbn beta in *. rewrite length_zip_with. lia.
Qed.

(** the size of a grid of a known shape *)
Lemma has_shape_size {A} w h (g : list (list A)) :
  Grid.has_shape w h g -> 0 <= w -> 0 < h -> (Grid.width g, Grid.height g) = (w, h).
Proof.
  intros Hs Hw Hh.
  by rewrite (has_shape_width _ _ _ Hs), (has_shape_height _ _ _ Hs) by lia.
Qed.

Lemma pixel_at_inside {A} w h (g : list (list A)) x y p :
  Grid.has_shape w h g -> Grid.pixel_at g x y = Some p -> 0 <= x < w /\ 0 <= y < h.
Proof.
  intros [Hlen Hrows] (Hx & Hy & row & Hrow & Hp)%pixel_at_Some.
  pose proof (lookup_lt_Some _ _ _ Hrow). pose proof (lookup_lt_Some _ _ _ Hp).
  pose proof (proj1 (Forall_lookup _ _) Hrows _ _ Hrow). cbn beta in *. lia.
Qed.

(** [div255] is the division by 255, rounded to nearest *)
Lemma div255_spec a : 0 <= a <= 65025 -> Pillow.div255 a = (a + 127) / 255.
Proof.
  intros Ha. unfold Pillow.div255. cbn zeta. rewrite !Z.shiftr_div_pow2 by lia.
  change (2 ^ 8) with 256.
  pose proof (Z.div_mod (a + 127) 255 ltac:(lia)) as H1.
  pose proof (Z.mod_pos_bound (a + 127) 255 ltac:(lia)) as H2.
  set (r := (a + 127) / 255) in *. set (m := (a + 127) mod 255) in *.
  assert (0 <= r <= 255) as Hr by lia.
  assert ((a + 128) / 256 = r \/ (a + 128) / 256 = r - 1) as [E|E].
  { destruct (Z_lt_le_dec (a + 128) (256 * r)).
    - right. symmetry. apply (Z.div_unique _ _ _ (a + 128 - 256 * (r - 1))); lia.
    - left. symmetry. apply (Z.div_unique _ _ _ (a + 128 - 256 * r)); lia. }
  - rewrite E. symmetry. apply (Z.div_unique _ _ _ (r + (a + 128) - 256 * r)); lia.
  - rewrite E. symmetry. apply (Z.div_unique _ _ _ (r - 1 + (a + 128) - 256 * r)); lia.
Qed.

Lemma div_255_exact (a lo hi : Z) :
  255 * lo <= a <= 255 * hi -> lo <= (a + 127) / 255 <= hi.
Proof.
  intros Ha.
  pose proof (Z.div_mod (a + 127) 255 ltac:(lia)).
  pose proof (Z.mod_pos_bound (a + 127) 255 ltac:(lia)). lia.
Qed.

Lemma blend8_between m o i :
  0 <= m <= 255 -> 0 <= o <= 255 -> 0 <= i <= 255 ->
  between o i (Pillow.blend8 m o i)
  /\ (m = 255 -> Pillow.blend8 m o i = i) /\ (m = 0 -> Pillow.blend8 m o i = o).
Proof.
  intros Hm Ho Hi. unfold Pillow.blend8, between.
  assert (255 * Z.min o i <= o * (255 - m) + i * m <= 255 * Z.max o i) as Ha by nia.
  rewrite div255_spec by nia.
  split; [by apply div_255_exact|].
  split; intros ->.
  - pose proof (div_255_exact (o * (255 - 255) + i * 255) i i ltac:(lia)). lia.
  - pose proof (div_255_exact (o * (255 - 0) + i * 0) o o ltac:(lia)). lia.
Qed.

(** X7: flattening an RGBA image against a background colour gives an RGB
    image of the same size.  A fully opaque pixel keeps its colour, a fully
    transparent one takes the background colour, and in between every band
    lies between the band of the pixel and that of the background.  An
    image of another mode is returned as it is. *)
Theorem flatten_alpha_to_bg_blends im bg_color :
  Grid.rectangular (rows im) = true ->
  byte_pixel bg_color ->
  (forall x y p, Grid.pixel_at (rows im) x y = Some p -> byte_pixel p) ->
  (mode_of im <> RGBA -> flatten_alpha_to_bg im bg_color = Ok im)
  /\ (mode_of im = RGBA ->
      exists out,
        flatten_alpha_to_bg im bg_color = Ok out
        /\ mode_of out = RGB /\ Pillow.size out = Pillow.size im
        /\ forall x y p, Grid.pixel_at (rows im) x y = Some p ->
             exists q, Grid.pixel_at (rows out) x y = Some q
               /\ between (pr bg_color) (pr p) (pr q)
               /\ between (pg bg_color) (pg p) (pg q)
               /\ between (pb bg_color) (pb p) (pb q)
               /\ (pa p = 255 -> colour q = colour p)
               /\ (pa p = 0 -> colour q = colour bg_color)).
Proof.
  intros Hrect Hbg Hbytes. unfold flatten_alpha_to_bg. split.
  { intros Hm. by destruct (mode_of im). }
  intros Hm. rewrite Hm. cbn [mode_eqb negb].
  apply rectangular_has_shape in Hrect as Hshape.
  fold (Pillow.width im) (Pillow.height im) in Hshape.
  assert (0 <= Pillow.width im) as Hw.
  { unfold Pillow.width, Grid.width. destruct (rows im); lia. }
  assert (0 <= Pillow.height im) as Hh by (unfold Pillow.height, Grid.height; lia).
  destruct (new_shape RGB (Pillow.width im) (Pillow.height im) bg_color Hw Hh)
    as (bg & Hnew & Hmode & Hbgshape).
  unfold Pillow.size at 1. rewrite Hnew. eexists. split; [reflexivity|].
  unfold Pillow.paste_masked, Pillow.split_last, Pillow.fresh. cbn [mode_of rows].
  split; [exact Hmode|].
  match goal with |- context [zip_with zip (rows im) ?m] => set (mask := m) end.
  match goal with |- context [zip_with (zip_with ?f) (rows bg) _] => set (blend := f) end.
  assert (Grid.has_shape (Pillow.width im) (Pillow.height im)
            (zip_with (zip_with blend) (rows bg) (zip_with zip (rows im) mask))) as Hout.
  { apply has_shape_zip_with; [exact Hbgshape|].
    apply has_shape_zip_with; [exact Hshape|]. by apply has_shape_map. }
  split.
  { unfold Pillow.size, Pillow.width, Pillow.height in *. cbn [rows].
    destruct (rows im) as [|row g] eqn:Hrows.
    - by destruct (rows bg).
    - apply has_shape_size; [exact Hout|lia|]. unfold Grid.height. cbn. lia. }
  intros x y p Hp.
  destruct (pixel_at_inside _ _ _ _ _ _ Hshape Hp) as [Hx Hy].
  assert (Grid.pixel_at (rows bg) x y = Some bg_color) as Hb.
  { unfold Pillow.new in Hnew. cbn [fst snd] in Hnew.
    destruct (_ || _); [discriminate|]. injection Hnew as <-.
    cbn. by apply pixel_at_tabulate. }
  rewrite pixel_at_zip_with, Hb, (pixel_at_zip_with pair), Hp.
  unfold mask. rewrite pixel_at_map, Hp, Hm. cbn.
  eexists. split; [reflexivity|].
  destruct (Hbytes _ _ _ Hp) as (Hr & Hg & Hbl & Ha).
  destruct Hbg as (Hr' & Hg' & Hb' & _).
  destruct (blend8_between (pa p) (pr bg_color) (pr p) Ha Hr' Hr) as (B1 & O1 & T1).
  destruct (blend8_between (pa p) (pg bg_color) (pg p) Ha Hg' Hg) as (B2 & O2 & T2).
  destruct (blend8_between (pa p) (pb bg_color) (pb p) Ha Hb' Hbl) as (B3 & O3 & T3).
  unfold colour. cbn.
  split; [exact B1|]. split; [exact B2|]. split; [exact B3|].
  split; intros E; by rewrite ?O1, ?O2, ?O3, ?T1, ?T2, ?T3 by exact E.
Qed.

Lemma flatten_alpha_to_bg_blends_witness :
  flatten_alpha_to_bg Sample.sticker white
    = Ok (Image RGB
            [ [white; white; white];
              [white; Px 200 30 30 255; white];
              [white; white; white] ] None)
  /\ flatten_alpha_to_bg Sample.photo white = Ok Sample.photo.
Proof.
  destruct (flatten_alpha_to_bg_blends Sample.sticker white) as [_ Hrgba];
    [reflexivity | unfold byte_pixel; cbn; lia | |].
  { intros x y p Hp. apply pixel_at_Some in Hp as (Hx & Hy & row & Hrow & Hp).
    destruct (Z.to_nat y) as [|[|[|]]]; cbn in Hrow; try discriminate;
      injection Hrow as <-;
      destruct (Z.to_nat x) as [|[|[|]]]; cbn in Hp; try discriminate;
      injection Hp as <-; unfold byte_pixel; cbn; lia. }
  split; [vm_compute; reflexivity|].
  apply (flatten_alpha_to_bg_blends Sample.photo white);
    [reflexivity | unfold byte_pixel; cbn; lia | | discriminate].
  intros x y p Hp. apply pixel_at_Some in Hp as (Hx & Hy & row & Hrow & Hp).
  destruct (Z.to_nat y) as [|[|]]; cbn in Hrow; try discriminate;
    injection Hrow as <-;
    destruct (Z.to_nat x) as [|[|[|]]]; cbn in Hp; try discriminate;
    injection Hp as <-; unfold byte_pixel; cbn; lia.
Defined.

(** ** Cropping *)

(** what [getbbox] finds on a grid of a known shape *)
Lemma getbbox_tight {A} (nz : A -> bool) w h (g : list (list A)) b :
  Grid.has_shape w h g -> 0 <= w ->
  Grid.getbbox nz g = Some b ->
  tight_box (fun x y => exists p, Grid.pixel_at g x y = Some p /\ nz p = true) b.
Proof.
  intros Hs Hw Hb. destruct b as [[[l u] r] d].
  pose proof (getbbox_bounds _ _ _ _ _ _ Hb) as (Hl & Hr & Hu & Hd).
  assert (0 < h) as Hh.
  { destruct Hs as [Hlen _]. unfold Grid.height in Hd. lia. }
  pose proof (has_shape_width _ _ _ Hs Hh Hw) as Hwidth.
  assert (forall x y, (x, y) ∈ Grid.hits nz g
            <-> exists p, Grid.pixel_at g x y = Some p /\ nz p = true) as Hhit.
  { intros x y. rewrite elem_of_hits. split; [tauto|].
    intros (p & Hp & Hnz). split; [|eauto].
    destruct (pixel_at_inside _ _ _ _ _ _ Hs Hp). lia. }
  destruct (getbbox_is_bbox _ _ _ Hb) as (Hin & [y1 H1] & [y2 H2] & [x3 H3] & [x4 H4]).
  unfold tight_box. split; [|split; [|split; [|split]]].
  - intros x y Hxy. by apply Hin, Hhit.
  - exists y1. by apply Hhit.
  - exists y2. by apply Hhit.
  - exists x3. by apply Hhit.
  - exists x4. by apply Hhit.
Qed.

Lemma getbbox_nothing {A} (nz : A -> bool) w h (g : list (list A)) x y p :
  Grid.has_shape w h g -> 0 <= w ->
  Grid.getbbox nz g = None -> Grid.pixel_at g x y = Some p -> nz p = false.
Proof.
  intros Hs Hw Hb%getbbox_None Hp. destruct (nz p) eqn:Hnz; [|done].
  destruct (pixel_at_inside _ _ _ _ _ _ Hs Hp) as [Hx Hy].
  assert ((x, y) ∈ Grid.hits nz g) as Hin.
  { apply elem_of_hits. split; [|eauto].
    rewrite (has_shape_width _ _ _ Hs); lia. }
  rewrite Hb in Hin. by apply elem_of_nil in Hin.
Qed.

Lemma crop_cut_out fill w h (g : list (list pixel)) l u r d :
  Grid.has_shape w h g ->
  0 <= l < r -> r <= w -> 0 <= u < d -> d <= h ->
  cut_out (l, u, r, d) w h g (Grid.crop fill (l, u, r, d) g).
Proof.
  intros Hs Hl Hr Hu Hd. unfold cut_out.
  split; [exact Hl|]. split; [exact Hr|]. split; [exact Hu|]. split; [exact Hd|].
  split; [apply has_shape_crop|].
  intros x y Hx Hy. rewrite pixel_at_crop by lia.
  destruct (has_shape_pixel_at w h g (l + x) (u + y) Hs) as [p ->]; [lia..|]. done.
Qed.

Lemma nonzero_diff_pixel p bg :
  Pillow.nonzero RGB (Pillow.diff_pixel p bg) = true <-> colour p <> colour bg.
Proof.
  unfold Pillow.nonzero, Pillow.diff_pixel, colour. cbn.
  rewrite negb_true_iff, !andb_false_iff, !Z.eqb_neq.
  split.
  - intros H [= E1 E2 E3]. lia.
  - intros H.
    destruct (decide (pr p = pr bg)) as [E1|]; [|lia].
    destruct (decide (pg p = pg bg)) as [E2|]; [|lia].
    destruct (decide (pb p = pb bg)) as [E3|]; [|lia].
    destruct H. congruence.
Qed.

Lemma image_dims_nonneg im : 0 <= Pillow.width im /\ 0 <= Pillow.height im.
Proof.
  unfold Pillow.width, Pillow.height, Grid.width, Grid.height.
  destruct (rows im); lia.
Qed.

(** X8: [autocrop_white] never raises.  It works on the RGB form of the
    image and cuts it to the smallest box that holds every pixel whose
    colour differs from the background colour: only background is cut away,
    each edge of the box holds a pixel that differs, and the pixels inside
    are unchanged.  An image that is background throughout is returned
    whole. *)
Theorem autocrop_white_cuts_background im bg :
  Grid.rectangular (rows im) = true ->
  let rgb := if mode_eqb (mode_of im) RGB then im else Pillow.convert_RGB im in
  let differs x y :=
    exists p, Grid.pixel_at (rows rgb) x y = Some p /\ colour p <> colour bg in
  ((forall x y, ~ differs x y) /\ autocrop_white im bg = Ok rgb)
  \/ exists b out,
       autocrop_white im bg = Ok out /\ mode_of out = RGB
       /\ tight_box differs b
       /\ cut_out b (Pillow.width im) (Pillow.height im) (rows rgb) (rows out).
Proof.
  intros Hrect rgb differs. unfold autocrop_white. fold rgb.
  assert (mode_of rgb = RGB) as Hmode.
  { unfold rgb. by destruct (mode_of im) eqn:E. }
  assert (Pillow.size rgb = Pillow.size im) as Hsize.
  { unfold rgb. destruct (mode_eqb _ _); [done|]. apply size_convert_RGB. }
  assert (Grid.has_shape (Pillow.width im) (Pillow.height im) (rows rgb)) as Hshape.
  { apply rectangular_has_shape in Hrect. unfold rgb.
    destruct (mode_eqb _ _); [done|]. cbn. by apply has_shape_map. }
  destruct (image_dims_nonneg im) as [Hw Hh].
  rewrite Hsize. unfold Pillow.size.
  destruct (new_shape RGB (Pillow.width im) (Pillow.height im) bg Hw Hh)
    as (bg_img & Hnew & Hbgmode & Hbgshape).
  rewrite Hnew. unfold Pillow.difference. rewrite Hmode, Hbgmode. cbn [mode_eqb].
  unfold Pillow.getbbox, Pillow.fresh. cbn [mode_of rows].
  set (diff := zip_with (zip_with Pillow.diff_pixel) (rows rgb) (rows bg_img)).
  assert (Grid.has_shape (Pillow.width im) (Pillow.height im) diff) as Hdshape
    by (by apply has_shape_zip_with).
  assert (forall x y, Grid.pixel_at (rows bg_img) x y = Some bg
                      \/ Grid.pixel_at (rows bg_img) x y = None) as Hbgpix.
  { intros x y. unfold Pillow.new in Hnew. cbn [fst snd] in Hnew.
    destruct (_ || _); [discriminate|]. injection Hnew as <-. cbn.
    destruct (Grid.pixel_at _ x y) as [q|] eqn:Hq; [|auto].
    apply pixel_at_tabulate_inv in Hq as (_ & _ & ->). auto. }
  assert (forall x y,
            (exists p, Grid.pixel_at diff x y = Some p /\ Pillow.nonzero RGB p = true)
            <-> differs x y) as Hdiff.
  { intros x y. unfold differs, diff. rewrite pixel_at_zip_with. split.
    - intros (q & Hq & Hnz).
      destruct (Grid.pixel_at (rows rgb) x y) as [p|]; [|discriminate].
      destruct (Grid.pixel_at (rows bg_img) x y) as [b|] eqn:Hb; [|discriminate].
      destruct (Hbgpix x y) as [E|E]; rewrite E in Hb; [|discriminate].
      injection Hb as <-. injection Hq as <-.
      exists p. split; [done|]. by apply nonzero_diff_pixel.
    - intros (p & Hp & Hne). rewrite Hp.
      destruct (pixel_at_inside _ _ _ _ _ _ Hshape Hp) as [Hx Hy].
      destruct (has_shape_pixel_at _ _ _ x y Hbgshape Hx Hy) as [b Hb].
      rewrite Hb. destruct (Hbgpix x y) as [E|E]; rewrite E in Hb; [|discriminate].
      injection Hb as <-. eexists. split; [reflexivity|]. by apply nonzero_diff_pixel. }
  destruct (Grid.getbbox (Pillow.nonzero RGB) diff) as [[[[l u] r] d]|] eqn:Hb.
  - right. exists (l, u, r, d). eexists. split; [reflexivity|]. split; [exact Hmode|].
    split.
    + pose proof (getbbox_tight _ _ _ _ _ Hdshape Hw Hb) as (Hin & [y1 H1] & [y2 H2]
        & [x3 H3] & [x4 H4]).
      unfold tight_box. split; [|split; [|split; [|split]]].
      * intros x y Hxy. by apply Hin, Hdiff.
      * exists y1. by apply Hdiff.
      * exists y2. by apply Hdiff.
      * exists x3. by apply Hdiff.
      * exists x4. by apply Hdiff.
    + pose proof (getbbox_bounds _ _ _ _ _ _ Hb) as (Hl & Hr & Hu & Hd).
      assert (0 < Pillow.height im) as Hpos.
      { destruct Hdshape as [Hlen _]. unfold Grid.height in Hd. lia. }
      rewrite (has_shape_width _ _ _ Hdshape Hpos Hw) in Hr.
      rewrite (has_shape_height _ _ _ Hdshape Hh) in Hd.
      cbn [rows Pillow.crop Pillow.fresh]. by apply crop_cut_out.
  - left. split; [|reflexivity].
    intros x y Hxy. apply Hdiff in Hxy as (p & Hp & Hnz).
    by rewrite (getbbox_nothing _ _ _ _ _ _ _ Hdshape Hw Hb Hp) in Hnz.
Qed.

Lemma autocrop_white_cuts_background_witness :
  exists b out,
    autocrop_white Sample.framed white = Ok out /\ mode_of out = RGB
    /\ tight_box
         (fun x y => exists p, Grid.pixel_at (rows Sample.framed) x y = Some p
                               /\ colour p <> colour white) b
    /\ cut_out b 3 3 (rows Sample.framed) (rows out).
Proof.
  destruct (autocrop_white_cuts_background Sample.framed white eq_refl) as [[Hnone _]|H].
  - destruct (Hnone 1 1). exists Sample.black. split; [reflexivity|discriminate].
  - exact H.
Defined.

(** X9: [autocrop_auto] on an image with a pixel that is not fully
    transparent answers with the RGBA form of the image, cut to the smallest
    box that holds every such pixel: only fully transparent pixels are cut
    away, each edge of the box holds a pixel that is not, and the pixels
    inside are unchanged.  On an image without such a pixel the answer is
    that of [autocrop_white] against white. *)
Theorem autocrop_auto_cuts_transparent im :
  Grid.rectangular (rows im) = true ->
  let rgba := Pillow.convert_RGBA im in
  let visible x y :=
    exists p, Grid.pixel_at (rows rgba) x y = Some p /\ pa p <> 0 in
  ((forall x y, ~ visible x y) /\ autocrop_white im white = Ok (autocrop_auto im))
  \/ exists b,
       autocrop_auto im = Pillow.crop b rgba
       /\ tight_box visible b
       /\ cut_out b (Pillow.width im) (Pillow.height im) (rows rgba)
            (rows (autocrop_auto im)).
Proof.
  intros Hrect rgba visible.
  destruct (image_dims_nonneg im) as [Hw Hh].
  assert (Grid.has_shape (Pillow.width im) (Pillow.height im) (rows rgba)) as Hshape.
  { apply rectangular_has_shape in Hrect. cbn. by apply has_shape_map. }
  assert (forall x y,
            (exists p, Grid.pixel_at (rows rgba) x y = Some p /\ not_transparent p = true)
            <-> visible x y) as Hvis.
  { intros x y. unfold visible, not_transparent.
    split; intros (p & Hp & Ha); exists p; (split; [done|]);
      revert Ha; rewrite negb_true_iff, Z.eqb_neq; done. }
  destruct (Grid.getbbox not_transparent (rows rgba)) as [[[[l u] r] d]|] eqn:Hb.
  - right. exists (l, u, r, d). rewrite (autocrop_auto_alpha im _ Hb). fold rgba.
    split; [reflexivity|]. split.
    + pose proof (getbbox_tight _ _ _ _ _ Hshape Hw Hb) as (Hin & [y1 H1] & [y2 H2]
        & [x3 H3] & [x4 H4]).
      unfold tight_box. split; [|split; [|split; [|split]]].
      * intros x y Hxy. by apply Hin, Hvis.
      * exists y1. by apply Hvis.
      * exists y2. by apply Hvis.
      * exists x3. by apply Hvis.
      * exists x4. by apply Hvis.
    + pose proof (getbbox_bounds _ _ _ _ _ _ Hb) as (Hl & Hr & Hu & Hd).
      assert (0 < Pillow.height im) as Hpos.
      { destruct Hshape as [Hlen _]. unfold Grid.height in Hd. lia. }
      rewrite (has_shape_width _ _ _ Hshape Hpos Hw) in Hr.
      rewrite (has_shape_height _ _ _ Hshape Hh) in Hd.
      cbn [rows Pillow.crop Pillow.fresh]. by apply crop_cut_out.
  - left. split.
    + intros x y Hxy. apply Hvis in Hxy as (p & Hp & Hnz).
      by rewrite (getbbox_nothing _ _ _ _ _ _ _ Hshape Hw Hb Hp) in Hnz.
    + rewrite (autocrop_auto_no_alpha im Hb).
      by destruct (autocrop_white_RGB im white) as (out & -> & _).
Qed.

Lemma autocrop_auto_cuts_transparent_witness :
  exists b,
    autocrop_auto Sample.sticker = Pillow.crop b Sample.sticker
    /\ tight_box
         (fun x y => exists p, Grid.pixel_at (rows Sample.sticker) x y = Some p
                               /\ pa p <> 0) b
    /\ cut_out b 3 3 (rows Sample.sticker) (rows (autocrop_auto Sample.sticker)).
Proof.
  destruct (autocrop_auto_cuts_transparent Sample.sticker eq_refl) as [[Hnone _]|H].
  - destruct (Hnone 1 1). exists (Px 200 30 30 255). split; [reflexivity|discriminate].
  - exact H.
Defined.

(** ** Aspect ratio in the "fit" mode *)

(** a side of [j] pixels scaled by a ratio within one rounding of [t / i]
    lands within one pixel of [j * t / i] *)
Lemma scaled_near (i j t : Z) (r : Q) :
  0 < i -> 0 < j -> 0 < t -> t * j < dim_bound * i ->
  (inject_Z t / inject_Z i * (1 - Float.u) <= r
     <= inject_Z t / inject_Z i * (1 + Float.u))%Q ->
  Z.abs (Z.max 1 (Float.round_half_even (Float.mul (Float.of_int j) r)) * i - t * j) < i.
Proof.
  intros Hi Hj Ht Hb [Hrlo Hrhi].
  pose proof (inject_Z_pos _ Hi) as Hi'. pose proof (inject_Z_pos _ Hj) as Hj'.
  pose proof (inject_Z_pos _ Ht) as Ht'.
  set (A := (inject_Z t / inject_Z i)%Q) in *.
  assert (0 < A)%Q as HA.
  { unfold A. apply Qlt_shift_div_l; [exact Hi'|]. by rewrite Qmult_0_l. }
  assert (0 < r)%Q as Hr by (unfold Float.u in *; lra).
  pose proof (scaled_bounds j r Hj Hr) as [Hvlo Hvhi].
  set (v := Float.mul (Float.of_int j) r) in *.
  pose proof (FloatFacts.round_half_even_bounds v) as [Hnlo Hnhi].
  set (n := Float.round_half_even v) in *.
  set (E := (inject_Z j * A)%Q).
  assert (E * inject_Z i == inject_Z (t * j))%Q as HE.
  { unfold E, A. rewrite inject_Z_mult. field. lra. }
  assert (0 < E)%Q as HE0.
  { unfold E. rewrite <- (Qmult_0_l A). by apply Qmult_lt_compat_r. }
  assert (E < 1125899906842624)%Q as HEb.
  { assert (inject_Z (t * j) < inject_Z (dim_bound * i))%Q as H by (by rewrite <- Zlt_Qlt).
    rewrite <- HE in H. rewrite inject_Z_mult in H.
    change (inject_Z dim_bound) with 1125899906842624%Q in H.
    apply Qmult_lt_r in H; [exact H|exact Hi']. }
  assert (E * (1 - Float.u) <= inject_Z j * r <= E * (1 + Float.u))%Q as [HXlo HXhi].
  { unfold E. split.
    - assert (inject_Z j * A * (1 - Float.u) == inject_Z j * (A * (1 - Float.u)))%Q as ->
        by ring.
      rewrite !(Qmult_comm (inject_Z j)). apply Qmult_le_compat_r; lra.
    - assert (inject_Z j * A * (1 + Float.u) == inject_Z j * (A * (1 + Float.u)))%Q as ->
        by ring.
      rewrite !(Qmult_comm (inject_Z j)). apply Qmult_le_compat_r; lra. }
  set (X := (inject_Z j * r)%Q) in *.
  assert (E - 1 < inject_Z (Z.max 1 n) < E + 1)%Q as [Hlo Hhi].
  { destruct (Z.max_spec 1 n) as [[Hlt ->]|[Hge ->]].
    - unfold Float.u in *. split; lra.
    - assert (inject_Z n <= inject_Z 1)%Q as Hn by (by rewrite <- Zle_Qle).
      change (inject_Z 1) with 1%Q in *. unfold Float.u in *. split; lra. }
  assert (inject_Z (Z.max 1 n * i) < inject_Z (t * j + i))%Q as H1.
  { rewrite inject_Z_plus, inject_Z_mult, <- HE.
    assert (E * inject_Z i + inject_Z i == (E + 1) * inject_Z i)%Q as -> by ring.
    by apply Qmult_lt_compat_r. }
  assert (inject_Z (t * j - i) < inject_Z (Z.max 1 n * i))%Q as H2.
  { unfold Z.sub. rewrite inject_Z_plus, inject_Z_opp, inject_Z_mult, <- HE.
    rewrite (inject_Z_mult (Z.max 1 n)).
    assert (E * inject_Z i + - inject_Z i == (E - 1) * inject_Z i)%Q as -> by ring.
    by apply Qmult_lt_compat_r. }
  rewrite <- Zlt_Qlt in H1, H2. lia.
Qed.

(** the ratio of the "fit" mode, against the exact ratio of the binding
    side *)
Lemma fit_ratio_bounds (i j t s : Z) :
  0 < i -> 0 < j -> 0 < t -> 0 < s -> t * j <= s * i ->
  let r := Float.min (Float.int_truediv t i) (Float.int_truediv s j) in
  let r' := Float.min (Float.int_truediv s j) (Float.int_truediv t i) in
  (inject_Z t / inject_Z i * (1 - Float.u) <= r <= inject_Z t / inject_Z i * (1 + Float.u))%Q
  /\ (inject_Z t / inject_Z i * (1 - Float.u) <= r'
        <= inject_Z t / inject_Z i * (1 + Float.u))%Q.
Proof.
  intros Hi Hj Ht Hs Hbind r r'.
  pose proof (int_truediv_bounds t i Ht Hi) as [Halo Hahi].
  pose proof (int_truediv_bounds s j Hs Hj) as [Hblo Hbhi].
  pose proof (ratio_le_cross t i s j Hi Hj Hbind) as HAB.
  assert (inject_Z t / inject_Z i * (1 - Float.u)
          <= inject_Z s / inject_Z j * (1 - Float.u))%Q as Hlow
    by (apply Qmult_le_compat_r; [exact HAB | unfold Float.u; lra]).
  split.
  - pose proof (FloatFacts.min_le_l (Float.int_truediv t i) (Float.int_truediv s j)) as Hl.
    fold r in Hl. split; [|lra].
    destruct (min_cases (Float.int_truediv t i) (Float.int_truediv s j)) as [E|E];
      fold r in E; rewrite E; lra.
  - pose proof (FloatFacts.min_le_r (Float.int_truediv s j) (Float.int_truediv t i)) as Hl.
    fold r' in Hl. split; [|lra].
    destruct (min_cases (Float.int_truediv s j) (Float.int_truediv t i)) as [E|E];
      fold r' in E; rewrite E; lra.
Qed.

(** X10: the "fit" mode keeps the aspect ratio to within one pixel: when
    the width is the binding side the scaled height differs from
    [im_h * target_w / im_w] by less than one, and likewise for the width
    when the height binds.  The sides of the canvas are below [dim_bound]. *)
Theorem fit_size_keeps_aspect im_w im_h target_w target_h new_w new_h :
  0 < im_w -> 0 < im_h ->
  0 < target_w < dim_bound -> 0 < target_h < dim_bound ->
  fit_size im_w im_h target_w target_h = Ok (new_w, new_h) ->
  (target_w * im_h <= target_h * im_w ->
   Z.abs (new_h * im_w - target_w * im_h) < im_w)
  /\ (target_h * im_w <= target_w * im_h ->
      Z.abs (new_w * im_h - target_h * im_w) < im_h).
Proof.
  intros Hiw Hih Htw Hth. unfold fit_size.
  destruct (Z.eqb_spec im_w 0); [lia|]. destruct (Z.eqb_spec im_h 0); [lia|].
  cbn [orb]. intros [= <- <-]. split; intros Hbind.
  - apply scaled_near; [lia..| |].
    + unfold dim_bound in *. nia.
    + apply (fit_ratio_bounds im_w im_h target_w target_h); lia.
  - apply scaled_near; [lia..| |].
    + unfold dim_bound in *. nia.
    + apply (fit_ratio_bounds im_h im_w target_h target_w); lia.
Qed.

Lemma fit_size_keeps_aspect_witness :
  fit_size 1200 1000 3508 2480 = Ok (2976, 2480)
  /\ Z.abs (2976 * 1000 - 2480 * 1200) < 1000.
Proof.
  split; [vm_compute; reflexivity|].
  apply (fit_size_keeps_aspect 1200 1000 3508 2480 2976 2480);
    first [lia | vm_compute; reflexivity | split; [lia | vm_compute; reflexivity]].
Defined.

(** ** Padding in the "fit" mode *)






(** ** What leaves the decoder cascade *)





(** [open_image_any] answers [None] for a skipped file only *)
Lemma open_image_any_None sys path raster_dpi skip_gs_files skip_svg_files w w1 :
  open_image_any sys path raster_dpi skip_gs_files skip_svg_files w = (Ok None, w1) ->
  (skip_gs_files = true /\ source_ext sys w path ∈ PS_PDF_EXTS)
  \/ (skip_svg_files = true /\ source_ext sys w path ∈ VECTOR_EXTS
      /\ source_ext sys w path ∉ PS_PDF_EXTS).
Proof.
  rewrite open_image_any_eval. cbn zeta.
  destruct (bool_decide _); [|discriminate].
  destruct (bool_decide (source_ext sys w path ∈ PS_PDF_EXTS)) eqn:Eps.
  - apply bool_decide_eq_true in Eps.
    destruct (_rasterize_with_ghostscript _ _ _ _) as [[im|e'] w2]; [discriminate|].
    destruct skip_gs_files; [auto|discriminate].
  - apply bool_decide_eq_false in Eps.
    destruct (image_open _ _); [discriminate|].
    destruct (bool_decide _).
    { destruct (raw_postprocess _ _); discriminate. }
    destruct (bool_decide (source_ext sys w path ∈ VECTOR_EXTS)) eqn:Ev; [|discriminate].
    apply bool_decide_eq_true in Ev.
    destruct (svg2png _ _ _); [discriminate|].
    destruct (_rasterize_svg_with_inkscape _ _ _ _) as [[im|e'] w2]; [discriminate|].
    destruct skip_svg_files; [auto|discriminate].
Qed.

(** ** The pipeline, step by step *)

Lemma finalizer_world (t : option string) (w : world) :
  ((if truthy t then IO.try_except (IO.remove (default "" t)) (fun _ => IO.ret tt)
    else IO.ret tt) w).2 = after_cleanup t w.
Proof.
  unfold after_cleanup. destruct (truthy t); [|done].
  unfold IO.try_except, IO.remove.
  destruct (decide (default "" t ∈ disk w)) as [Hin|Hin].
  - by rewrite (bool_decide_eq_true_2 _ Hin).
  - rewrite (bool_decide_eq_false_2 _ Hin). cbn. destruct w as [d n s]. cbn in *.
    f_equal. symmetry. apply difference_disjoint_L. by apply disjoint_singleton_r.
Qed.

Lemma error_record_eval sys src_path w :
  exists code msg,
    error_record sys src_path w
      = (Ok (Error code msg (resolve_path_on sys (disk w) src_path)), w)
    /\ (if bool_decide (source_ext sys w src_path ∈ PS_PDF_EXTS) then code = "GS_REQUIRED"
        else if bool_decide (source_ext sys w src_path ∈ VECTOR_EXTS)
             then code = "SVG_TOOL_REQUIRED"
             else code = "UNREADABLE").
Proof.
  unfold error_record, IO.bind, resolve_path, source_ext. cbn beta iota.
  destruct (bool_decide _); [eauto|]. destruct (bool_decide _); eauto.
Qed.

(** the steps after decoding, up to the [finally] block *)
Lemma resize_to_a_size_eval
    sys src_path out_path sizes_mm size_key dpi mode landscape bg_color
    skip_gs_files skip_svg_files autocrop flatten_alpha w :
  resize_to_a_size sys src_path out_path sizes_mm size_key dpi mode landscape
      bg_color skip_gs_files skip_svg_files autocrop flatten_alpha w =
  match paper_size_px size_key dpi landscape sizes_mm with
  | Raise e => (Raise e, w)
  | Ok target =>
      match open_image_any sys src_path dpi skip_gs_files skip_svg_files w with
      | (Raise e, w1) => (Raise e, w1)
      | (Ok None, w1) => error_record sys src_path w1
      | (Ok (Some im), w1) =>
          match preprocess sys im autocrop flatten_alpha bg_color with
          | Raise e => (Raise e, after_cleanup (temp_raster_path im) w1)
          | Ok im' =>
              match compose sys im' mode target.1 target.2 bg_color out_path with
              | Raise e => (Raise e, after_cleanup (temp_raster_path im) w1)
              | Ok out =>
                  if can_save sys out out_path then
                    let w2 := World ({[ out_path ]} ∪ disk w1) (temp_count w1)
                                    ((out_path, out, dpi) :: saved w1) in
                    (Ok (Success {|
                       rec_size_dict := size_dict_name sizes_mm;
                       rec_size_key := Str.upper size_key;
                       rec_dpi := dpi;
                       rec_mode := mode;
                       rec_landscape := landscape;
                       rec_target_px := target;
                       rec_output := out_path;
                       rec_src_path := resolve_path_on sys (disk w2) src_path |}),
                     after_cleanup (temp_raster_path im) w2)
                  else (Raise (SaveFailed out_path), after_cleanup (temp_raster_path im) w1)
              end
          end
      end
  end.
Proof.
  unfold resize_to_a_size. unfold IO.bind at 1, IO.lift at 1.
  destruct (paper_size_px _ _ _ _) as [[target_w target_h]|e]; [|done].
  unfold IO.bind at 1.
  destruct (open_image_any _ _ _ _ _ _) as [[[im|]|e] w1]; [|done..].
  unfold IO.try_finally.
  match goal with |- (let (r, w') := ?body in _) = _ => destruct body as [r w2] eqn:Hbody end.
  rewrite finalizer_world. revert Hbody.
  unfold IO.bind at 1, IO.lift at 1.
  destruct (preprocess _ _ _ _ _) as [im'|e]; [|by intros [= <- <-]].
  unfold IO.bind at 1, IO.lift at 1. cbn [fst snd].
  destruct (compose _ _ _ _ _ _ _) as [out|e]; [|by intros [= <- <-]].
  unfold IO.bind at 1, IO.save.
  destruct (can_save sys out out_path); [|by intros [= <- <-]].
  unfold IO.bind, resolve_path, IO.ret. cbn. by intros [= <- <-].
Qed.

Lemma saved_after_cleanup t w : saved (after_cleanup t w) = saved w.
Proof. unfold after_cleanup. by destruct (truthy t). Qed.

Lemma temp_count_after_cleanup t w : temp_count (after_cleanup t w) = temp_count w.
Proof. unfold after_cleanup. by destruct (truthy t). Qed.

(** a path found once is found again after [open_image_any], when the
    temporary file is none of the candidates *)
Lemma resolve_after_open sys src_path w w1 :
  touches_only_temp sys w w1 ->
  temp_name sys (temp_count w) ∉ resolve_candidates sys src_path ->
  resolve_path_on sys (disk w1) src_path = resolve_path_on sys (disk w) src_path.
Proof.
  intros (_ & _ & Hdisk) Hfresh. apply resolve_path_agree.
  intros c Hc. apply Hdisk. intros ->. by apply Hfresh.
Qed.

(** ** Errors before decoding *)

(** X13: an unknown size key is reported before the source is looked at:
    the call raises the [ValueError] of [paper_size_px], with the key as
    given and the keys of the dictionary, and the world is untouched,
    whether or not the source exists. *)
Theorem size_key_checked_first
    sys src_path out_path sizes_mm size_key dpi mode landscape bg_color
    skip_gs_files skip_svg_files autocrop flatten_alpha w :
  items sizes_mm !! Str.upper size_key = None ->
  resize_to_a_size sys src_path out_path sizes_mm size_key dpi mode landscape
      bg_color skip_gs_files skip_svg_files autocrop flatten_alpha w
    = (Raise (UnknownSizeKey size_key (elements (dom (items sizes_mm)))), w).
Proof.
  intros Hkey. rewrite resize_to_a_size_eval. unfold paper_size_px. by rewrite Hkey.
Qed.

Lemma size_key_checked_first_witness :
  resize_to_a_size Sample.bare "nothing.png" "/work/out.png" A_SIZES_MM "A5" 300
      "fit" "vertical" white true true true true Sample.start
    = (Raise (UnknownSizeKey "A5" (elements (dom (items A_SIZES_MM)))), Sample.start).
Proof.
  apply (size_key_checked_first Sample.bare "nothing.png" "/work/out.png" A_SIZES_MM "A5"
           300 "fit" "vertical" white true true true true Sample.start).
  vm_compute. reflexivity.
Defined.

(** X14: when none of the places where the source is looked for holds a
    file, the call raises [FileNotFoundError] naming the path under the
    working directory, for every extension and every value of the flags,
    and the world is untouched. *)
Theorem missing_source_raises
    sys src_path out_path sizes_mm size_key dpi mode landscape bg_color
    skip_gs_files skip_svg_files autocrop flatten_alpha w target :
  paper_size_px size_key dpi landscape sizes_mm = Ok target ->
  (forall c, c ∈ resolve_candidates sys src_path -> c ∉ disk w) ->
  resize_to_a_size sys src_path out_path sizes_mm size_key dpi mode landscape
      bg_color skip_gs_files skip_svg_files autocrop flatten_alpha w
    = (Raise (FileNotFound (abspath sys src_path)), w).
Proof.
  intros Hsize Hnone.
  pose proof (Hnone _ (resolve_path_candidate sys (disk w) src_path)) as Hmiss.
  pose proof (resolve_path_missing sys (disk w) src_path Hmiss) as Habs.
  rewrite resize_to_a_size_eval, Hsize, open_image_any_eval. cbn zeta.
  rewrite (bool_decide_eq_false_2 _ Hmiss). by rewrite Habs.
Qed.

Lemma missing_source_raises_witness :
  resize_to_a_size Sample.bare "nothing.pdf" "/work/out.png" A_SIZES_MM "A4" 300
      "fit" "vertical" white true true true true Sample.start
    = (Raise (FileNotFound "/work/nothing.pdf"), Sample.start).
Proof.
  apply (missing_source_raises Sample.bare "nothing.pdf" "/work/out.png" A_SIZES_MM "A4"
           300 "fit" "vertical" white true true true true Sample.start (2480, 3508)).
  - vm_compute. reflexivity.
  - intros c Hc. vm_compute in Hc.
    repeat (apply elem_of_cons in Hc as [->|Hc]); [vm_compute; set_solver..|].
    by apply elem_of_nil in Hc.
Defined.

(** ** Temporary files *)

Lemma _rasterize_with_ghostscript_ok sys path dpi w im w1 :
  _rasterize_with_ghostscript sys path dpi w = (Ok im, w1) ->
  temp_raster_path im = Some (temp_name sys (temp_count w))
  /\ w1 = World ({[ temp_name sys (temp_count w) ]} ∪ disk w) (S (temp_count w)) (saved w).
Proof.
  destruct (_find_gs_exe sys) as [gs|] eqn:Hgs.
  - destruct (decide (resolve_path_on sys (disk w) path ∈ disk w)) as [Hin|Hin].
    + rewrite (_rasterize_with_ghostscript_eval sys path dpi w gs Hgs Hin).
      destruct (run_process sys _); [destruct (image_open sys _)|];
        intros [= <- <-]; done.
    + unfold _rasterize_with_ghostscript. rewrite Hgs.
      unfold IO.bind, resolve_path, IO.exists_.
      rewrite (bool_decide_eq_false_2 _ Hin). discriminate.
  - unfold _rasterize_with_ghostscript. rewrite Hgs. discriminate.
Qed.

Lemma _rasterize_svg_with_inkscape_ok sys path dpi w im w1 :
  _rasterize_svg_with_inkscape sys path dpi w = (Ok im, w1) ->
  temp_raster_path im = Some (temp_name sys (temp_count w))
  /\ w1 = World ({[ temp_name sys (temp_count w) ]} ∪ disk w) (S (temp_count w)) (saved w).
Proof.
  destruct (_find_inkscape_exe_pure sys w) as [[inkscape|] Hexe].
  - destruct (decide (resolve_path_on sys (disk w) path ∈ disk w)) as [Hin|Hin].
    + rewrite (_rasterize_svg_with_inkscape_eval sys path dpi w inkscape Hexe Hin).
      destruct (run_process sys _); [destruct (image_open sys _)|];
        intros [= <- <-]; done.
    + unfold _rasterize_svg_with_inkscape.
      rewrite (bind_ok _ _ w (Some inkscape) w Hexe).
      unfold IO.bind, resolve_path, IO.exists_.
      rewrite (bool_decide_eq_false_2 _ Hin). discriminate.
  - unfold _rasterize_svg_with_inkscape.
    rewrite (bind_ok _ _ w None w Hexe). discriminate.
Qed.

(** a decoded image either cost no temporary file or carries the name of
    the one that was made *)
Lemma open_image_any_temp sys path raster_dpi skip_gs_files skip_svg_files w im w1 :
  plain_decoders sys ->
  open_image_any sys path raster_dpi skip_gs_files skip_svg_files w = (Ok (Some im), w1) ->
  (temp_raster_path im = None /\ w1 = w)
  \/ (temp_raster_path im = Some (temp_name sys (temp_count w))
      /\ w1 = World ({[ temp_name sys (temp_count w) ]} ∪ disk w)
                    (S (temp_count w)) (saved w)).
Proof.
  intros (Hopen & Hraw & Hsvg). rewrite open_image_any_eval. cbn zeta.
  destruct (bool_decide _); [|discriminate].
  destruct (bool_decide _).
  - destruct (_rasterize_with_ghostscript _ _ _ _) as [[im'|e'] w2] eqn:Hgs.
    + intros [= <- <-]. right. exact (_rasterize_with_ghostscript_ok _ _ _ _ _ _ Hgs).
    + destruct skip_gs_files; discriminate.
  - destruct (image_open _ _) as [im'|] eqn:Ho.
    { intros [= <- <-]. left. eauto. }
    destruct (bool_decide _).
    { destruct (raw_postprocess _ _) as [im'|] eqn:Hr; [|discriminate].
      intros [= <- <-]. left. eauto. }
    destruct (bool_decide _); [|discriminate].
    destruct (svg2png _ _ _) as [im'|] eqn:Hs.
    { intros [= <- <-]. left. eauto. }
    destruct (_rasterize_svg_with_inkscape _ _ _ _) as [[im'|e'] w2] eqn:Hink.
    + intros [= <- <-]. right. exact (_rasterize_svg_with_inkscape_ok _ _ _ _ _ _ Hink).
    + destruct skip_svg_files; discriminate.
Qed.

Lemma truthy_Some s : s <> "" -> truthy (Some s) = true.
Proof. intros Hs. cbn. by destruct (String.eqb_spec s ""). Qed.

(** X15: a call that decodes its source leaves no temporary file behind,
    whatever the later steps do: cropping, composing or saving may raise,
    the [finally] block still removes the file of the rasterizer. *)
Theorem decoded_run_leaves_no_temp
    sys src_path out_path sizes_mm size_key dpi mode landscape bg_color
    skip_gs_files skip_svg_files autocrop flatten_alpha w target im w1 :
  let tmp := temp_name sys (temp_count w) in
  plain_decoders sys -> tmp <> "" -> tmp ∉ disk w -> tmp <> out_path ->
  paper_size_px size_key dpi landscape sizes_mm = Ok target ->
  open_image_any sys src_path dpi skip_gs_files skip_svg_files w = (Ok (Some im), w1) ->
  tmp
    ∉ disk (resize_to_a_size sys src_path out_path sizes_mm size_key dpi mode landscape
              bg_color skip_gs_files skip_svg_files autocrop flatten_alpha w).2.
Proof.
  intros tmp Hplain Hne Hnew Hout Hsize Hopen.
  rewrite resize_to_a_size_eval, Hsize, Hopen.
  assert (forall w2, (tmp ∈ disk w2 -> tmp ∈ disk w1 \/ tmp = out_path) ->
                     tmp ∉ disk (after_cleanup (temp_raster_path im) w2)) as Hclean.
  { intros w2 Hw2.
    destruct (open_image_any_temp _ _ _ _ _ _ _ _ Hplain Hopen) as [[-> ->]|[-> ->]].
    - cbn. intros [Hin|Heq]%Hw2; done.
    - unfold after_cleanup. fold tmp. rewrite (truthy_Some _ Hne). cbn.
      intros [_ Hn]%elem_of_difference. apply Hn. by apply elem_of_singleton. }
  destruct (preprocess _ _ _ _ _) as [im'|e]; [|cbn; apply Hclean; auto].
  destruct (compose _ _ _ _ _ _ _) as [out|e]; [|cbn; apply Hclean; auto].
  destruct (can_save sys out out_path); cbn; apply Hclean; [|auto].
  cbn. intros [Hin%elem_of_singleton|Hin]%elem_of_union; auto.
Qed.

(** the sample machines meet the assumptions on paths and decoders *)
Lemma posix_plain : plain_decoders Studio.posix.
Proof.
  repeat split; cbn; try discriminate.
  intros p im. repeat (destruct (String.eqb p _); [by intros [= <-]|]). discriminate.
Qed.

Lemma bare_plain : plain_decoders Sample.bare.
Proof.
  repeat split; cbn; try discriminate.
  intros p im. repeat (destruct (String.eqb p _); [by intros [= <-]|]). discriminate.
Qed.

Lemma decoded_run_leaves_no_temp_witness :
  temp_name Studio.posix 0 = "/tmp/tmp0.png"
  /\ "/tmp/tmp0.png"
     ∉ disk (resize_to_a_size Studio.posix "logo.eps" "/work/out.png" A_SIZES_MM "A4" 3
               "fit" "vertical" white false true true true Studio.start).2.
Proof.
  split; [reflexivity|].
  eapply (decoded_run_leaves_no_temp Studio.posix "logo.eps" "/work/out.png" A_SIZES_MM
            "A4" 3 "fit" "vertical" white false true true true Studio.start).
  - exact posix_plain.
  - vm_compute. discriminate.
  - vm_compute. set_solver.
  - vm_compute. discriminate.
  - vm_compute. reflexivity.
  - vm_compute. reflexivity.
Defined.

(** ** What a call may touch *)

(** X16: a call touches the output path and its own temporary file and
    nothing else: every other path is on disk afterwards exactly when it
    was before, and the images written are those written before, with at
    most the output in front. *)
Theorem resize_touches_only_output
    sys src_path out_path sizes_mm size_key dpi mode landscape bg_color
    skip_gs_files skip_svg_files autocrop flatten_alpha w :
  plain_decoders sys ->
  let w' := (resize_to_a_size sys src_path out_path sizes_mm size_key dpi mode landscape
               bg_color skip_gs_files skip_svg_files autocrop flatten_alpha w).2 in
  (saved w' = saved w \/ exists out, saved w' = (out_path, out, dpi) :: saved w)
  /\ forall p, p <> out_path -> p <> temp_name sys (temp_count w) ->
       p ∈ disk w' <-> p ∈ disk w.
Proof.
  intros Hplain. cbn zeta. rewrite resize_to_a_size_eval.
  destruct (paper_size_px _ _ _ _) as [target|e]; [|cbn; tauto].
  pose proof (open_image_any_frame sys src_path dpi skip_gs_files skip_svg_files w)
    as (Hsaved & _ & Hdisk).
  destruct (open_image_any _ _ _ _ _ _) as [[[im|]|e] w1] eqn:Hopen; cbn [snd] in *.
  - set (tmp := temp_name sys (temp_count w)) in *.
    assert (forall w2 p, p <> tmp ->
              p ∈ disk (after_cleanup (temp_raster_path im) w2) <-> p ∈ disk w2) as Hclean.
    { intros w2 p Hp.
      destruct (open_image_any_temp _ _ _ _ _ _ _ _ Hplain Hopen) as [[-> _]|[-> _]];
        [done|].
      unfold after_cleanup. destruct (truthy _); [|done]. cbn. fold tmp.
      rewrite elem_of_difference, elem_of_singleton. tauto. }
    destruct (preprocess _ _ _ _ _) as [im'|e]; cbn [snd];
      [|rewrite saved_after_cleanup; split; [auto|];
        intros p Ho Ht; rewrite Hclean by done; by apply Hdisk].
    destruct (compose _ _ _ _ _ _ _) as [out|e]; cbn [snd];
      [|rewrite saved_after_cleanup; split; [auto|];
        intros p Ho Ht; rewrite Hclean by done; by apply Hdisk].
    destruct (can_save sys out out_path); cbn [snd];
      rewrite saved_after_cleanup; (split; [cbn; rewrite ?Hsaved; eauto|]);
      intros p Ho Ht; rewrite Hclean by done; [|by apply Hdisk].
    cbn. rewrite elem_of_union, elem_of_singleton, (Hdisk p Ht). tauto.
  - destruct (error_record_eval sys src_path w1) as (code & msg & -> & _). cbn. auto.
  - cbn. auto.
Qed.

Lemma resize_touches_only_output_witness :
  "/work/photo.jpg" ∈ disk custom_run.2 /\ "/tmp/photo.jpg" ∉ disk custom_run.2.
Proof.
  pose proof (resize_touches_only_output Sample.bare "photo.jpg" "/work/out.png"
                Sample.copy_of_A "a4" 3 "fit" "vertical" white true true true true
                Sample.start bare_plain) as [_ Hdisk].
  split.
  - apply (Hdisk "/work/photo.jpg"); [discriminate | vm_compute; discriminate |].
    vm_compute. set_solver.
  - intros Hin. apply (Hdisk "/tmp/photo.jpg") in Hin;
      [|discriminate | vm_compute; discriminate].
    revert Hin. vm_compute. set_solver.
Defined.

(** ** What a successful call writes *)

Lemma size_tabulate {A} w h (f : Z -> Z -> A) :
  0 < w -> 0 < h ->
  (Grid.width (Grid.tabulate w h f), Grid.height (Grid.tabulate w h f)) = (w, h).
Proof. intros Hw Hh. rewrite width_tabulate, height_tabulate by lia. f_equal; lia. Qed.

(** every placement mode answers with an image of the target size *)
Lemma compose_size sys im mode target_w target_h bg_color out_path out :
  0 < target_w -> 0 < target_h ->
  compose sys im mode target_w target_h bg_color out_path = Ok out ->
  Pillow.size out = (target_w, target_h).
Proof.
  intros Hw Hh. unfold compose.
  set (placed := if String.eqb mode "stretch" then _ else _).
  assert (forall o, placed = Ok o -> Pillow.size o = (target_w, target_h)) as Hplaced.
  { intros o. unfold placed. destruct (String.eqb mode "stretch").
    - destruct (resize_size (lanczos sys) im target_w target_h) as (o' & -> & Hs & _);
        [lia..|]. by intros [= <-].
    - destruct (String.eqb mode "fill").
      + unfold Resample.fit. cbn [fst snd].
        destruct (_ || _); [discriminate|]. destruct (_ || _); [discriminate|].
        intros [= <-]. unfold Pillow.size, Pillow.width, Pillow.height. cbn.
        by apply size_tabulate.
      + unfold place_fit.
        destruct (fit_size _ _ _ _) as [[new_w new_h]|]; [|discriminate].
        destruct (Resample.resize _ _ _) as [im_copy|]; [|discriminate].
        set (m := if has_alpha im && Str.endswith (Str.lower out_path) ".png"
                  then RGBA else RGB).
        set (color := if has_alpha im && Str.endswith (Str.lower out_path) ".png"
                      then transparent_white else bg_color).
        destruct (new_shape m target_w target_h color) as (canvas & Hnew & _ & Hshape);
          [lia..|].
        assert ((if has_alpha im && Str.endswith (Str.lower out_path) ".png"
                 then Pillow.new RGBA (target_w, target_h) transparent_white
                 else Pillow.new RGB (target_w, target_h) bg_color) = Ok canvas) as ->.
        { unfold m, color in Hnew. by destruct (has_alpha im && _). }
        intros [= <-].
        unfold Pillow.size, Pillow.width, Pillow.height, Pillow.paste. cbn [rows].
        rewrite (has_shape_width target_w target_h _ (has_shape_paste _ _ _ _ _ _ Hshape)),
          (has_shape_height target_w target_h _ (has_shape_paste _ _ _ _ _ _ Hshape)) by lia.
        done. }
  destruct placed as [o|]; [|discriminate]. specialize (Hplaced o eq_refl).
  destruct (negb _ && _); intros [= <-]; [|done]. by rewrite size_convert_RGB.
Qed.

(** an RGB image stays RGB through every placement mode *)
Lemma compose_RGB sys im mode target_w target_h bg_color out_path out :
  mode_of im = RGB ->
  compose sys im mode target_w target_h bg_color out_path = Ok out ->
  mode_of out = RGB.
Proof.
  intros Hm. unfold compose.
  set (placed := if String.eqb mode "stretch" then _ else _).
  assert (forall o, placed = Ok o -> mode_of o = RGB) as Hplaced.
  { intros o. unfold placed. destruct (String.eqb mode "stretch").
    - unfold Resample.resize. destruct (_ && _); [by intros [= <-]|].
      destruct (_ || _); [discriminate|]. by intros [= <-].
    - destruct (String.eqb mode "fill").
      + unfold Resample.fit. destruct (_ || _); [discriminate|].
        destruct (_ || _); [discriminate|]. by intros [= <-].
      + unfold place_fit, has_alpha. rewrite Hm. cbn [andb].
        destruct (fit_size _ _ _ _) as [[new_w new_h]|]; [|discriminate].
        destruct (Resample.resize _ _ _) as [im_copy|]; [|discriminate].
        unfold Pillow.new. destruct (_ || _); [discriminate|]. by intros [= <-]. }
  destruct placed as [o|]; [|discriminate]. specialize (Hplaced o eq_refl).
  rewrite Hplaced. cbn [mode_eqb andb]. rewrite andb_false_r. by intros [= <-].
Qed.

(** the steps behind a success record *)
Lemma success_inv
    sys src_path out_path sizes_mm size_key dpi mode landscape bg_color
    skip_gs_files skip_svg_files autocrop flatten_alpha w info w' :
  resize_to_a_size sys src_path out_path sizes_mm size_key dpi mode landscape
      bg_color skip_gs_files skip_svg_files autocrop flatten_alpha w
    = (Ok (Success info), w') ->
  exists im w1 im' out,
    paper_size_px size_key dpi landscape sizes_mm = Ok (rec_target_px info)
    /\ open_image_any sys src_path dpi skip_gs_files skip_svg_files w = (Ok (Some im), w1)
    /\ preprocess sys im autocrop flatten_alpha bg_color = Ok im'
    /\ compose sys im' mode (rec_target_px info).1 (rec_target_px info).2 bg_color out_path
       = Ok out
    /\ can_save sys out out_path = true
    /\ saved w' = (out_path, out, dpi) :: saved w.
Proof.
  rewrite resize_to_a_size_eval.
  destruct (paper_size_px _ _ _ _) as [target|e]; [|discriminate].
  pose proof (open_image_any_frame sys src_path dpi skip_gs_files skip_svg_files w)
    as (Hsaved & _ & _).
  destruct (open_image_any _ _ _ _ _ _) as [[[im|]|e] w1] eqn:Hopen; cbn [snd] in *;
    [| |discriminate].
  - destruct (preprocess _ _ _ _ _) as [im'|e] eqn:Hpre; [|discriminate].
    destruct (compose _ _ _ _ _ _ _) as [out|e] eqn:Hcomp; [|discriminate].
    destruct (can_save sys out out_path) eqn:Hsave; [|discriminate].
    cbn zeta. intros [= <- <-]. cbn [rec_target_px].
    exists im, w1, im', out. rewrite saved_after_cleanup. cbn. rewrite Hsaved. auto 10.
  - destruct (error_record_eval sys src_path w1) as (code & msg & -> & _). discriminate.
Qed.

(** X17: a call that returns a success record has written exactly one
    image: to the output path, at the resolution asked for, and of the
    pixel size reported in the record, which is the size [paper_size_px]
    gives for the key, in each of the three placement modes. *)
Theorem success_writes_target_size
    sys src_path out_path sizes_mm size_key dpi mode landscape bg_color
    skip_gs_files skip_svg_files autocrop flatten_alpha w info w' :
  resize_to_a_size sys src_path out_path sizes_mm size_key dpi mode landscape
      bg_color skip_gs_files skip_svg_files autocrop flatten_alpha w
    = (Ok (Success info), w') ->
  0 < (rec_target_px info).1 -> 0 < (rec_target_px info).2 ->
  paper_size_px size_key dpi landscape sizes_mm = Ok (rec_target_px info)
  /\ exists out, saved w' = (out_path, out, dpi) :: saved w
       /\ Pillow.size out = rec_target_px info.
Proof.
  intros Hrun Hw Hh.
  destruct (success_inv _ _ _ _ _ _ _ _ _ _ _ _ _ _ _ _ Hrun)
    as (im & w1 & im' & out & Hsize & _ & _ & Hcomp & _ & Hsaved).
  split; [exact Hsize|]. exists out. split; [exact Hsaved|].
  rewrite (compose_size _ _ _ _ _ _ _ _ Hw Hh Hcomp). by destruct (rec_target_px info).
Qed.

Lemma success_writes_target_size_witness :
  paper_size_px "a4" 3 "vertical" Sample.copy_of_A = Ok (25, 35)
  /\ exists out, saved custom_run.2 = [("/work/out.png", out, 3)]
       /\ Pillow.size out = (25, 35).
Proof.
  apply (success_writes_target_size Sample.bare "photo.jpg" "/work/out.png"
           Sample.copy_of_A "a4" 3 "fit" "vertical" white true true true true
           Sample.start custom_info custom_run.2).
  - vm_compute. reflexivity.
  - reflexivity.
  - reflexivity.
Defined.

(** X18: with [flatten_alpha] set, the image written by a successful call
    is an RGB image, in every placement mode and for every output path: no
    alpha band reaches the file. *)
Theorem flattened_output_is_RGB
    sys src_path out_path sizes_mm size_key dpi mode landscape bg_color
    skip_gs_files skip_svg_files autocrop w info w' :
  resize_to_a_size sys src_path out_path sizes_mm size_key dpi mode landscape
      bg_color skip_gs_files skip_svg_files autocrop true w
    = (Ok (Success info), w') ->
  exists out, saved w' = (out_path, out, dpi) :: saved w /\ mode_of out = RGB.
Proof.
  intros Hrun.
  destruct (success_inv _ _ _ _ _ _ _ _ _ _ _ _ _ _ _ _ Hrun)
    as (im & w1 & im' & out & _ & _ & Hpre & Hcomp & _ & Hsaved).
  exists out. split; [exact Hsaved|].
  exact (compose_RGB _ _ _ _ _ _ _ _ (preprocess_flatten_RGB _ _ _ _ _ Hpre) Hcomp).
Qed.

Lemma flattened_output_is_RGB_witness :
  exists out, saved custom_run.2 = [("/work/out.png", out, 3)] /\ mode_of out = RGB.
Proof.
  apply (flattened_output_is_RGB Sample.bare "photo.jpg" "/work/out.png"
           Sample.copy_of_A "a4" 3 "fit" "vertical" white true true true
           Sample.start custom_info custom_run.2).
  vm_compute. reflexivity.
Defined.

(** ** Error records *)

(** X19: an error record is the answer for a skipped file and for nothing
    else: "GS_REQUIRED" for a page-description extension with
    [skip_gs_files] set, "SVG_TOOL_REQUIRED" for a vector extension with
    [skip_svg_files] set.  The record names the resolved source path and no
    image is written.  The third record of the code, "UNREADABLE", is never
    returned. *)
Theorem error_record_only_when_skipping
    sys src_path out_path sizes_mm size_key dpi mode landscape bg_color
    skip_gs_files skip_svg_files autocrop flatten_alpha w code msg p w' :
  temp_name sys (temp_count w) ∉ resolve_candidates sys src_path ->
  resize_to_a_size sys src_path out_path sizes_mm size_key dpi mode landscape
      bg_color skip_gs_files skip_svg_files autocrop flatten_alpha w
    = (Ok (Error code msg p), w') ->
  p = resolve_path_on sys (disk w) src_path /\ saved w' = saved w
  /\ ((code = "GS_REQUIRED" /\ skip_gs_files = true
       /\ source_ext sys w src_path ∈ PS_PDF_EXTS)
      \/ (code = "SVG_TOOL_REQUIRED" /\ skip_svg_files = true
          /\ source_ext sys w src_path ∈ VECTOR_EXTS)).
Proof.
  intros Hfresh. rewrite resize_to_a_size_eval.
  destruct (paper_size_px _ _ _ _) as [target|e]; [|discriminate].
  pose proof (open_image_any_frame sys src_path dpi skip_gs_files skip_svg_files w)
    as Hframe.
  destruct (open_image_any _ _ _ _ _ _) as [[[im|]|e] w1] eqn:Hopen; cbn [snd] in *;
    [| |discriminate].
  - destruct (preprocess _ _ _ _ _); [|discriminate].
    destruct (compose _ _ _ _ _ _ _); [|discriminate].
    destruct (can_save _ _ _); discriminate.
  - pose proof (resolve_after_open sys src_path w w1 Hframe Hfresh) as Hres.
    destruct (error_record_eval sys src_path w1) as (code' & msg' & -> & Hcode).
    assert (source_ext sys w1 src_path = source_ext sys w src_path) as Hext
      by (unfold source_ext; by rewrite Hres).
    rewrite Hext in Hcode. rewrite Hres. intros [= <- <- <- <-].
    split; [done|]. split; [by destruct Hframe|].
    destruct (open_image_any_None _ _ _ _ _ _ _ Hopen) as [[Hskip Hps]|(Hskip & Hv & Hps)].
    + rewrite (bool_decide_eq_true_2 _ Hps) in Hcode. auto.
    + rewrite (bool_decide_eq_false_2 _ Hps), (bool_decide_eq_true_2 _ Hv) in Hcode. auto.
Qed.

Lemma error_record_only_when_skipping_witness :
  "/work/doc.pdf" = resolve_path_on Sample.bare (disk Sample.start) "doc.pdf"
  /\ saved Sample.start = saved Sample.start
  /\ (("GS_REQUIRED" = "GS_REQUIRED" /\ true = true
       /\ source_ext Sample.bare Sample.start "doc.pdf" ∈ PS_PDF_EXTS)
      \/ ("GS_REQUIRED" = "SVG_TOOL_REQUIRED" /\ true = true
          /\ source_ext Sample.bare Sample.start "doc.pdf" ∈ VECTOR_EXTS)).
Proof.
  apply (error_record_only_when_skipping Sample.bare "doc.pdf" "/work/out.png"
           A_SIZES_MM "A4" 300 "fit" "vertical" white true true true true Sample.start
           "GS_REQUIRED"
           "EPS/AI/PDF needs Ghostscript. Install Ghostscript or convert to PNG/JPG first."
           "/work/doc.pdf" Sample.start).
  - not_in_list.
  - vm_compute. reflexivity.
Defined.

(** ** A rasterizer that fails *)



Lemma vector_ext_only ext :
  ext ∈ VECTOR_EXTS -> (ext ∉ PS_PDF_EXTS) /\ (ext ∉ RAW_EXTS).
Proof.
  unfold VECTOR_EXTS. intros ->%elem_of_singleton.
  split; vm_compute; set_solver.
Qed.



(** X21: an SVG file that neither Pillow nor cairosvg reads, on a machine
    without Inkscape: with [skip_svg_files] set the call returns the
    "SVG_TOOL_REQUIRED" record, with the flag unset it raises
    [SvgRasterFailed] naming the file, not the "Inkscape not found" error of
    the rasterizer.  The world is left as it was. *)
Theorem svg_without_rasterizer
    sys src_path out_path sizes_mm size_key dpi mode landscape bg_color
    skip_gs_files autocrop flatten_alpha w target :
  let path_abs := resolve_path_on sys (disk w) src_path in
  paper_size_px size_key dpi landscape sizes_mm = Ok target ->
  path_abs ∈ disk w ->
  source_ext sys w src_path ∈ VECTOR_EXTS ->
  image_open sys path_abs = None ->
  svg2png sys path_abs dpi = None ->
  _find_inkscape_exe sys w = (Ok None, w) ->
  resize_to_a_size sys src_path out_path sizes_mm size_key dpi mode landscape
      bg_color skip_gs_files true autocrop flatten_alpha w
    = (Ok (Error "SVG_TOOL_REQUIRED"
         "SVG needs Inkscape on Windows (recommended) or a working Cairo runtime."
         path_abs), w)
  /\ resize_to_a_size sys src_path out_path sizes_mm size_key dpi mode landscape
      bg_color skip_gs_files false autocrop flatten_alpha w
    = (Raise (SvgRasterFailed path_abs), w).
Proof.
  intros path_abs Hsize Hin Hext Hopen Hsvg Hink.
  destruct (vector_ext_only _ Hext) as [Hps Hraw].
  assert (forall skip,
            open_image_any sys src_path dpi skip_gs_files skip w
            = (if skip then Ok None else Raise (SvgRasterFailed path_abs), w)) as Hany.
  { intros skip. rewrite open_image_any_eval. cbn zeta. fold path_abs.
    rewrite (bool_decide_eq_true_2 _ Hin), (bool_decide_eq_false_2 _ Hps), Hopen,
      (bool_decide_eq_false_2 _ Hraw), (bool_decide_eq_true_2 _ Hext), Hsvg.
    unfold _rasterize_svg_with_inkscape. rewrite (bind_ok _ _ w None w Hink).
    reflexivity. }
  split.
  - rewrite resize_to_a_size_eval, Hsize, (Hany true).
    unfold error_record, IO.bind, resolve_path. fold path_abs.
    unfold source_ext in Hext, Hps. fold path_abs in Hext, Hps.
    rewrite (bool_decide_eq_false_2 _ Hps), (bool_decide_eq_true_2 _ Hext). reflexivity.
  - rewrite resize_to_a_size_eval, Hsize, (Hany false). reflexivity.
Qed.

Lemma svg_without_rasterizer_witness :
  resize_to_a_size Sample.bare "art.svg" "/work/out.png" A_SIZES_MM "A4" 300
      "fit" "vertical" white true true true true Studio.start
    = (Ok (Error "SVG_TOOL_REQUIRED"
         "SVG needs Inkscape on Windows (recommended) or a working Cairo runtime."
         "/work/art.svg"), Studio.start)
  /\ resize_to_a_size Sample.bare "art.svg" "/work/out.png" A_SIZES_MM "A4" 300
      "fit" "vertical" white true false true true Studio.start
    = (Raise (SvgRasterFailed "/work/art.svg"), Studio.start).
Proof.
  apply (svg_without_rasterizer Sample.bare "art.svg" "/work/out.png" A_SIZES_MM "A4" 300
           "fit" "vertical" white true true true Studio.start (2480, 3508)).
  - vm_compute. reflexivity.
  - vm_compute. set_solver.
  - vm_compute. set_solver.
  - reflexivity.
  - reflexivity.
  - vm_compute. reflexivity.
Defined.



(** X23: on a successful call whose output path does not end in ".png"
    the image written is never RGBA.  It has an alpha band only when it is
    an LA image that was neither flattened nor placed in the "fit" mode:
    this is the one way for transparency to reach a file of another
    format. *)
Theorem alpha_reaches_other_formats_only_as_LA
    sys src_path out_path sizes_mm size_key dpi mode landscape bg_color
    skip_gs_files skip_svg_files autocrop flatten_alpha w info w' :
  resize_to_a_size sys src_path out_path sizes_mm size_key dpi mode landscape
      bg_color skip_gs_files skip_svg_files autocrop flatten_alpha w
    = (Ok (Success info), w') ->
  Str.endswith (Str.lower out_path) ".png" = false ->
  exists out,
    saved w' = (out_path, out, dpi) :: saved w
    /\ mode_of out <> RGBA
    /\ (Pillow.has_alpha_band (mode_of out) = true ->
        flatten_alpha = false /\ mode_of out = LA
        /\ (mode = "stretch" \/ mode = "fill")).
Proof.
  intros Hrun Hpng.
  destruct (success_inv _ _ _ _ _ _ _ _ _ _ _ _ _ _ _ _ Hrun)
    as (im & w1 & im' & out & _ & _ & Hpre & Hcomp & _ & Hsaved).
  exists out. split; [exact Hsaved|].
  assert (Pillow.has_alpha_band (mode_of out) = true ->
          flatten_alpha = false /\ mode_of out = LA
          /\ (mode = "stretch" \/ mode = "fill")) as Halpha.
  { intros Ha.
    destruct (compose_alpha_only_LA _ _ _ _ _ _ _ _ Hcomp Hpng Ha) as (Him & Hout & Hmode).
    split; [|split; [exact Hout|]].
    - destruct flatten_alpha; [|done].
      rewrite (preprocess_flatten_RGB _ _ _ _ _ Hpre) in Him. discriminate.
    - destruct Hmode as [E|E]; apply String.eqb_eq in E; auto. }
  split; [|exact Halpha].
  intros E. destruct Halpha as (_ & E' & _); [by rewrite E|]. congruence.
Qed.

Lemma alpha_reaches_other_formats_only_as_LA_witness :
  exists out,
    saved grey_run.2 = (("/work/out.tif", out, 1) :: saved Sample.start)
    /\ mode_of out <> RGBA
    /\ (Pillow.has_alpha_band (mode_of out) = true ->
        false = false /\ mode_of out = LA
        /\ ("stretch" = "stretch" \/ "stretch" = "fill")).
Proof.
  assert (exists info, grey_run = (Ok (Success info), grey_run.2)) as [info Hrun]
    by (eexists; vm_compute; reflexivity).
  apply (alpha_reaches_other_formats_only_as_LA Sample.bare "grey.png" "/work/out.tif"
           A_SIZES_MM "A4" 1 "stretch" "vertical" white true true false false
           Sample.start info grey_run.2 Hrun).
  reflexivity.
Defined.

(** ** Runs that cannot fail before saving *)









(** ** When a temporary file stays behind *)







